(** * SimpleFS: a shallow embedding of [fs.c] and [disk.c]

    The development follows the final draft of the file system
    ([fs.c], the one that declares [fs_expand_file]) and the disk
    emulator [disk.c].  Integers of the C program are [Z] with the
    wrap-around of their C type written out, blocks are lists of bytes,
    the [Block] union is read through little-endian 32-bit words, and
    functions that can leave the normal control flow ([exit], a failed
    [assert], a read of memory that was never written) return an
    [outcome]. *)

From Stdlib Require Import ZArith Lia List Bool.
From stdpp Require Import base list option numbers.
From coqutil Require Import Byte Word.LittleEndianList.

Local Open Scope Z_scope.

Ltac Zify.zify_post_hook ::= Z.to_euclidean_division_equations.

(** ** Constants of the headers *)

(** Modelled from the spec: [sfs/disk.h] is not among the sources; the
    block size is the 4096 of the spec's data model and scenarios. *)
Definition BLOCK_SIZE : Z := 4096.

(** Modelled from the spec: [sfs/disk.h] is not among the sources; the
    spec only says that a failed disk operation returns a failure
    sentinel, and a negative one is taken here, so the tests
    [!disk_read(...)] of [fs.c] never see a failure while the tests
    [== DISK_FAILURE] do. *)
Definition DISK_FAILURE : Z := -1.

(** Modelled from the spec: [sfs/fs.h] is not among the sources; the
    spec asks for a 32-bit tag and leaves its value open. *)
Definition MAGIC_NUMBER : Z := 0xf0f03410.

(** Modelled from the spec: [sfs/fs.h] is not among the sources;
    [BLOCK_SIZE / sizeof(Inode)] with an inode of eight 32-bit words. *)
Definition INODES_PER_BLOCK : Z := 128.

(** Modelled from the spec: [sfs/fs.h] is not among the sources; five
    direct pointers as in the spec's scenarios. *)
Definition POINTERS_PER_INODE : Z := 5.

(** Modelled from the spec: [sfs/fs.h] is not among the sources;
    [BLOCK_SIZE / sizeof(u32)]. *)
Definition POINTERS_PER_BLOCK : Z := 1024.

(** Number of 32-bit words of one [Inode]: [valid], [size],
    [direct[POINTERS_PER_INODE]], [indirect]. *)
Definition INODE_WORDS : Z := 8.

(** ** C integers *)

Definition u32 (x : Z) : Z := x mod 2 ^ 32.
Definition size_t (x : Z) : Z := x mod 2 ^ 64.

Module Utils.
(** [utils.h]: the three macros.  [UPPER_ROUND] adds in the type of
    its first argument, whose wrap-around is [wrap]. *)
Definition min (a b : Z) : Z := if a <? b then a else b.
Definition max (a b : Z) : Z := if a >? b then a else b.
Definition UPPER_ROUND (wrap : Z -> Z) (x size : Z) : Z :=
  wrap (x + (size - 1)) / size.
End Utils.

(** ** Outcomes *)

Inductive outcome (A : Type) : Type :=
| Ret (a : A)      (* the function returned *)
| Exit             (* exit(1) *)
| Abort            (* a failed assert *)
| Undef.           (* memory never written, or outside its object *)
Arguments Ret {A} a.
Arguments Exit {A}.
Arguments Abort {A}.
Arguments Undef {A}.

Definition obind {A B} (m : outcome A) (k : A -> outcome B) : outcome B :=
  match m with
  | Ret a => k a
  | Exit => Exit
  | Abort => Abort
  | Undef => Undef
  end.

Notation "'do' x <- m ; k" := (obind m (fun x => k))
  (at level 10, x name, m at level 100, k at level 200).
Notation "'do' ' p <- m ; k" := (obind m (fun p => k))
  (at level 10, p pattern, m at level 100, k at level 200).

(** The contents of a local buffer that was declared but possibly never
    filled, and the target of a pointer that may be [NULL]. *)
Definition initialised {A} (b : option A) : outcome A :=
  match b with Some x => Ret x | None => Undef end.

(** ** Blocks and the views of the [Block] union *)

Abbreviation block := (list byte) (only parsing).

(** [calloc(BLOCK_SIZE, 1)] and [memset(.., 0, BLOCK_SIZE)]. *)
Definition zero_block : block := replicate (Z.to_nat BLOCK_SIZE) Byte.x00.

(** The [k]-th 32-bit word of a block: [pointers[k]], and the fields of
    [super] and [inodes[j]]. *)
Definition get_word (b : block) (k : Z) : Z :=
  le_combine (take 4 (drop (Z.to_nat (4 * k)) b)).

Definition set_word (b : block) (k : Z) (v : Z) : block :=
  take (Z.to_nat (4 * k)) b ++ le_split 4 v ++ drop (Z.to_nat (4 * k + 4)) b.

Record SuperBlock := mkSuperBlock {
  magic_number : Z;
  sb_blocks : Z;
  inode_blocks : Z;
  inodes : Z
}.

Record Inode := mkInode {
  valid : Z;
  size : Z;
  direct : list Z;
  indirect : Z
}.

(** [block.super] *)
Definition block_super (b : block) : SuperBlock :=
  {| magic_number := get_word b 0;
     sb_blocks := get_word b 1;
     inode_blocks := get_word b 2;
     inodes := get_word b 3 |}.

(** [block.inodes[j]], copied out as [memcpy(node, &block.inodes[j],
    sizeof(Inode))] does. *)
Definition block_inode (b : block) (j : Z) : Inode :=
  {| valid := get_word b (INODE_WORDS * j);
     size := get_word b (INODE_WORDS * j + 1);
     direct := (fun k => get_word b (INODE_WORDS * j + 2 + k))
                 <$> seqZ 0 POINTERS_PER_INODE;
     indirect := get_word b (INODE_WORDS * j + 2 + POINTERS_PER_INODE) |}.

(** [node->direct[i]] *)
Definition direct_at (node : Inode) (i : Z) : Z :=
  default 0 (direct node !! Z.to_nat i).

(** [memcpy(&block.inodes[j], node, sizeof(Inode))] *)
Definition set_block_inode (b : block) (j : Z) (node : Inode) : block :=
  let b := set_word b (INODE_WORDS * j) (valid node) in
  let b := set_word b (INODE_WORDS * j + 1) (size node) in
  let b := foldl (fun b k => set_word b (INODE_WORDS * j + 2 + k) (direct_at node k))
                 b (seqZ 0 POINTERS_PER_INODE) in
  set_word b (INODE_WORDS * j + 2 + POINTERS_PER_INODE) (indirect node).

(** [memset(&inode, 0, sizeof(inode))] *)
Definition zero_inode : Inode :=
  {| valid := 0; size := 0;
     direct := replicate (Z.to_nat POINTERS_PER_INODE) 0; indirect := 0 |}.

(** ** The disk emulator, [disk.c] *)

(** The image file is kept as the list of its blocks: [lseek] to
    [block * BLOCK_SIZE] followed by a [read] or [write] of [BLOCK_SIZE]
    bytes is a lookup or an update at index [block]. *)
Record Disk := mkDisk {
  fd : Z;
  blocks : Z;
  reads : Z;
  writes : Z;
  image : list block
}.

(** A pointer is [None] for [NULL]: a [Disk *], and the [char *data]
    of the buffer.  [fs.c] passes the address of one of its local
    blocks everywhere. *)
Definition disk_sanity_check {A} (disk : option Disk) (blk : Z) (data : option A) : bool :=
  match disk with
  | None => false
  | Some d =>
      (0 <=? fd d) && (blk <? blocks d) &&
      match data with Some _ => true | None => false end
  end.

(** [++disk->reads] *)
Definition count_read (d : Disk) : Disk :=
  {| fd := fd d; blocks := blocks d; reads := reads d + 1;
     writes := writes d; image := image d |}.

(** [++disk->writes], then [lseek] and [write] *)
Definition store_block (d : Disk) (blk : Z) (data : block) : Disk :=
  {| fd := fd d; blocks := blocks d; reads := reads d;
     writes := writes d + 1; image := <[Z.to_nat blk := data]> (image d) |}.

(** [disk_read(disk, blk, data)]: the value returned, the disk and the
    contents of the buffer afterwards.  [data] is [None] for a [NULL]
    pointer, else the contents of the buffer it points to, which are
    [None] as long as nothing was stored there.  A failed check leaves
    the buffer as it was; so does a read behind the end of the image
    file, which [disk.c] only logs. *)
Definition disk_read (disk : option Disk) (blk : Z) (data : option (option block))
  : Z * option Disk * option block :=
  match disk with
  | Some d =>
      if disk_sanity_check disk blk data then
        (BLOCK_SIZE, Some (count_read d),
         match image d !! Z.to_nat blk with
         | Some b => Some b
         | None => default None data
         end)
      else (DISK_FAILURE, disk, default None data)
  | None => (DISK_FAILURE, disk, default None data)
  end.

(** [disk_write(disk, blk, data)]; [data] is [None] for a [NULL]
    pointer, else the block that the buffer holds. *)
Definition disk_write (disk : option Disk) (blk : Z) (data : option block)
  : Z * option Disk :=
  match disk, data with
  | Some d, Some b =>
      if disk_sanity_check disk blk data then (BLOCK_SIZE, Some (store_block d blk b))
      else (DISK_FAILURE, disk)
  | _, _ => (DISK_FAILURE, disk)
  end.

(** ** The file system, [fs.c] *)

(** One entry of the array behind [fs->free_blocks]; [None] is an entry
    that [malloc] handed out and nobody wrote. *)
Abbreviation bitmap := (list (option bool)) (only parsing).

Record FileSystem := mkFileSystem {
  disk : option Disk;
  free_blocks : option bitmap;
  meta_data : SuperBlock
}.

Definition set_disk (fs : FileSystem) (d : option Disk) : FileSystem :=
  {| disk := d; free_blocks := free_blocks fs; meta_data := meta_data fs |}.
Definition set_free_blocks (fs : FileSystem) (bm : option bitmap) : FileSystem :=
  {| disk := disk fs; free_blocks := bm; meta_data := meta_data fs |}.
Definition set_meta_data (fs : FileSystem) (sb : SuperBlock) : FileSystem :=
  {| disk := disk fs; free_blocks := free_blocks fs; meta_data := sb |}.

Definition set_size (node : Inode) (v : Z) : Inode :=
  {| valid := valid node; size := v; direct := direct node; indirect := indirect node |}.
Definition set_direct (node : Inode) (i : Z) (v : Z) : Inode :=
  {| valid := valid node; size := size node;
     direct := <[Z.to_nat i := v]> (direct node); indirect := indirect node |}.
Definition set_indirect (node : Inode) (v : Z) : Inode :=
  {| valid := valid node; size := size node; direct := direct node; indirect := v |}.

(** [fs->free_blocks[i]] read and written; outside the array, or through
    a [NULL] pointer, the access is undefined. *)
Definition bitmap_get (bm : option bitmap) (i : Z) : outcome bool :=
  match bm with
  | Some l => match l !! Z.to_nat i with
              | Some (Some v) => Ret v
              | _ => Undef
              end
  | None => Undef
  end.

Definition bitmap_set (bm : option bitmap) (i : Z) (v : bool) : outcome (option bitmap) :=
  match bm with
  | Some l => if (Z.to_nat i <? length l)%nat
              then Ret (Some (<[Z.to_nat i := Some v]> l))
              else Undef
  | None => Undef
  end.

(** *** Inode table service *)

Definition fs_load_inode (fs : FileSystem) (inode_number : Z) (node : option Inode)
  : outcome (bool * option Inode * FileSystem) :=
  let inode_block_number := size_t (1 + inode_number / INODES_PER_BLOCK) in
  let '(r, d, blk) := disk_read (disk fs) inode_block_number (Some None) in
  let fs := set_disk fs d in
  if r =? 0 then Ret (false, node, fs)
  else
    do b <- initialised blk;
    let inode_number := inode_number mod INODES_PER_BLOCK in
    let node := block_inode b inode_number in
    Ret (negb (valid node =? 0), Some node, fs).

Definition fs_save_inode (fs : FileSystem) (inode_number : Z) (node : Inode)
  : outcome (bool * FileSystem) :=
  let inode_block_number := size_t (1 + inode_number / INODES_PER_BLOCK) in
  let '(r, d, blk) := disk_read (disk fs) inode_block_number (Some None) in
  let fs := set_disk fs d in
  if r =? 0 then Ret (false, fs)
  else
    do b <- initialised blk;
    let inode_number := inode_number mod INODES_PER_BLOCK in
    let b := set_block_inode b inode_number node in
    let '(w, d) := disk_write (disk fs) inode_block_number (Some b) in
    let fs := set_disk fs d in
    if w =? 0 then Ret (false, fs) else Ret (true, fs).

(** *** Free-block bitmap *)

(** [for (...; n times; ++i) free_blocks[i] = v] *)
Fixpoint mark_range (n : nat) (i : Z) (v : bool) (bm : option bitmap)
  : outcome (option bitmap) :=
  match n with
  | O => Ret bm
  | S n => do bm <- bitmap_set bm i v; mark_range n (i + 1) v bm
  end.

(** [for (k = ..; k < limit && ptr[k]; ++k) free_blocks[ptr[k]] = false],
    the loop over [pi->direct] and over [indirect_block.pointers]. *)
Fixpoint mark_pointers (n : nat) (k : Z) (ptr : Z -> Z) (limit : Z)
    (bm : option bitmap) : outcome (option bitmap) :=
  match n with
  | O => Ret bm
  | S n =>
      if (k <? limit) && negb (ptr k =? 0) then
        do bm <- bitmap_set bm (ptr k) false;
        mark_pointers n (k + 1) ptr limit bm
      else Ret bm
  end.

(** The body of the loop over the slots of one inode block. *)
Definition mark_inode (pi : Inode) (fs : FileSystem) : outcome FileSystem :=
  if negb (valid pi =? 0) then
    do bm <- mark_pointers (Z.to_nat POINTERS_PER_INODE) 0 (direct_at pi)
               POINTERS_PER_INODE (free_blocks fs);
    let fs := set_free_blocks fs bm in
    if negb (indirect pi =? 0) then
      do bm <- bitmap_set (free_blocks fs) (indirect pi) false;
      let fs := set_free_blocks fs bm in
      let '(r, d, blk) := disk_read (disk fs) (indirect pi) (Some None) in
      let fs := set_disk fs d in
      if r =? DISK_FAILURE then Exit
      else
        do indirect_block <- initialised blk;
        do bm <- mark_pointers (Z.to_nat POINTERS_PER_BLOCK) 0 (get_word indirect_block)
                   POINTERS_PER_BLOCK (free_blocks fs);
        Ret (set_free_blocks fs bm)
    else Ret fs
  else Ret fs.

Fixpoint mark_slots (n : nat) (j : Z) (b : block) (fs : FileSystem)
  : outcome FileSystem :=
  match n with
  | O => Ret fs
  | S n => do fs <- mark_inode (block_inode b j) fs; mark_slots n (j + 1) b fs
  end.

Fixpoint mark_inode_blocks (n : nat) (i : Z) (blk : option block) (fs : FileSystem)
  : outcome FileSystem :=
  match n with
  | O => Ret fs
  | S n =>
      let '(r, d, blk) := disk_read (disk fs) (i + 1) (Some blk) in
      let fs := set_disk fs d in
      if r =? DISK_FAILURE then Exit
      else
        do b <- initialised blk;
        do fs <- mark_slots (Z.to_nat INODES_PER_BLOCK) 0 b fs;
        mark_inode_blocks n (i + 1) blk fs
  end.

Definition fs_initialize_free_block_bitmap (fs : FileSystem) : outcome FileSystem :=
  do d <- initialised (disk fs);
  let sb := meta_data fs in
  (* malloc(fs->disk->blocks * sizeof(bool)) *)
  let bm := Some (replicate (Z.to_nat (blocks d)) None) in
  (* super block and inode blocks are not free *)
  do bm <- mark_range (Z.to_nat (inode_blocks sb + 1)) 0 false bm;
  (* remain blocks are free *)
  do bm <- mark_range (Z.to_nat (sb_blocks sb - (inode_blocks sb + 1)))
             (inode_blocks sb + 1) true bm;
  mark_inode_blocks (Z.to_nat (inode_blocks sb)) 0 None (set_free_blocks fs bm).

(** [while (i < fs->disk->blocks && !fs->free_blocks[i]) ++i], giving the
    final [i]. *)
Fixpoint scan_free (n : nat) (i : Z) (nblocks : Z) (bm : option bitmap) : outcome Z :=
  match n with
  | O => Ret i
  | S n =>
      if i <? nblocks then
        do v <- bitmap_get bm i;
        if negb v then scan_free n (i + 1) nblocks bm else Ret i
      else Ret i
  end.

Definition fs_allocate_free_block (fs : FileSystem) : outcome (Z * FileSystem) :=
  do d <- initialised (disk fs);
  let i := u32 (1 + inode_blocks (meta_data fs)) in
  do i <- scan_free (Z.to_nat (blocks d - i)) i (blocks d) (free_blocks fs);
  if i <? blocks d then
    do bm <- bitmap_set (free_blocks fs) i false;
    Ret (i, set_free_blocks fs bm)
  else Ret (-1, fs).

Definition fs_release_free_block (fs : FileSystem) (block_number : Z)
  : outcome FileSystem :=
  do v <- bitmap_get (free_blocks fs) block_number;
  if negb (negb v) then Abort      (* assert(!fs->free_blocks[block_number]) *)
  else
    do bm <- bitmap_set (free_blocks fs) block_number true;
    Ret (set_free_blocks fs bm).

(** *** Format, mount, unmount *)

(** [for (i = ..; i < inodes_size; ++i) if (disk_write(disk, i + 1, data)
    == DISK_FAILURE) return false;] gives [false] for the early return. *)
Fixpoint clear_inode_blocks (n : nat) (i : Z) (data : block) (d : option Disk)
  : bool * option Disk :=
  match n with
  | O => (true, d)
  | S n =>
      let '(w, d) := disk_write d (size_t (i + 1)) (Some data) in
      if w =? DISK_FAILURE then (false, d)
      else clear_inode_blocks n (i + 1) data d
  end.

(** [fs_format(fs, disk)]: the value returned and the disk afterwards. *)
Definition fs_format (fs : FileSystem) (d : option Disk) : outcome (bool * option Disk) :=
  match disk fs, d with
  | None, Some d0 =>
      let inodes_size := size_t (blocks d0 + 9) / 10 in
      let '(r, d, _) := disk_read d 0 (Some None) in
      if r =? DISK_FAILURE then Ret (false, d)
      else
        (* clear inode blocks *)
        let data := zero_block in
        let '(cleared, d) := clear_inode_blocks (Z.to_nat inodes_size) 0 data d in
        if negb cleared then Ret (false, d)
        else
          (* Write SuperBlock *)
          let data := set_word data 0 MAGIC_NUMBER in
          let data := set_word data 1 (blocks d0) in
          let data := set_word data 2 inodes_size in
          let data := set_word data 3 (size_t (inodes_size * INODES_PER_BLOCK)) in
          let '(w, d) := disk_write d 0 (Some data) in
          if w =? DISK_FAILURE then Exit
          else Ret (true, d)
  | _, _ => Ret (false, d)
  end.

(** [fs_mount(fs, disk)]: the disk is the one [fs] points to from the
    first statement on, so it is kept inside the [FileSystem]. *)
Definition fs_mount (fs : FileSystem) (d : option Disk) : outcome (bool * FileSystem) :=
  match d, disk fs with
  | Some _, None =>
      let fs := set_disk fs d in
      let '(r, d, blk) := disk_read (disk fs) 0 (Some None) in
      let fs := set_disk fs d in
      if r =? DISK_FAILURE then Ret (false, fs)
      else
        do b <- initialised blk;
        let fs := set_meta_data fs (block_super b) in
        let sb := meta_data fs in
        if negb (magic_number sb =? MAGIC_NUMBER) then Ret (false, fs)
        else if negb (u32 (inode_blocks sb * INODES_PER_BLOCK) =? inodes sb)
        then Ret (false, fs)
        else if negb (inode_blocks sb =? u32 (sb_blocks sb + 9) / 10)
        then Ret (false, fs)
        else
          do fs <- fs_initialize_free_block_bitmap fs;
          Ret (true, fs)
  | _, _ => Ret (false, fs)
  end.

Definition fs_unmount (fs : FileSystem) : FileSystem :=
  set_free_blocks (set_disk fs None) None.

(** *** Create, remove, stat *)

(** The loop over the slots of inode block [i + 1]; [None] when every
    slot is taken, otherwise the value that [fs_create] returns. *)
Fixpoint create_in_block (n : nat) (j : Z) (i : Z) (b : block) (fs : FileSystem)
  : option Z * FileSystem :=
  match n with
  | O => (None, fs)
  | S n =>
      if valid (block_inode b j) =? 0 then
        let b := set_word b (INODE_WORDS * j) 1 in
        let '(w, d) := disk_write (disk fs) (i + 1) (Some b) in
        let fs := set_disk fs d in
        if w =? DISK_FAILURE then (Some (-1), fs)
        else (Some (i * INODES_PER_BLOCK + j), fs)
      else create_in_block n (j + 1) i b fs
  end.

Fixpoint create_blocks (n : nat) (i : Z) (blk : option block) (fs : FileSystem)
  : outcome (Z * FileSystem) :=
  match n with
  | O => Ret (-1, fs)
  | S n =>
      let '(r, d, blk) := disk_read (disk fs) (i + 1) (Some blk) in
      let fs := set_disk fs d in
      if r =? DISK_FAILURE then Ret (-1, fs)
      else
        do b <- initialised blk;
        match create_in_block (Z.to_nat INODES_PER_BLOCK) 0 i b fs with
        | (Some r, fs) => Ret (r, fs)
        | (None, fs) => create_blocks n (i + 1) blk fs
        end
  end.

Definition fs_create (fs : FileSystem) : outcome (Z * FileSystem) :=
  create_blocks (Z.to_nat (inode_blocks (meta_data fs))) 0 None fs.

(** [for (i = ..; i < limit && ptr[i]; ++i) fs_release_free_block(fs,
    ptr[i])], the loop over [inode.direct] and over [block.pointers]. *)
Fixpoint release_pointers (n : nat) (i : Z) (ptr : Z -> Z) (limit : Z)
    (fs : FileSystem) : outcome FileSystem :=
  match n with
  | O => Ret fs
  | S n =>
      if (i <? limit) && negb (ptr i =? 0) then
        do fs <- fs_release_free_block fs (ptr i);
        release_pointers n (i + 1) ptr limit fs
      else Ret fs
  end.

Definition fs_remove (fs : FileSystem) (inode_number : Z) : outcome (bool * FileSystem) :=
  do '(ok, node, fs) <- fs_load_inode fs inode_number None;
  if negb ok then Ret (false, fs)
  else
    do inode <- initialised node;
    if valid inode =? 0 then Ret (false, fs)
    else
      (* release direct blocks *)
      do fs <- release_pointers (Z.to_nat POINTERS_PER_INODE) 0 (direct_at inode)
                 POINTERS_PER_INODE fs;
      (* release indirect blocks *)
      do fs <-
        (if negb (indirect inode =? 0) then
           let '(_, d, blk) := disk_read (disk fs) (indirect inode) (Some None) in
           let fs := set_disk fs d in
           do b <- initialised blk;
           do fs <- release_pointers (Z.to_nat POINTERS_PER_BLOCK) 0 (get_word b)
                      POINTERS_PER_BLOCK fs;
           fs_release_free_block fs (indirect inode)
         else Ret fs);
      (* mark inode as free and save *)
      let inode := zero_inode in
      do '(saved, fs) <- fs_save_inode fs inode_number inode;
      if negb saved then Ret (false, fs) else Ret (true, fs).

Definition fs_stat (fs : FileSystem) (inode_number : Z) : outcome (Z * FileSystem) :=
  do '(ok, node, fs) <- fs_load_inode fs inode_number None;
  if ok then do inode <- initialised node; Ret (size inode, fs)
  else Ret (-1, fs).

(** *** Read *)

(** [memcpy(dst, block.data + off, sz)]: the bytes copied; reading
    behind the end of the block is undefined. *)
Definition copy_from_block (b : block) (off sz : Z) : outcome (list byte) :=
  if off + sz <=? BLOCK_SIZE
  then Ret (take (Z.to_nat sz) (drop (Z.to_nat off) b))
  else Undef.

(** What the two loops of [fs_read] and [fs_write] hand on: the block
    index [i], the offset inside the block, the byte count, the bytes
    placed in the caller's buffer so far and the local [block]. *)
Abbreviation cursor := (Z * Z * Z * list byte * option block)%type (only parsing).

(** The loop over the direct pointers; [Some r] in front of the cursor
    is [return r] from inside the loop. *)
Fixpoint read_direct (n : nat) (inode : Inode) (length : Z)
    (i offset bytes_read : Z) (data : list byte) (blk : option block)
    (fs : FileSystem) : outcome (option Z * cursor * FileSystem) :=
  match n with
  | O => Ret (None, (i, offset, bytes_read, data, blk), fs)
  | S n =>
      if (i <? POINTERS_PER_INODE) && negb (direct_at inode i =? 0)
         && (bytes_read <? length) then
        let '(r, d, blk) := disk_read (disk fs) (direct_at inode i) (Some blk) in
        let fs := set_disk fs d in
        if r =? 0 then Ret (Some (-1), (i, offset, bytes_read, data, blk), fs)
        else
          do b <- initialised blk;
          let sz := Utils.min (BLOCK_SIZE - offset) (length - bytes_read) in
          do bytes <- copy_from_block b (offset mod BLOCK_SIZE) sz;
          read_direct n inode length (i + 1) 0 (bytes_read + sz) (data ++ bytes) blk fs
      else Ret (None, (i, offset, bytes_read, data, blk), fs)
  end.

(** The loop over the pointers of the indirect block. *)
Fixpoint read_indirect (n : nat) (indirect_block : option block) (length : Z)
    (i offset bytes_read : Z) (data : list byte) (blk : option block)
    (fs : FileSystem) : outcome (option Z * cursor * FileSystem) :=
  match n with
  | O => Ret (None, (i, offset, bytes_read, data, blk), fs)
  | S n =>
      if i <? POINTERS_PER_BLOCK then
        do pointers <- initialised indirect_block;
        if negb (get_word pointers i =? 0) && (bytes_read <? length) then
          let '(r, d, blk) := disk_read (disk fs) (get_word pointers i) (Some blk) in
          let fs := set_disk fs d in
          if r =? 0 then Ret (Some (-1), (i, offset, bytes_read, data, blk), fs)
          else
            do b <- initialised blk;
            let sz := Utils.min BLOCK_SIZE (length - bytes_read) in
            do bytes <- copy_from_block b offset sz;
            read_indirect n indirect_block length (i + 1) 0 (bytes_read + sz)
              (data ++ bytes) blk fs
        else Ret (None, (i, offset, bytes_read, data, blk), fs)
      else Ret (None, (i, offset, bytes_read, data, blk), fs)
  end.

(** [fs_read(fs, inode_number, data, length, offset)]: the value
    returned and the bytes that were stored at the front of [data]. *)
Definition fs_read (fs : FileSystem) (inode_number : Z) (length offset : Z)
  : outcome (Z * list byte * FileSystem) :=
  do '(ok, node, fs) <- fs_load_inode fs inode_number None;
  if ok then
    do inode <- initialised node;
    (* set length *)
    let length := Utils.min length (size_t (size inode - offset)) in
    let i := offset / BLOCK_SIZE in
    let offset := offset mod BLOCK_SIZE in
    do '(early, (i, offset, bytes_read, data, blk), fs) <-
      read_direct (Z.to_nat (POINTERS_PER_INODE - i)) inode length
        i offset 0 [] None fs;
    match early with
    | Some r => Ret (r, data, fs)
    | None =>
        do '(early, (_, _, bytes_read, data, _), fs) <-
          (if (bytes_read <? length) && negb (indirect inode =? 0) then
             let '(r, d, indirect_block) := disk_read (disk fs) (indirect inode) (Some None) in
             let fs := set_disk fs d in
             if r =? 0 then Ret (Some (-1), (i, offset, bytes_read, data, blk), fs)
             else
               let i := size_t (i - POINTERS_PER_INODE) in
               read_indirect (Z.to_nat (POINTERS_PER_BLOCK - i)) indirect_block length
                 i offset bytes_read data blk fs
           else Ret (None, (i, offset, bytes_read, data, blk), fs));
        match early with
        | Some r => Ret (r, data, fs)
        | None =>
            if bytes_read =? length then Ret (bytes_read, data, fs)
            else Abort   (* assert(bytes_read == length) *)
        end
    end
  else Ret (-1, [], fs).

(** *** Growth on write *)

(** [node->size] is a [uint32_t] and [BLOCK_SIZE] an [int] constant, so
    [UPPER_ROUND(node->size, BLOCK_SIZE)] is computed on 32 bits, while
    [new_size] is a [size_t]. *)

(** [while (idx < POINTERS_PER_INODE && dif && (free_block_idx =
    fs_allocate_free_block(fs)) != -1) { node->direct[idx++] =
    free_block_idx; --dif; }] *)
Fixpoint expand_direct (n : nat) (idx dif : Z) (node : Inode) (fs : FileSystem)
  : outcome (Z * Z * Inode * FileSystem) :=
  match n with
  | O => Ret (idx, dif, node, fs)
  | S n =>
      if (idx <? POINTERS_PER_INODE) && negb (dif =? 0) then
        do '(free_block_idx, fs) <- fs_allocate_free_block fs;
        if negb (free_block_idx =? -1) then
          expand_direct n (idx + 1) (dif - 1) (set_direct node idx (u32 free_block_idx)) fs
        else Ret (idx, dif, node, fs)
      else Ret (idx, dif, node, fs)
  end.

(** The same loop over [indirect_block.pointers]. *)
Fixpoint expand_indirect (n : nat) (idx dif : Z) (indirect_block : option block)
    (fs : FileSystem) : outcome (Z * Z * option block * FileSystem) :=
  match n with
  | O => Ret (idx, dif, indirect_block, fs)
  | S n =>
      if (idx <? POINTERS_PER_BLOCK) && negb (dif =? 0) then
        do '(free_block_idx, fs) <- fs_allocate_free_block fs;
        if negb (free_block_idx =? -1) then
          do pointers <- initialised indirect_block;
          expand_indirect n (idx + 1) (dif - 1)
            (Some (set_word pointers idx free_block_idx)) fs
        else Ret (idx, dif, indirect_block, fs)
      else Ret (idx, dif, indirect_block, fs)
  end.

Definition fs_expand_file (fs : FileSystem) (node : Inode) (new_size : Z)
  : outcome (Inode * FileSystem) :=
  let old_blocks := Utils.UPPER_ROUND u32 (size node) BLOCK_SIZE in
  let new_blocks := Utils.UPPER_ROUND size_t new_size BLOCK_SIZE in
  if old_blocks <? new_blocks then
    let dif := new_blocks - old_blocks in
    let idx := Utils.UPPER_ROUND u32 (size node) BLOCK_SIZE in
    do '(idx, dif, node, fs) <-
      expand_direct (Z.to_nat (POINTERS_PER_INODE - idx)) idx dif node fs;
    do '(dif, node, fs) <-
      (if idx >=? POINTERS_PER_INODE then
         let idx := idx - POINTERS_PER_INODE in
         let pre_indirect := negb (indirect node =? 0) in
         do '(node, fs) <-
           (if indirect node =? 0 then
              do '(free_block_idx, fs) <- fs_allocate_free_block fs;
              if negb (free_block_idx =? -1)
              then Ret (set_indirect node (u32 free_block_idx), fs)
              else Ret (node, fs)
            else Ret (node, fs));
         if negb (indirect node =? 0) then
           let '(r, d, indirect_block) := disk_read (disk fs) (indirect node) (Some None) in
           let fs := set_disk fs d in
           if r =? 0 then Exit
           else
             let indirect_block :=
               if negb pre_indirect then Some zero_block else indirect_block in
             do '(idx, dif, indirect_block, fs) <-
               expand_indirect (Z.to_nat (POINTERS_PER_BLOCK - idx)) idx dif
                 indirect_block fs;
             if (idx =? 0) && negb pre_indirect then
               do fs <- fs_release_free_block fs (indirect node);
               Ret (dif, set_indirect node 0, fs)
             else
               do data <- initialised indirect_block;
               let '(w, d) := disk_write (disk fs) (indirect node) (Some data) in
               let fs := set_disk fs d in
               if w =? 0 then Exit
               else Ret (dif, node, fs)
         else Ret (dif, node, fs)
       else Ret (dif, node, fs));
    Ret (set_size node
           (u32 (if negb (dif =? 0) then (new_blocks - dif) * BLOCK_SIZE else new_size)),
         fs)
  else Ret (set_size node (u32 (Utils.max (size node) new_size)), fs).

(** *** Write *)

(** [memcpy(block.data + off, src, sz)] with [src] the [sz] bytes of the
    caller's buffer from [from] on; writing behind the end of the block
    and reading behind the end of the buffer are undefined. *)
Definition copy_to_block (b : block) (off : Z) (data : list byte) (from sz : Z)
  : outcome block :=
  if (off + sz <=? BLOCK_SIZE) && (from + sz <=? Z.of_nat (length data)) then
    Ret (take (Z.to_nat off) b
         ++ take (Z.to_nat sz) (drop (Z.to_nat from) data)
         ++ drop (Z.to_nat (off + sz)) b)
  else Undef.

(** What the two loops of [fs_write] hand on: block index, offset
    inside the block, byte count and the local [block]. *)
Abbreviation wcursor := (Z * Z * Z * option block)%type (only parsing).

Fixpoint write_direct (n : nat) (inode : Inode) (data : list byte) (length : Z)
    (i offset bytes_write : Z) (blk : option block) (fs : FileSystem)
  : outcome (option Z * wcursor * FileSystem) :=
  match n with
  | O => Ret (None, (i, offset, bytes_write, blk), fs)
  | S n =>
      if (i <? POINTERS_PER_INODE) && negb (direct_at inode i =? 0)
         && (bytes_write <? length) then
        let '(r, d, blk) := disk_read (disk fs) (direct_at inode i) (Some blk) in
        let fs := set_disk fs d in
        if r =? 0 then Ret (Some (-1), (i, offset, bytes_write, blk), fs)
        else
          do b <- initialised blk;
          let sz := Utils.min (BLOCK_SIZE - offset) (length - bytes_write) in
          do b <- copy_to_block b offset data bytes_write sz;
          (* write back; the result is not looked at *)
          let '(_, d) := disk_write (disk fs) (direct_at inode i) (Some b) in
          let fs := set_disk fs d in
          write_direct n inode data length (i + 1) 0 (bytes_write + sz) (Some b) fs
      else Ret (None, (i, offset, bytes_write, blk), fs)
  end.

(** The indirect loop of [fs_write] leaves by [exit(1)], not by
    [return]. *)
Fixpoint write_indirect (n : nat) (indirect_block : option block) (data : list byte)
    (length : Z) (i offset bytes_write : Z) (blk : option block) (fs : FileSystem)
  : outcome (wcursor * FileSystem) :=
  match n with
  | O => Ret ((i, offset, bytes_write, blk), fs)
  | S n =>
      if i <? POINTERS_PER_BLOCK then
        do pointers <- initialised indirect_block;
        if negb (get_word pointers i =? 0) && (bytes_write <? length) then
          let '(r, d, blk) := disk_read (disk fs) (get_word pointers i) (Some blk) in
          let fs := set_disk fs d in
          if r =? 0 then Exit
          else
            do b <- initialised blk;
            let sz := Utils.min (BLOCK_SIZE - offset) (length - bytes_write) in
            do b <- copy_to_block b offset data bytes_write sz;
            let '(w, d) := disk_write (disk fs) (get_word pointers i) (Some b) in
            let fs := set_disk fs d in
            if w =? 0 then Exit
            else
              write_indirect n indirect_block data length (i + 1) 0
                (bytes_write + sz) (Some b) fs
        else Ret ((i, offset, bytes_write, blk), fs)
      else Ret ((i, offset, bytes_write, blk), fs)
  end.

(** [fs_write(fs, inode_number, data, length, offset)] *)
Definition fs_write (fs : FileSystem) (inode_number : Z) (data : list byte)
    (length offset : Z) : outcome (Z * FileSystem) :=
  do '(ok, node, fs) <- fs_load_inode fs inode_number None;
  if ok then
    do inode <- initialised node;
    do '(inode, fs) <- fs_expand_file fs inode (size_t (offset + length));
    let i := offset / BLOCK_SIZE in
    let offset := offset mod BLOCK_SIZE in
    do '(early, (i, offset, bytes_write, blk), fs) <-
      write_direct (Z.to_nat (POINTERS_PER_INODE - i)) inode data length
        i offset 0 None fs;
    match early with
    | Some r => Ret (r, fs)
    | None =>
        do '((_, _, bytes_write, _), fs) <-
          (if (bytes_write <? length) && negb (indirect inode =? 0) then
             let '(r, d, indirect_block) := disk_read (disk fs) (indirect inode) (Some None) in
             let fs := set_disk fs d in
             if r =? 0 then Exit
             else
               let i := size_t (i - POINTERS_PER_INODE) in
               write_indirect (Z.to_nat (POINTERS_PER_BLOCK - i)) indirect_block data
                 length i offset bytes_write blk fs
           else Ret ((i, offset, bytes_write, blk), fs));
        (* write back inode *)
        do '(_, fs) <- fs_save_inode fs inode_number inode;
        Ret (bytes_write, fs)
    end
  else Ret (-1, fs).

(** * Well-formed states *)

(** A block of the image has [BLOCK_SIZE] bytes. *)
Definition is_block (b : block) : Prop := length b = Z.to_nat BLOCK_SIZE.

(** The fields of an in-memory [Inode] are 32-bit values and [direct]
    has [POINTERS_PER_INODE] entries. *)
Definition inode_ok (node : Inode) : Prop :=
  0 <= valid node < 2 ^ 32 /\ 0 <= size node < 2 ^ 32 /\
  length (direct node) = Z.to_nat POINTERS_PER_INODE /\
  Forall (fun p => 0 <= p < 2 ^ 32) (direct node) /\
  0 <= indirect node < 2 ^ 32.

(** An open disk whose image file has [blocks] blocks, as [disk_open]
    leaves it; the block count fits the 32-bit field of the super
    block. *)
Definition disk_ok (d : Disk) : Prop :=
  0 <= fd d /\ 0 <= blocks d < 2 ^ 32 /\
  length (image d) = Z.to_nat (blocks d) /\ Forall is_block (image d).

(** A mounted file system: the disk is attached, the bitmap has one
    written entry per block of the disk, and the inode table lies
    inside the disk. *)
Record mounted (fs : FileSystem) (d : Disk) (bm : bitmap) : Prop := {
  m_disk : disk fs = Some d;
  m_bitmap : free_blocks fs = Some bm;
  m_disk_ok : disk_ok d;
  m_bitmap_length : length bm = Z.to_nat (blocks d);
  m_bitmap_written : Forall is_Some bm;
  m_inode_blocks : 0 <= inode_blocks (meta_data fs) < blocks d
}.

(** [free_blocks[p]] as the bitmap [bm] has it. *)
Definition bit (bm : bitmap) (p : Z) : option (option bool) := bm !! Z.to_nat p.

(** * Example states *)

(** A file system that was never mounted. *)
Definition fresh_fs : FileSystem :=
  {| disk := None; free_blocks := None; meta_data := mkSuperBlock 0 0 0 0 |}.

(** An open disk of [n] blocks full of [0xff] bytes. *)
Definition blank_disk (n : nat) : Disk :=
  {| fd := 3; blocks := Z.of_nat n; reads := 0; writes := 0;
     image := replicate n (replicate (Z.to_nat BLOCK_SIZE) Byte.xff) |}.

Definition returned {A} (d : A) (o : outcome A) : A :=
  match o with Ret a => a | _ => d end.

(** The tiny image of the spec: five blocks, so one inode block and
    three data blocks; formatted, then mounted. *)
Definition tiny_disk_formatted : Disk :=
  Eval vm_compute in
    default (blank_disk 5)
      (snd (returned (false, None) (fs_format fresh_fs (Some (blank_disk 5))))).

Definition tiny_fs : FileSystem :=
  Eval vm_compute in
    snd (returned (false, fresh_fs) (fs_mount fresh_fs (Some tiny_disk_formatted))).

Definition tiny_mounted_disk : Disk :=
  Eval vm_compute in default (blank_disk 5) (disk tiny_fs).

Definition tiny_bitmap : bitmap :=
  [Some false; Some false; Some true; Some true; Some true].

(** [tiny_fs] after [fs_create]: inode 0 is an empty file. *)
Definition tiny_created_fs : FileSystem :=
  Eval vm_compute in snd (returned (0, tiny_fs) (fs_create tiny_fs)).

Definition tiny_created_disk : Disk :=
  Eval vm_compute in default (blank_disk 5) (disk tiny_created_fs).

(** * Reachability of blocks *)

(** The valid inode [node] refers to block [b]: by a direct pointer, as
    its indirect index block, or by an entry of that index block. *)
Definition inode_reaches (img : list block) (node : Inode) (b : Z) : Prop :=
  (exists k, 0 <= k < POINTERS_PER_INODE /\ direct_at node k = b) \/
  indirect node = b \/
  (indirect node <> 0 /\
   exists pointers k, img !! Z.to_nat (indirect node) = Some pointers /\
     0 <= k < POINTERS_PER_BLOCK /\ get_word pointers k = b).

(** Some valid inode of the inode table refers to block [b]. *)
Definition reaches (img : list block) (sb : SuperBlock) (b : Z) : Prop :=
  exists i j blk, 0 <= i < inode_blocks sb /\ 0 <= j < INODES_PER_BLOCK /\
    img !! Z.to_nat (i + 1) = Some blk /\ valid (block_inode blk j) <> 0 /\
    inode_reaches img (block_inode blk j) b.

(** Invariant 3 of the data model: a pointer array is zero-terminated. *)
Definition zero_terminated (ptr : Z -> Z) (limit : Z) : Prop :=
  forall k k', 0 <= k <= k' -> k' < limit -> ptr k = 0 -> ptr k' = 0.

Definition inode_zero_terminated (img : list block) (node : Inode) : Prop :=
  zero_terminated (direct_at node) POINTERS_PER_INODE /\
  (indirect node <> 0 ->
   forall pointers, img !! Z.to_nat (indirect node) = Some pointers ->
     zero_terminated (get_word pointers) POINTERS_PER_BLOCK).

Definition image_zero_terminated (img : list block) (sb : SuperBlock) : Prop :=
  forall i j blk, 0 <= i < inode_blocks sb -> 0 <= j < INODES_PER_BLOCK ->
    img !! Z.to_nat (i + 1) = Some blk -> valid (block_inode blk j) <> 0 ->
    inode_zero_terminated img (block_inode blk j).

(** What the scan of a pointer array from index [k0] on sees: the
    entries in front of the first zero. *)
Definition scanned (ptr : Z -> Z) (k0 limit : Z) (b : Z) : Prop :=
  exists k, k0 <= k < limit /\ ptr k = b /\ forall k', k0 <= k' <= k -> ptr k' <> 0.

Definition inode_scanned (img : list block) (node : Inode) (b : Z) : Prop :=
  valid node <> 0 /\
  (scanned (direct_at node) 0 POINTERS_PER_INODE b \/
   (indirect node <> 0 /\
    (indirect node = b \/
     exists pointers, img !! Z.to_nat (indirect node) = Some pointers /\
       scanned (get_word pointers) 0 POINTERS_PER_BLOCK b))).

(** [bm'] is [bm] with the entries in [P] set to not-free. *)
Definition marks (P : Z -> Prop) (bm bm' : bitmap) : Prop :=
  length bm' = length bm /\
  forall p, 0 <= p ->
    (~ P p /\ bit bm' p = bit bm p) \/ (P p /\ bit bm' p = Some (Some false)).

(** Two states of the same disk: only the counters differ. *)
Definition same_disk (d d' : Disk) : Prop :=
  fd d' = fd d /\ blocks d' = blocks d /\ image d' = image d.

(** Two file-system states with the same bitmap and super block, on
    two states of the same disk. *)
Definition fs_same_disk (fs fs' : FileSystem) : Prop :=
  free_blocks fs' = free_blocks fs /\ meta_data fs' = meta_data fs /\
  exists d d', disk fs = Some d /\ disk fs' = Some d' /\ same_disk d d'.

(** * Format *)

(** [ceil(blocks / 10)], the number of inode blocks of a disk. *)
Definition inode_blocks_of (d : Disk) : Z := (blocks d + 9) / 10.

(** The blocks that [fs_format] writes, in the order it writes them:
    the inode blocks, then the super block. *)
Definition format_writes (d : Disk) : list Z := seqZ 1 (inode_blocks_of d) ++ [0].

(** * Inode slots *)

(** The unused slots of the inode table carry no pointers, as
    [fs_format] and [fs_remove] leave them. *)
Definition free_slots_clear (img : list block) (sb : SuperBlock) : Prop :=
  forall i j b, 0 <= i < inode_blocks sb -> 0 <= j < INODES_PER_BLOCK ->
    img !! Z.to_nat (i + 1) = Some b -> valid (block_inode b j) = 0 ->
    block_inode b j = zero_inode.

(** * Example files *)

(** [format], [mount], [create] and one [write] of [n] bytes [0x41] at
    offset 0 on a blank disk of [nblocks] blocks; the file is inode 0. *)
Definition fs_with_file (nblocks : nat) (n : Z) : FileSystem :=
  returned fresh_fs
    (do '(_, d) <- fs_format fresh_fs (Some (blank_disk nblocks));
     do '(_, fs) <- fs_mount fresh_fs d;
     do '(_, fs) <- fs_create fs;
     do '(_, fs) <- fs_write fs 0 (replicate (Z.to_nat n) Byte.x41) n 0;
     Ret fs).

(** Twenty blocks, a file of seven blocks: five direct ones and two
    behind the indirect block. *)
Definition file7_fs : FileSystem := fs_with_file 20 (7 * BLOCK_SIZE).

(** Five blocks, a file of 100 bytes. *)
Definition small_file_fs : FileSystem := fs_with_file 5 100.

(** Five blocks, an empty file. *)
Definition empty_file_fs : FileSystem := fs_with_file 5 0.

(** Inode 0 of [small_file_fs], as its inode block has it. *)
Definition small_file_inode : Inode :=
  Eval vm_compute in
    block_inode (default [] (image (default (blank_disk 5) (disk small_file_fs)) !! 1%nat)) 0.

(** The disk and the bitmap of [small_file_fs]. *)
Definition small_file_disk : Disk :=
  Eval vm_compute in default (blank_disk 5) (disk small_file_fs).

Definition small_file_bitmap : bitmap :=
  Eval vm_compute in default [] (free_blocks small_file_fs).

(** [small_file_disk] mounted afresh. *)
Definition small_file_remounted : FileSystem :=
  Eval vm_compute in
    snd (returned (false, fresh_fs) (fs_mount fresh_fs (Some small_file_disk))).

(** A formatted five-block image whose inode slot 0, though not valid,
    holds a size of one block and the direct pointer 3. *)
Definition stale_slot_disk : Disk :=
  Eval vm_compute in
    store_block tiny_disk_formatted 1
      (set_word (set_word zero_block 1 BLOCK_SIZE) 2 3).

Definition stale_slot_fs : FileSystem :=
  Eval vm_compute in
    snd (returned (false, fresh_fs) (fs_mount fresh_fs (Some stale_slot_disk))).

Definition stale_slot_mounted_disk : Disk :=
  Eval vm_compute in default (blank_disk 5) (disk stale_slot_fs).

(** Three blocks of bytes: [0x41], then [0x42], then [0x43]. *)
Definition three_blocks : list byte :=
  replicate (Z.to_nat BLOCK_SIZE) Byte.x41 ++ replicate (Z.to_nat BLOCK_SIZE) Byte.x42
  ++ replicate (Z.to_nat BLOCK_SIZE) Byte.x43.

(** A formatted five-block image whose inode 0 is valid and points to
    the blocks 2 and 4, with a zero between the two pointers. *)
Definition gap_disk : Disk :=
  Eval vm_compute in
    store_block tiny_disk_formatted 1
      (set_block_inode zero_block 0
         {| valid := 1; size := 2 * BLOCK_SIZE; direct := [2; 0; 4; 0; 0]; indirect := 0 |}).

Definition gap_fs : FileSystem :=
  Eval vm_compute in
    snd (returned (false, fresh_fs) (fs_mount fresh_fs (Some gap_disk))).

(** * Files and their blocks *)

Definition is_free (bm : bitmap) (p : Z) : Prop := bit bm p = Some (Some true).
Definition is_used (bm : bitmap) (p : Z) : Prop := bit bm p = Some (Some false).

(** No block between [lo] and [hi] is free. *)
Definition no_free (lo hi : Z) (bm : bitmap) : Prop :=
  forall q, lo < q < hi -> is_used bm q.

(** [allocs lo hi bm qs bm']: the blocks [qs] of the region between
    [lo] and [hi], each free when its turn came, were marked not-free
    one after the other, which turned [bm] into [bm']. *)
Inductive allocs (lo hi : Z) : bitmap -> list Z -> bitmap -> Prop :=
| allocs_nil bm : allocs lo hi bm [] bm
| allocs_cons bm q qs bm' :
    lo < q < hi -> is_free bm q ->
    allocs lo hi (<[Z.to_nat q := Some false]> bm) qs bm' ->
    allocs lo hi bm (q :: qs) bm'.

(** The free blocks behind block [lo], in increasing order, and their
    number. *)
Definition free_list (lo : Z) (bm : bitmap) : list Z :=
  filter (fun q => bit bm q = Some (Some true))
         (seqZ (lo + 1) (Z.of_nat (length bm) - (lo + 1))).

Definition free_count (lo : Z) (bm : bitmap) : Z := Z.of_nat (length (free_list lo bm)).

(** [ceil(size / BLOCK_SIZE)] *)
Definition blocks_of (size : Z) : Z := (size + (BLOCK_SIZE - 1)) / BLOCK_SIZE.

(** The inode [node] describes a file whose data blocks are [ps], in
    file order: the first [POINTERS_PER_INODE] of them are the direct
    pointers, the others the entries of the indirect block; unused
    pointers are 0; the blocks lie behind block [lo], differ from each
    other and from the indirect block, and are marked not-free. *)
Record file_ok (lo : Z) (d : Disk) (bm : bitmap) (node : Inode) (ps : list Z) : Prop := {
  f_inode : inode_ok node;
  f_count : Z.of_nat (length ps) <= POINTERS_PER_INODE + POINTERS_PER_BLOCK;
  f_direct : forall k, 0 <= k < POINTERS_PER_INODE ->
               direct_at node k = default 0 (ps !! Z.to_nat k);
  f_indirect :
    if decide (Z.of_nat (length ps) <= POINTERS_PER_INODE) then indirect node = 0
    else lo < indirect node < blocks d /\ is_used bm (indirect node) /\
         (indirect node ∉ ps) /\
         exists pointers, image d !! Z.to_nat (indirect node) = Some pointers /\
           forall j, 0 <= j < POINTERS_PER_BLOCK ->
             get_word pointers j = default 0 (ps !! Z.to_nat (POINTERS_PER_INODE + j));
  f_used : Forall (fun p => lo < p < blocks d /\ is_used bm p) ps;
  f_nodup : NoDup ps
}.

(** * Writing *)

(** The block [b] with the [sz] bytes of [data] from [from] on laid
    over it at [off]. *)
Definition overlay (b : block) (off : Z) (data : list byte) (from sz : Z) : block :=
  take (Z.to_nat off) b ++ take (Z.to_nat sz) (drop (Z.to_nat from) data)
    ++ drop (Z.to_nat (off + sz)) b.

(** One round of the copying loops of [fs_write] on the block [p], as
    the image sees it: block index, offset inside the block, bytes
    written so far. *)
Definition write_block (data : list byte) (len : Z)
    (c : Z * Z * Z * list block) (p : Z) : Z * Z * Z * list block :=
  let '(i, off, bw, img) := c in
  if bw <? len then
    let sz := Z.min (BLOCK_SIZE - off) (len - bw) in
    (i + 1, 0, bw + sz,
     <[Z.to_nat p := overlay (default [] (img !! Z.to_nat p)) off data bw sz]> img)
  else c.

(** The rounds over the blocks [ps] of a file. *)
Definition write_blocks (data : list byte) (len : Z) (ps : list Z)
    (c : Z * Z * Z * list block) : Z * Z * Z * list block :=
  fold_left (write_block data len) ps c.

(** * Reading back *)

(** The blocks [ps] of the image hold the first [len] bytes of [buf],
    block by block. *)
Definition holds_data (img : list block) (ps : list Z) (buf : list byte) (len : Z) : Prop :=
  forall k p, 0 <= k -> ps !! Z.to_nat k = Some p -> k * BLOCK_SIZE < len ->
    exists b, img !! Z.to_nat p = Some b /\
      take (Z.to_nat (Z.min BLOCK_SIZE (len - k * BLOCK_SIZE))) b =
      take (Z.to_nat (Z.min BLOCK_SIZE (len - k * BLOCK_SIZE)))
        (drop (Z.to_nat (k * BLOCK_SIZE)) buf).

(** * Read-only operations *)

(** [fs'] is [fs] up to the read counter of its disk. *)
Definition only_reads (fs fs' : FileSystem) : Prop :=
  free_blocks fs' = free_blocks fs /\ meta_data fs' = meta_data fs /\
  match disk fs, disk fs' with
  | Some d, Some d' => same_disk d d' /\ writes d' = writes d /\ reads d <= reads d'
  | None, None => True
  | _, _ => False
  end.

(** * The scan that builds the bitmap *)

(** Some valid inode of the inode table has block [b] in front of the
    first zero of a pointer array, or as its indirect block: what
    [fs_initialize_free_block_bitmap] gets to see. *)
Definition scan_reaches (img : list block) (sb : SuperBlock) (b : Z) : Prop :=
  exists i j blk, 0 <= i < inode_blocks sb /\ 0 <= j < INODES_PER_BLOCK /\
    img !! Z.to_nat (i + 1) = Some blk /\ inode_scanned img (block_inode blk j) b.

(** * The inode table as a whole *)

(** Inode number [m] as the image has it. *)
Definition inode_at (img : list block) (m : Z) : Inode :=
  block_inode (default [] (img !! Z.to_nat (1 + m / INODES_PER_BLOCK)))
    (m mod INODES_PER_BLOCK).

(** * The bytes of a file *)

(** The blocks [ps] of the image, one after the other. *)
Definition file_bytes (img : list block) (ps : list Z) : list byte :=
  concat ((fun p => default [] (img !! Z.to_nat p)) <$> ps).

(** * Words of a block *)

Ltac consts := unfold INODE_WORDS, INODES_PER_BLOCK, POINTERS_PER_INODE,
  POINTERS_PER_BLOCK, BLOCK_SIZE, DISK_FAILURE in *.

(** [lia] with the induction hypotheses out of the way. *)
Ltac clia :=
  repeat match goal with
         | H : forall x : Z, @?P x |- _ => clear H
         | H : forall x : nat, @?P x |- _ => clear H
         end; lia.

(** [lia] knowing the constants. *)
Ltac zlia := consts; lia.

(** Splits conjunctions, and only them. *)
Ltac splits := repeat match goal with |- _ /\ _ => split end.

Lemma u32_small x : 0 <= x < 2 ^ 32 -> u32 x = x.
Proof. intros. unfold u32. apply Z.mod_small. lia. Qed.

Lemma size_t_small x : 0 <= x < 2 ^ 64 -> size_t x = x.
Proof. intros. unfold size_t. apply Z.mod_small. lia. Qed.

Lemma min_spec a b : Utils.min a b = Z.min a b.
Proof. unfold Utils.min. destruct (Z.ltb_spec a b); lia. Qed.

Lemma max_spec a b : Utils.max a b = Z.max a b.
Proof. unfold Utils.max. destruct (Z.gtb_spec a b); lia. Qed.

Lemma length_le_split4 v : length (le_split 4 v) = 4%nat.
Proof. apply length_le_split. Qed.

Lemma length_set_word b k v :
  0 <= k -> 4 * k + 4 <= Z.of_nat (length b) ->
  length (set_word b k v) = length b.
Proof.
  intros Hk Hb. unfold set_word.
  rewrite !length_app, length_take, length_drop, length_le_split4. lia.
Qed.

Lemma get_set_word_same b k v :
  0 <= k -> 4 * k + 4 <= Z.of_nat (length b) ->
  get_word (set_word b k v) k = u32 v.
Proof.
  intros Hk Hb. unfold get_word, set_word.
  rewrite drop_app_length'; [|rewrite length_take; lia].
  rewrite take_app_length' by (symmetry; apply length_le_split4).
  rewrite le_combine_split. reflexivity.
Qed.

Lemma get_set_word_other b k k' v :
  0 <= k -> 0 <= k' -> k <> k' -> 4 * k + 4 <= Z.of_nat (length b) ->
  get_word (set_word b k v) k' = get_word b k'.
Proof.
  intros Hk Hk' Hne Hb. unfold get_word, set_word. f_equal.
  apply list_eq. intros i.
  rewrite !lookup_take. repeat case_decide; try lia; try reflexivity.
  rewrite !lookup_drop.
  destruct (Z_lt_dec k' k) as [Hlt|Hge].
  - rewrite lookup_app_l by (rewrite length_take; lia).
    rewrite lookup_take. case_decide; [reflexivity|lia].
  - rewrite lookup_app_r by (rewrite length_take; lia).
    rewrite lookup_app_r by (rewrite length_take, length_le_split4; lia).
    rewrite lookup_drop. f_equal.
    rewrite length_take, length_le_split4. lia.
Qed.

Lemma get_word_range b k : 0 <= get_word b k < 2 ^ 32.
Proof.
  unfold get_word.
  pose proof (le_combine_bound (take 4 (drop (Z.to_nat (4 * k)) b))) as H.
  rewrite length_take in H.
  assert (2 ^ (8 * Z.of_nat (4 `min` length (drop (Z.to_nat (4 * k)) b))) <= 2 ^ 32).
  { apply Z.pow_le_mono_r; lia. }
  lia.
Qed.

Lemma le_combine_replicate_zero n : le_combine (replicate n Byte.x00) = 0.
Proof.
  induction n as [|n IH]; [reflexivity|].
  change (replicate (S n) Byte.x00) with (Byte.x00 :: replicate n Byte.x00).
  unfold le_combine; fold le_combine. rewrite IH. reflexivity.
Qed.

Lemma get_word_zero_block k : get_word zero_block k = 0.
Proof.
  unfold get_word, zero_block.
  rewrite drop_replicate, take_replicate. apply le_combine_replicate_zero.
Qed.

Lemma is_block_zero : is_block zero_block.
Proof. apply length_replicate. Qed.

Lemma is_block_set_word b k v :
  is_block b -> 0 <= k < POINTERS_PER_BLOCK -> is_block (set_word b k v).
Proof.
  unfold is_block. intros Hb Hk. rewrite length_set_word; [assumption|lia|].
  rewrite Hb. consts. lia.
Qed.

Lemma get_set_word_eq b k v :
  is_block b -> 0 <= k < POINTERS_PER_BLOCK -> get_word (set_word b k v) k = u32 v.
Proof.
  unfold is_block. intros Hb Hk. apply get_set_word_same; [lia|].
  rewrite Hb. consts. lia.
Qed.

Lemma get_set_word_ne b k k' v :
  is_block b -> 0 <= k < POINTERS_PER_BLOCK -> 0 <= k' -> k <> k' ->
  get_word (set_word b k v) k' = get_word b k'.
Proof.
  unfold is_block. intros Hb Hk Hk' Hne. apply get_set_word_other; [lia|lia|lia|].
  rewrite Hb. consts. lia.
Qed.

Ltac is_block_tac :=
  repeat (apply is_block_set_word; [|consts; lia]);
  first [assumption | apply is_block_zero].

Ltac word_simpl :=
  repeat first
    [ rewrite get_set_word_eq by (first [is_block_tac | consts; lia])
    | rewrite get_set_word_ne by (first [is_block_tac | consts; lia]) ].

(** * Inodes inside a block *)

Lemma is_block_set_block_inode b j node :
  0 <= j < INODES_PER_BLOCK -> is_block b -> is_block (set_block_inode b j node).
Proof.
  intros Hj Hb. unfold set_block_inode.
  change (seqZ 0 POINTERS_PER_INODE) with [0;1;2;3;4]. cbn [foldl].
  is_block_tac.
Qed.

Lemma block_inode_set_same b j node :
  0 <= j < INODES_PER_BLOCK -> is_block b -> inode_ok node ->
  block_inode (set_block_inode b j node) j = node.
Proof.
  intros Hj Hb (Hv & Hs & Hl & Hd & Hi).
  destruct node as [v s d i]. cbn [valid size direct indirect] in *.
  unfold block_inode, set_block_inode.
  change (seqZ 0 POINTERS_PER_INODE) with [0;1;2;3;4]. cbn [foldl fmap list_fmap].
  cbn [valid size direct indirect].
  word_simpl.
  destruct d as [|d0 [|d1 [|d2 [|d3 [|d4 [|]]]]]]; try discriminate Hl.
  repeat match goal with H : Forall _ (_ :: _) |- _ => inversion H; clear H; subst end.
  unfold direct_at. cbn [direct].
  change (Z.to_nat 0) with 0%nat. change (Z.to_nat 1) with 1%nat.
  change (Z.to_nat 2) with 2%nat. change (Z.to_nat 3) with 3%nat.
  change (Z.to_nat 4) with 4%nat. cbn [lookup list_lookup default from_option id].
  rewrite !u32_small by lia. reflexivity.
Qed.

Lemma block_inode_set_other b j j' node :
  0 <= j < INODES_PER_BLOCK -> 0 <= j' < INODES_PER_BLOCK -> j <> j' ->
  is_block b ->
  block_inode (set_block_inode b j node) j' = block_inode b j'.
Proof.
  intros Hj Hj' Hne Hb.
  unfold block_inode, set_block_inode.
  change (seqZ 0 POINTERS_PER_INODE) with [0;1;2;3;4]. cbn [foldl fmap list_fmap].
  word_simpl. reflexivity.
Qed.

Lemma block_inode_set_valid_same b j v :
  0 <= j < INODES_PER_BLOCK -> is_block b ->
  block_inode (set_word b (INODE_WORDS * j) v) j =
  {| valid := u32 v; size := size (block_inode b j);
     direct := direct (block_inode b j); indirect := indirect (block_inode b j) |}.
Proof.
  intros Hj Hb. unfold block_inode.
  change (seqZ 0 POINTERS_PER_INODE) with [0;1;2;3;4]. cbn [foldl fmap list_fmap].
  cbn [valid size direct indirect]. word_simpl. reflexivity.
Qed.

Lemma block_inode_set_valid_other b j j' v :
  0 <= j < INODES_PER_BLOCK -> 0 <= j' < INODES_PER_BLOCK -> j <> j' ->
  is_block b ->
  block_inode (set_word b (INODE_WORDS * j) v) j' = block_inode b j'.
Proof.
  intros Hj Hj' Hne Hb. unfold block_inode.
  change (seqZ 0 POINTERS_PER_INODE) with [0;1;2;3;4]. cbn [foldl fmap list_fmap].
  word_simpl. reflexivity.
Qed.

Lemma block_inode_ok b j : inode_ok (block_inode b j).
Proof.
  unfold inode_ok, block_inode. cbn [valid size direct indirect].
  change (seqZ 0 POINTERS_PER_INODE) with [0;1;2;3;4]. cbn [fmap list_fmap].
  repeat split; try apply get_word_range.
  repeat constructor; apply get_word_range.
Qed.

(** * The allocator *)

Lemma bit_written bm p :
  Forall is_Some bm -> 0 <= p < Z.of_nat (length bm) ->
  exists v, bit bm p = Some (Some v).
Proof.
  intros Hw Hp. unfold bit.
  destruct (lookup_lt_is_Some_2 bm (Z.to_nat p)) as [e He]; [lia|].
  rewrite He. rewrite Forall_lookup in Hw. destruct (Hw _ _ He) as [v ->]. eauto.
Qed.

Lemma bitmap_get_bit bm p v :
  bit bm p = Some (Some v) -> bitmap_get (Some bm) p = Ret v.
Proof. unfold bit, bitmap_get. intros ->. reflexivity. Qed.

Lemma bitmap_set_in bm p v :
  0 <= p < Z.of_nat (length bm) ->
  bitmap_set (Some bm) p v = Ret (Some (<[Z.to_nat p := Some v]> bm)).
Proof.
  intros Hp. unfold bitmap_set.
  destruct (Nat.ltb_spec (Z.to_nat p) (length bm)); [reflexivity|lia].
Qed.

Lemma scan_free_spec bm nblocks :
  Forall is_Some bm -> length bm = Z.to_nat nblocks ->
  forall n i, 0 <= i -> n = Z.to_nat (nblocks - i) ->
  exists r, scan_free n i nblocks (Some bm) = Ret r /\ i <= r /\
    (forall q, i <= q < r -> bit bm q = Some (Some false)) /\
    (r < nblocks -> bit bm r = Some (Some true)) /\
    (r < nblocks \/ r = Z.max i nblocks).
Proof.
  intros Hw Hlen n. induction n as [|n IH]; intros i Hi Hn.
  - exists i. cbn. repeat split; try lia.
  - cbn [scan_free]. destruct (Z.ltb_spec i nblocks) as [Hlt|Hge]; [|lia].
    destruct (bit_written bm i Hw) as [v Hv]; [lia|].
    rewrite (bitmap_get_bit _ _ _ Hv). cbn [obind].
    destruct v; cbn [negb].
    + exists i. repeat split; try lia. intros _. exact Hv.
    + destruct (IH (i + 1)) as (r & Hr & Hle & Hfalse & Htrue & Hend); [lia|lia|].
      exists r. split; [exact Hr|]. split; [lia|]. split; [|split; [exact Htrue|lia]].
      intros q Hq. destruct (Z.eq_dec q i) as [->|Hne]; [exact Hv|]. apply Hfalse. lia.
Qed.

Lemma fs_allocate_free_block_spec fs d bm :
  mounted fs d bm ->
  let start := inode_blocks (meta_data fs) + 1 in
  exists r fs', fs_allocate_free_block fs = Ret (r, fs') /\ r <> 0 /\
    ((r = -1 /\ fs' = fs /\
      forall q, start <= q < blocks d -> bit bm q = Some (Some false))
     \/
     (start <= r < blocks d /\ bit bm r = Some (Some true) /\
      (forall q, start <= q < r -> bit bm q = Some (Some false)) /\
      fs' = set_free_blocks fs (Some (<[Z.to_nat r := Some false]> bm)))).
Proof.
  intros [Hd Hb (Hfd & Hblocks & Hlen & Himg) Hbl Hw Hib] start.
  unfold fs_allocate_free_block. rewrite Hd. cbn [initialised obind].
  rewrite u32_small by lia.
  replace (1 + inode_blocks (meta_data fs)) with start by (unfold start; lia).
  destruct (scan_free_spec bm (blocks d) Hw Hbl (Z.to_nat (blocks d - start)) start)
    as (r & Hr & Hle & Hfalse & Htrue & Hend); [unfold start; lia|reflexivity|].
  rewrite Hb, Hr. cbn [obind].
  destruct (Z.ltb_spec r (blocks d)) as [Hlt|Hge].
  - rewrite bitmap_set_in by lia. cbn [obind].
    exists r, (set_free_blocks fs (Some (<[Z.to_nat r := Some false]> bm))).
    split; [reflexivity|]. split; [unfold start in *; lia|].
    right. repeat split; try lia; auto.
  - exists (-1), fs. split; [reflexivity|]. split; [lia|].
    left. repeat split. intros q Hq. apply Hfalse. lia.
Qed.

(** C6: on a mounted file system [fs_allocate_free_block] returns; it
    yields the smallest index from [inode_blocks + 1] on whose bitmap
    entry is free, with that entry flipped to not-free and nothing else
    changed, or the negative sentinel -1 with the state unchanged when
    no block of the data region is free; the value is never 0. *)
Theorem fs_allocate_free_block_first_fit fs d bm :
  mounted fs d bm ->
  let start := inode_blocks (meta_data fs) + 1 in
  exists r fs', fs_allocate_free_block fs = Ret (r, fs') /\ r <> 0 /\
    ((r = -1 /\ fs' = fs /\
      forall q, start <= q < blocks d -> bit bm q = Some (Some false))
     \/
     (start <= r < blocks d /\ bit bm r = Some (Some true) /\
      (forall q, start <= q < r -> bit bm q = Some (Some false)) /\
      fs' = set_free_blocks fs (Some (<[Z.to_nat r := Some false]> bm)))).
Proof.
  intros Hm start.
  destruct (fs_allocate_free_block_spec fs d bm Hm) as (r & fs' & Hret & Hnz & Hcases).
  exists r, fs'. split; [exact Hret|]. split; [exact Hnz|].
  destruct Hcases as [(Hr & Hfs & Hnone)|(Hr & Hfree & Hfirst & Hfs)].
  - left. split; [exact Hr|]. split; [exact Hfs|]. exact Hnone.
  - right. split; [exact Hr|]. split; [exact Hfree|]. split; [exact Hfirst|]. exact Hfs.
Qed.

(** The theorem at the file system that [fs_mount] builds on a freshly
    formatted disk of five blocks. *)
Lemma fs_allocate_free_block_first_fit_witness :
  exists r fs', fs_allocate_free_block tiny_fs = Ret (r, fs') /\ r <> 0.
Proof.
  destruct (fs_allocate_free_block_first_fit tiny_fs tiny_mounted_disk tiny_bitmap)
    as (r & fs' & H & Hr & _).
  - split; try reflexivity.
    + unfold disk_ok. repeat split; try (vm_compute; congruence).
      repeat constructor.
    + repeat constructor; eexists; reflexivity.
    + vm_compute. split; congruence.
  - exists r, fs'. split; assumption.
Defined.

(** * Disk accesses *)

Ltac fs_simpl :=
  cbn [disk free_blocks meta_data set_disk set_free_blocks set_meta_data
       initialised obind fst snd] in *.

Lemma disk_read_ok d blk buf b :
  0 <= fd d -> 0 <= blk < blocks d -> image d !! Z.to_nat blk = Some b ->
  disk_read (Some d) blk (Some buf) = (BLOCK_SIZE, Some (count_read d), Some b).
Proof.
  intros Hfd Hblk Hb. unfold disk_read, disk_sanity_check.
  destruct (Z.leb_spec 0 (fd d)); [|lia].
  destruct (Z.ltb_spec blk (blocks d)); [|lia].
  cbn [andb]. rewrite Hb. reflexivity.
Qed.

Lemma disk_read_inv d blk buf r d' b' :
  disk_read (Some d) blk (Some buf) = (r, d', b') ->
  (r = BLOCK_SIZE /\ d' = Some (count_read d) /\ 0 <= fd d /\ blk < blocks d /\
   b' = match image d !! Z.to_nat blk with Some b => Some b | None => buf end)
  \/ (r = DISK_FAILURE /\ d' = Some d /\ b' = buf /\
      disk_sanity_check (Some d) blk (Some buf) = false).
Proof.
  unfold disk_read, disk_sanity_check.
  destruct (Z.leb_spec 0 (fd d)); destruct (Z.ltb_spec blk (blocks d));
    cbn [andb default from_option id]; intros [= <- <- <-]; auto.
  left. repeat split; auto.
Qed.

Lemma disk_write_ok d blk data :
  0 <= fd d -> blk < blocks d ->
  disk_write (Some d) blk (Some data) = (BLOCK_SIZE, Some (store_block d blk data)).
Proof.
  intros Hfd Hblk. unfold disk_write, disk_sanity_check.
  destruct (Z.leb_spec 0 (fd d)); [|lia].
  destruct (Z.ltb_spec blk (blocks d)); [|lia]. reflexivity.
Qed.

Lemma same_disk_refl d : same_disk d d.
Proof. repeat split. Qed.

Lemma same_disk_trans d1 d2 d3 : same_disk d1 d2 -> same_disk d2 d3 -> same_disk d1 d3.
Proof. unfold same_disk. intuition congruence. Qed.

Lemma same_disk_count_read d : same_disk d (count_read d).
Proof. repeat split. Qed.

(** * Marking blocks in the bitmap *)

Lemma marks_none (P : Z -> Prop) bm : (forall p, ~ P p) -> marks P bm bm.
Proof. intros H. split; [reflexivity|]. intros p _. left. split; [apply H|reflexivity]. Qed.

Lemma marks_trans (P Q : Z -> Prop) bm1 bm2 bm3 :
  marks P bm1 bm2 -> marks Q bm2 bm3 -> marks (fun p => P p \/ Q p) bm1 bm3.
Proof.
  intros [Hl1 H1] [Hl2 H2]. split; [congruence|]. intros p Hp.
  destruct (H1 p Hp) as [[HnP E1]|[HP E1]], (H2 p Hp) as [[HnQ E2]|[HQ E2]].
  - left. split; [tauto|congruence].
  - right. split; [tauto|assumption].
  - right. split; [tauto|congruence].
  - right. split; [tauto|assumption].
Qed.

Lemma marks_iff (P Q : Z -> Prop) bm bm' :
  (forall p, P p <-> Q p) -> marks P bm bm' -> marks Q bm bm'.
Proof.
  intros HPQ [Hl H]. split; [assumption|]. intros p Hp.
  destruct (H p Hp) as [[HnP E]|[HP E]]; [left|right]; split; auto;
    rewrite <- HPQ; assumption.
Qed.

Lemma bitmap_set_inv bm p v o :
  bitmap_set (Some bm) p v = Ret o ->
  (Z.to_nat p < length bm)%nat /\ o = Some (<[Z.to_nat p := Some v]> bm).
Proof.
  unfold bitmap_set. destruct (Nat.ltb_spec (Z.to_nat p) (length bm)); [|discriminate].
  intros [= <-]. auto.
Qed.

Lemma bitmap_set_none p v o : bitmap_set None p v = Ret o -> False.
Proof. discriminate. Qed.

Lemma bitmap_set_marks bm p o :
  0 <= p -> bitmap_set (Some bm) p false = Ret o ->
  exists bm', o = Some bm' /\ marks (fun q => q = p) bm bm'.
Proof.
  intros Hp H. apply bitmap_set_inv in H as [Hlt ->].
  eexists. split; [reflexivity|]. split; [apply length_insert|].
  intros q Hq. unfold bit. destruct (Z.eq_dec q p) as [->|Hne].
  - right. split; [reflexivity|]. apply list_lookup_insert_eq. assumption.
  - left. split; [assumption|]. apply list_lookup_insert_ne. lia.
Qed.

Lemma mark_pointers_marks ptr limit :
  (forall k, 0 <= ptr k) ->
  forall n k bm o, limit - k <= Z.of_nat n ->
  mark_pointers n k ptr limit (Some bm) = Ret o ->
  exists bm', o = Some bm' /\ marks (scanned ptr k limit) bm bm'.
Proof.
  intros Hptr n. induction n as [|n IH]; intros k bm o Hn H.
  - cbn in H. injection H as <-. eexists. split; [reflexivity|].
    apply marks_none. intros p (k' & Hk' & _). lia.
  - cbn [mark_pointers] in H.
    destruct (Z.ltb_spec k limit) as [Hlt|Hge]; cbn [andb] in H.
    + destruct (Z.eqb_spec (ptr k) 0) as [Hz|Hnz]; cbn [negb] in H.
      * injection H as <-. eexists. split; [reflexivity|].
        apply marks_none. intros p (k' & Hk' & _ & Hall). apply (Hall k); [lia|assumption].
      * destruct (bitmap_set (Some bm) (ptr k) false) as [o1| | |] eqn:Hset;
          try discriminate H. cbn [obind] in H.
        apply bitmap_set_marks in Hset as (bm1 & -> & Hm1); [|apply Hptr].
        apply IH in H as (bm' & -> & Hm2); [|lia].
        eexists. split; [reflexivity|].
        eapply marks_iff; [|exact (marks_trans _ _ _ _ _ Hm1 Hm2)].
        intros p. split.
        -- intros [->|(k' & Hk' & E & Hall)].
           ++ exists k. split; [lia|]. split; [reflexivity|].
              intros k' Hk'. replace k' with k by lia. assumption.
           ++ exists k'. split; [lia|]. split; [assumption|].
              intros k'' Hk''. destruct (Z.eq_dec k'' k) as [->|]; [assumption|].
              apply Hall. lia.
        -- intros (k' & Hk' & E & Hall).
           destruct (Z.eq_dec k' k) as [->|Hne]; [left; congruence|].
           right. exists k'. split; [lia|]. split; [assumption|].
           intros k'' Hk''. apply Hall. lia.
    + injection H as <-. eexists. split; [reflexivity|].
      apply marks_none. intros p (k' & Hk' & _). lia.
Qed.

Lemma direct_at_block_inode_nonneg b j k : 0 <= direct_at (block_inode b j) k.
Proof.
  unfold direct_at.
  destruct (direct (block_inode b j) !! Z.to_nat k) as [v|] eqn:E; cbn; [|lia].
  destruct (block_inode_ok b j) as (_ & _ & _ & Hd & _).
  rewrite Forall_lookup in Hd. apply Hd in E. lia.
Qed.

Lemma indirect_block_inode_nonneg b j : 0 <= indirect (block_inode b j).
Proof. destruct (block_inode_ok b j) as (_ & _ & _ & _ & H). lia. Qed.

Lemma mark_inode_marks fs d bm b j fs' :
  disk fs = Some d -> free_blocks fs = Some bm ->
  mark_inode (block_inode b j) fs = Ret fs' ->
  exists d' bm', disk fs' = Some d' /\ free_blocks fs' = Some bm' /\
    meta_data fs' = meta_data fs /\ same_disk d d' /\
    marks (inode_scanned (image d) (block_inode b j)) bm bm'.
Proof.
  intros Hd Hbm H. unfold mark_inode in H.
  set (pi := block_inode b j) in *.
  destruct (Z.eqb_spec (valid pi) 0) as [Hv|Hv]; cbn [negb] in H.
  { injection H as <-. exists d, bm. repeat split; auto.
    intros p _. left. split; [|reflexivity]. intros [Hv' _]. contradiction. }
  rewrite Hbm in H.
  destruct (mark_pointers _ 0 (direct_at pi) _ (Some bm)) as [o1| | |] eqn:H1;
    try discriminate H. cbn [obind] in H.
  apply mark_pointers_marks in H1 as (bm1 & -> & Hm1);
    [|intros; apply direct_at_block_inode_nonneg|consts; lia].
  destruct (Z.eqb_spec (indirect pi) 0) as [Hi|Hi]; cbn [negb] in H.
  { injection H as <-. exists d, bm1. cbn. repeat split; auto; try apply Hm1.
    intros p Hp. destruct Hm1 as [_ Hm1]. destruct (Hm1 p Hp) as [[Hn E]|[Hy E]].
    - left. split; [|assumption]. intros [_ [Hs|[Hi' _]]]; tauto.
    - right. split; [|assumption]. split; [assumption|]. left. assumption. }
  fs_simpl.
  destruct (bitmap_set (Some bm1) (indirect pi) false) as [o2| | |] eqn:H2;
    try discriminate H. cbn [obind] in H.
  apply bitmap_set_marks in H2 as (bm2 & -> & Hm2);
    [|apply indirect_block_inode_nonneg].
  fs_simpl. rewrite Hd in H.
  destruct (disk_read (Some d) (indirect pi) (Some None)) as [[r d1] blk] eqn:Hr.
  destruct (Z.eqb_spec r DISK_FAILURE) as [Hf|Hf]; [discriminate H|].
  apply disk_read_inv in Hr as [(-> & -> & Hfd & Hlt & ->)|(-> & _)]; [|contradiction].
  destruct (image d !! Z.to_nat (indirect pi)) as [ib|] eqn:Hib; [|discriminate H].
  fs_simpl.
  destruct (mark_pointers _ 0 (get_word ib) _ (Some bm2)) as [o3| | |] eqn:H3;
    try discriminate H. cbn [obind] in H.
  apply mark_pointers_marks in H3 as (bm3 & -> & Hm3);
    [|intros; apply get_word_range|consts; lia].
  injection H as <-. exists (count_read d), bm3. cbn.
  repeat split; auto.
  - destruct Hm1, Hm2, Hm3. congruence.
  - intros p Hp.
    pose proof (marks_trans _ _ _ _ _ (marks_trans _ _ _ _ _ Hm1 Hm2) Hm3) as [_ Hm].
    destruct (Hm p Hp) as [[Hn E]|[Hy E]].
    + left. split; [|assumption]. intros [_ [Hs|[_ [Hs|(ib' & Hib' & Hs)]]]].
      * tauto.
      * apply Hn. left. right. congruence.
      * rewrite Hib in Hib'. injection Hib' as <-. tauto.
    + right. split; [|assumption]. split; [assumption|].
      destruct Hy as [[Hs|Hs]|Hs]; [left; assumption| |].
      * right. split; [assumption|]. left. congruence.
      * right. split; [assumption|]. right. exists ib. split; assumption.
Qed.

Lemma mark_slots_marks b n : forall j0 fs d bm fs',
  disk fs = Some d -> free_blocks fs = Some bm ->
  mark_slots n j0 b fs = Ret fs' ->
  exists d' bm', disk fs' = Some d' /\ free_blocks fs' = Some bm' /\
    meta_data fs' = meta_data fs /\ same_disk d d' /\
    marks (fun p => exists j, j0 <= j < j0 + Z.of_nat n /\
                      inode_scanned (image d) (block_inode b j) p) bm bm'.
Proof.
  induction n as [|n IH]; intros j0 fs d bm fs' Hd Hbm H.
  - injection H as <-. exists d, bm. repeat split; auto.
    intros p _. left. split; [|reflexivity]. intros (j & Hj & _). lia.
  - cbn [mark_slots] in H.
    destruct (mark_inode (block_inode b j0) fs) as [fs1| | |] eqn:H1;
      try discriminate H. cbn [obind] in H.
    eapply mark_inode_marks in H1 as (d1 & bm1 & Hd1 & Hbm1 & Hmeta1 & Hsame1 & Hm1); eauto.
    eapply IH in H as (d2 & bm2 & Hd2 & Hbm2 & Hmeta2 & Hsame2 & Hm2); eauto.
    exists d2, bm2. split; [assumption|]. split; [assumption|].
    split; [congruence|]. split; [eapply same_disk_trans; eassumption|].
    destruct Hsame1 as (_ & _ & Himg). rewrite Himg in Hm2.
    eapply marks_iff; [|exact (marks_trans _ _ _ _ _ Hm1 Hm2)].
    intros p. split.
    + intros [Hs|(j & Hj & Hs)]; [exists j0|exists j]; (split; [lia|assumption]).
    + intros (j & Hj & Hs). destruct (Z.eq_dec j j0) as [->|]; [left; assumption|].
      right. exists j. split; [lia|assumption].
Qed.

Lemma mark_inode_blocks_marks n : forall i0 blk fs d bm fs',
  disk fs = Some d -> free_blocks fs = Some bm ->
  length (image d) = Z.to_nat (blocks d) -> 0 <= i0 ->
  mark_inode_blocks n i0 blk fs = Ret fs' ->
  exists d' bm', disk fs' = Some d' /\ free_blocks fs' = Some bm' /\
    meta_data fs' = meta_data fs /\ same_disk d d' /\
    marks (fun p => exists i j b, i0 <= i < i0 + Z.of_nat n /\
                      0 <= j < INODES_PER_BLOCK /\
                      image d !! Z.to_nat (i + 1) = Some b /\
                      inode_scanned (image d) (block_inode b j) p) bm bm'.
Proof.
  induction n as [|n IH]; intros i0 blk fs d bm fs' Hd Hbm Hlen Hi0 H.
  - injection H as <-. exists d, bm. repeat split; auto.
    intros p _. left. split; [|reflexivity]. intros (i & j & b & Hi & _). lia.
  - cbn [mark_inode_blocks] in H. rewrite Hd in H.
    destruct (disk_read (Some d) (i0 + 1) (Some blk)) as [[r d1] blk1] eqn:Hr.
    destruct (Z.eqb_spec r DISK_FAILURE) as [Hf|Hf]; [discriminate H|].
    apply disk_read_inv in Hr as [(-> & -> & Hfd & Hlt & ->)|(-> & _)]; [|contradiction].
    destruct (lookup_lt_is_Some_2 (image d) (Z.to_nat (i0 + 1))) as [b Hb]; [lia|].
    rewrite Hb in H. fs_simpl.
    destruct (mark_slots _ 0 b _) as [fs1| | |] eqn:H1; try discriminate H.
    cbn [obind] in H.
    eapply mark_slots_marks in H1 as (d1 & bm1 & Hd1 & Hbm1 & Hmeta1 & Hsame1 & Hm1);
      [|reflexivity|eassumption].
    fs_simpl.
    assert (Hsame : same_disk d d1).
    { eapply same_disk_trans; [apply same_disk_count_read|eassumption]. }
    destruct Hsame as (Hfd1 & Hbl1 & Himg1).
    eapply IH in H as (d2 & bm2 & Hd2 & Hbm2 & Hmeta2 & Hsame2 & Hm2); eauto;
      [|congruence|lia].
    exists d2, bm2. split; [assumption|]. split; [assumption|].
    split; [congruence|].
    split; [eapply same_disk_trans; [|eassumption]; repeat split; assumption|].
    rewrite Himg1 in Hm2. change (image (count_read d)) with (image d) in Hm1.
    eapply marks_iff; [|exact (marks_trans _ _ _ _ _ Hm1 Hm2)].
    intros p. split.
    + intros [(j & Hj & Hs)|(i & j & b' & Hi & Hj & Hb' & Hs)].
      * change (Z.to_nat INODES_PER_BLOCK) with 128%nat in Hj.
        exists i0, j, b. split; [lia|]. split; [consts; lia|]. split; assumption.
      * exists i, j, b'. split; [lia|]. split; [lia|]. split; assumption.
    + intros (i & j & b' & Hi & Hj & Hb' & Hs).
      destruct (Z.eq_dec i i0) as [->|].
      * left. rewrite Hb in Hb'. injection Hb' as <-. exists j. split; [|assumption].
        change (Z.to_nat INODES_PER_BLOCK) with 128%nat. consts. lia.
      * right. exists i, j, b'. split; [lia|]. split; [lia|]. split; assumption.
Qed.

Lemma mark_range_spec v n : forall i bm o,
  0 <= i -> mark_range n i v (Some bm) = Ret o ->
  exists bm', o = Some bm' /\ length bm' = length bm /\
    (n <> 0%nat -> i + Z.of_nat n <= Z.of_nat (length bm)) /\
    forall p, 0 <= p ->
      bit bm' p = if decide (i <= p < i + Z.of_nat n) then Some (Some v) else bit bm p.
Proof.
  induction n as [|n IH]; intros i bm o Hi H.
  - injection H as <-. exists bm. repeat split; [congruence|].
    intros p Hp. case_decide; [lia|reflexivity].
  - cbn [mark_range] in H.
    destruct (bitmap_set (Some bm) i v) as [o1| | |] eqn:H1; try discriminate H.
    cbn [obind] in H. apply bitmap_set_inv in H1 as [Hlt ->].
    apply IH in H as (bm' & -> & Hlen & Hfit & Hbits); [|lia].
    rewrite length_insert in Hlen, Hfit.
    exists bm'. repeat split; [assumption|lia|].
    intros p Hp. rewrite (Hbits p Hp).
    repeat case_decide; try lia; try reflexivity.
    + replace p with i by lia. unfold bit. apply list_lookup_insert_eq. assumption.
    + unfold bit. apply list_lookup_insert_ne. lia.
Qed.

Lemma scanned_zero_terminated ptr limit b :
  zero_terminated ptr limit -> b <> 0 ->
  scanned ptr 0 limit b <-> exists k, 0 <= k < limit /\ ptr k = b.
Proof.
  intros Hz Hb. split.
  - intros (k & Hk & E & _). exists k. auto.
  - intros (k & Hk & E). exists k. split; [assumption|]. split; [assumption|].
    intros k' Hk' Hzero. apply Hb. rewrite <- E. apply (Hz k' k); [lia|lia|assumption].
Qed.

Lemma inode_scanned_reaches img node b :
  valid node <> 0 -> inode_zero_terminated img node -> b <> 0 ->
  inode_scanned img node b <-> inode_reaches img node b.
Proof.
  intros Hv [Hzd Hzi] Hb. unfold inode_scanned, inode_reaches.
  rewrite (scanned_zero_terminated _ _ _ Hzd Hb). split.
  - intros [_ [Hd|[Hi [E|(ib & Hib & Hs)]]]]; [left; assumption|right; left; assumption|].
    right. right. split; [assumption|].
    apply (scanned_zero_terminated _ _ _ (Hzi Hi ib Hib) Hb) in Hs as (k & Hk & E).
    exists ib, k. auto.
  - intros [Hd|[E|(Hi & ib & k & Hib & Hk & E)]]; (split; [assumption|]).
    + left. assumption.
    + right. split; [congruence|]. left. assumption.
    + right. split; [assumption|]. right. exists ib. split; [assumption|].
      apply (scanned_zero_terminated _ _ _ (Hzi Hi ib Hib) Hb). exists k. auto.
Qed.

(** * Mount *)

Lemma fs_initialize_free_block_bitmap_spec fs d fs' :
  disk fs = Some d -> length (image d) = Z.to_nat (blocks d) ->
  0 <= inode_blocks (meta_data fs) ->
  fs_initialize_free_block_bitmap fs = Ret fs' ->
  exists d' bm, disk fs' = Some d' /\ same_disk d d' /\ free_blocks fs' = Some bm /\
    meta_data fs' = meta_data fs /\ length bm = Z.to_nat (blocks d) /\
    inode_blocks (meta_data fs) < blocks d /\
    (inode_blocks (meta_data fs) + 1 < sb_blocks (meta_data fs) ->
     sb_blocks (meta_data fs) <= blocks d) /\
    forall p, 0 <= p < blocks d ->
      let P := fun p => exists i j b, 0 <= i < inode_blocks (meta_data fs) /\
                 0 <= j < INODES_PER_BLOCK /\
                 image d !! Z.to_nat (i + 1) = Some b /\
                 inode_scanned (image d) (block_inode b j) p in
      (p <= inode_blocks (meta_data fs) -> bit bm p = Some (Some false)) /\
      (inode_blocks (meta_data fs) < p < sb_blocks (meta_data fs) ->
       (~ P p /\ bit bm p = Some (Some true)) \/ (P p /\ bit bm p = Some (Some false))).
Proof.
  intros Hd Hlen Hib H. unfold fs_initialize_free_block_bitmap in H.
  rewrite Hd in H. cbn [initialised obind] in H.
  set (sb := meta_data fs) in *.
  destruct (mark_range _ 0 false _) as [o1| | |] eqn:H1; try discriminate H.
  cbn [obind] in H.
  apply mark_range_spec in H1 as (bm1 & -> & Hl1 & Hfit1 & Hbits1); [|lia].
  destruct (mark_range _ _ true _) as [o2| | |] eqn:H2; try discriminate H.
  cbn [obind] in H.
  apply mark_range_spec in H2 as (bm2 & -> & Hl2 & Hfit2 & Hbits2); [|lia].
  rewrite length_replicate in Hl1, Hfit1.
  eapply mark_inode_blocks_marks in H as (d' & bm & Hd' & Hbm & Hmeta & Hsame & Hl & Hm);
    [|exact Hd|reflexivity|assumption|lia].
  exists d', bm. split; [assumption|]. split; [assumption|]. split; [assumption|].
  split; [assumption|]. split; [congruence|]. split; [lia|]. split; [lia|].
  intros p Hp P. fold sb in P.
  assert (Hbit2 : (p <= inode_blocks sb -> bit bm2 p = Some (Some false)) /\
                  (inode_blocks sb < p < sb_blocks sb -> bit bm2 p = Some (Some true))).
  { rewrite Hbits2 by lia. rewrite Hbits1 by lia. split; intros Hr;
      repeat case_decide; try lia; reflexivity. }
  rewrite Z2Nat.id in Hm by lia. replace (0 + inode_blocks sb) with (inode_blocks sb) in Hm by lia.
  destruct (Hm p) as [[Hn E]|[Hy E]]; [lia| |].
  - split; intros Hr.
    + rewrite E. apply Hbit2. assumption.
    + left. split; [exact Hn|]. rewrite E. apply Hbit2. assumption.
  - split; intros Hr; [assumption|]. right. split; assumption.
Qed.

Lemma fs_mount_accepts fs0 d fs :
  fs_mount fs0 (Some d) = Ret (true, fs) ->
  exists fs1, disk fs1 = Some (count_read d) /\
    0 <= inode_blocks (meta_data fs1) /\
    fs_initialize_free_block_bitmap fs1 = Ret fs.
Proof.
  unfold fs_mount. destruct (disk fs0); [discriminate|]. fs_simpl.
  destruct (disk_read (Some d) 0 (Some None)) as [[r d1] blk] eqn:Hr.
  destruct (Z.eqb_spec r DISK_FAILURE); [discriminate|].
  apply disk_read_inv in Hr as [(-> & -> & _)|(-> & _)]; [|contradiction].
  destruct blk as [b|]; [|discriminate]. fs_simpl.
  destruct (negb _); [discriminate|].
  destruct (negb _); [discriminate|].
  destruct (negb _); [discriminate|].
  destruct (fs_initialize_free_block_bitmap _) as [fs2| | |] eqn:Hinit; try discriminate.
  cbn [obind]. intros [= <-]. eexists. split; [|split; [|exact Hinit]].
  - reflexivity.
  - cbn. apply get_word_range.
Qed.

(** C5 as stated fails: inode 0 of [gap_disk] is valid and its third
    direct pointer is 4, yet after the mount block 4 is free: the scan
    of the direct pointers stops at the zero in front of it. *)
Lemma fs_mount_stops_at_zero_pointer :
  ~ (forall fs0 d fs,
       length (image d) = Z.to_nat (blocks d) ->
       fs_mount fs0 (Some d) = Ret (true, fs) ->
       exists bm, free_blocks fs = Some bm /\
         (forall b, 0 <= b <= inode_blocks (meta_data fs) -> bit bm b = Some (Some false)) /\
         (forall b, inode_blocks (meta_data fs) < b < sb_blocks (meta_data fs) ->
            (bit bm b = Some (Some true) <-> ~ reaches (image d) (meta_data fs) b) /\
            (bit bm b = Some (Some false) <-> reaches (image d) (meta_data fs) b))).
Proof.
  intros H.
  destruct (H fresh_fs gap_disk gap_fs) as (bm & Hbm & _ & Hdata);
    [reflexivity|vm_compute; reflexivity|].
  injection Hbm as <-.
  destruct (Hdata 4) as [[Hfree _] _]; [vm_compute; split; reflexivity|].
  apply Hfree; [reflexivity|].
  eexists 0, 0, _. split; [vm_compute; split; [discriminate|reflexivity]|].
  split; [vm_compute; split; [discriminate|reflexivity]|].
  split; [vm_compute; reflexivity|].
  split; [vm_compute; discriminate|].
  left. exists 2. split; [vm_compute; split; [discriminate|reflexivity]|].
  vm_compute. reflexivity.
Qed.

(** C5, amended: after a successful mount of an image whose pointer
    arrays are zero-terminated (no pointer behind a zero, in the direct
    pointers of a valid inode and in its indirect block), the bitmap
    marks block 0 and the inode blocks as not-free, and a block of the
    data region is free exactly when no valid inode refers to it by a
    direct pointer, as its indirect index block, or by an entry of that
    index block. *)
Theorem fs_mount_bitmap_reconstruction fs0 d fs :
  length (image d) = Z.to_nat (blocks d) ->
  fs_mount fs0 (Some d) = Ret (true, fs) ->
  image_zero_terminated (image d) (meta_data fs) ->
  exists bm, free_blocks fs = Some bm /\
    (forall b, 0 <= b <= inode_blocks (meta_data fs) -> bit bm b = Some (Some false)) /\
    (forall b, inode_blocks (meta_data fs) < b < sb_blocks (meta_data fs) ->
       (bit bm b = Some (Some true) <-> ~ reaches (image d) (meta_data fs) b) /\
       (bit bm b = Some (Some false) <-> reaches (image d) (meta_data fs) b)).
Proof.
  intros Hlen Hmount Hzt.
  apply fs_mount_accepts in Hmount as (fs1 & Hd1 & Hib & Hinit).
  eapply fs_initialize_free_block_bitmap_spec in Hinit
    as (d' & bm & Hd' & Hsame & Hbm & Hmeta & Hl & Hlt & Hsb & Hbits);
    [|exact Hd1|exact Hlen|exact Hib].
  change (image (count_read d)) with (image d) in Hbits.
  change (blocks (count_read d)) with (blocks d) in *.
  rewrite <- Hmeta in *.
  exists bm. split; [assumption|]. split.
  - intros b Hb. apply Hbits; lia.
  - intros b Hb.
    assert (Hin : b < blocks d) by lia.
    assert (Hequiv : (exists i j blk, 0 <= i < inode_blocks (meta_data fs) /\
                 0 <= j < INODES_PER_BLOCK /\
                 image d !! Z.to_nat (i + 1) = Some blk /\
                 inode_scanned (image d) (block_inode blk j) b)
               <-> reaches (image d) (meta_data fs) b).
    { unfold reaches. split; intros (i & j & blk & Hi & Hj & Hblk & Hs).
      - exists i, j, blk. repeat (split; [assumption|]).
        pose proof Hs as [Hv _]. split; [assumption|].
        apply inode_scanned_reaches; [assumption|eapply Hzt; eassumption|lia|assumption].
      - destruct Hs as [Hv Hs]. exists i, j, blk. repeat (split; [assumption|]).
        apply inode_scanned_reaches; [assumption|eapply Hzt; eassumption|lia|assumption]. }
    destruct (Hbits b) as [_ Hdata]; [lia|].
    destruct (Hdata Hb) as [[Hn E]|[Hy E]]; rewrite E; rewrite Hequiv in *.
    + split; split; intros; try assumption; try congruence; try tauto.
    + split; split; intros; try assumption; try congruence; try tauto.
Qed.

(** The pointer arrays of [small_file_disk]: inode 0 is the only valid
    one, with the direct pointers [2; 0; 0; 0; 0] and no indirect
    block. *)
Lemma small_file_zero_terminated :
  image_zero_terminated (image small_file_disk) (meta_data small_file_remounted).
Proof.
  intros i j blk Hi Hj Hblk Hv.
  change (inode_blocks (meta_data small_file_remounted)) with 1 in Hi.
  replace i with 0 in Hblk by lia.
  assert (Hslots : forallb (fun j => (valid (block_inode blk j) =? 0) || (j =? 0))
                     (seqZ 0 INODES_PER_BLOCK) = true).
  { vm_compute in Hblk. injection Hblk as <-. vm_compute. reflexivity. }
  rewrite forallb_forall in Hslots. specialize (Hslots j).
  rewrite <- list_elem_of_In, elem_of_seqZ in Hslots. specialize (Hslots ltac:(lia)).
  apply orb_prop in Hslots as [Hz|Hj0]; [apply Z.eqb_eq in Hz; contradiction|].
  apply Z.eqb_eq in Hj0. subst j.
  vm_compute in Hblk. injection Hblk as <-. split.
  - intros k k' Hk Hk' Hz.
    assert (Hk0 : k <> 0) by (intros ->; vm_compute in Hz; discriminate Hz).
    assert (Hcases : k' = 1 \/ k' = 2 \/ k' = 3 \/ k' = 4) by (consts; lia).
    destruct Hcases as [->|[->|[->| ->]]]; vm_compute; reflexivity.
  - intros Hind. exfalso. apply Hind. vm_compute. reflexivity.
Qed.

(** The theorem at the five-block image that holds a file of 100 bytes:
    block 2, the block of the file, is the one that is not free. *)
Lemma fs_mount_bitmap_reconstruction_witness :
  exists bm, free_blocks small_file_remounted = Some bm /\
    (forall b, 0 <= b <= 1 -> bit bm b = Some (Some false)) /\
    (forall b, 1 < b < 5 ->
       (bit bm b = Some (Some true)
        <-> ~ reaches (image small_file_disk) (meta_data small_file_remounted) b) /\
       (bit bm b = Some (Some false)
        <-> reaches (image small_file_disk) (meta_data small_file_remounted) b)).
Proof.
  apply (fs_mount_bitmap_reconstruction fresh_fs small_file_disk small_file_remounted).
  - reflexivity.
  - vm_compute. reflexivity.
  - exact small_file_zero_terminated.
Defined.

(** Every rejected mount that got as far as reading block 0 leaves the
    disk attached: [fs->disk] is assigned before the checks and none of
    the early returns resets it. *)
Lemma fs_mount_rejected_attached fs d fs' :
  disk fs = None -> fs_mount fs (Some d) = Ret (false, fs') -> disk fs' <> None.
Proof.
  intros Hnone. unfold fs_mount. rewrite Hnone. fs_simpl.
  destruct (disk_read (Some d) 0 (Some None)) as [[r d1] blk] eqn:Hr.
  assert (Hd1 : d1 <> None).
  { apply disk_read_inv in Hr as [(_ & -> & _)|(_ & -> & _)]; discriminate. }
  destruct (r =? DISK_FAILURE); [intros [= <-]; exact Hd1|].
  destruct blk as [b|]; [|discriminate]. fs_simpl.
  repeat (destruct (negb _); [intros [= <-]; exact Hd1|]).
  destruct (fs_initialize_free_block_bitmap _); discriminate.
Qed.

(** C4, at an unmounted file system and an open disk of five blocks
    whose block 0 does not carry the magic number: [fs_mount] returns
    failure, yet the file system keeps the disk (and the rejected super
    block), so that it now refuses a well-formatted disk as well. *)
Theorem fs_mount_rejected_keeps_disk :
  exists fs',
    fs_mount fresh_fs (Some (blank_disk 5)) = Ret (false, fs') /\
    disk fs' = Some (count_read (blank_disk 5)) /\
    magic_number (meta_data fs') = 0xffffffff /\
    fs' <> fresh_fs /\
    fs_mount fresh_fs (Some tiny_disk_formatted) = Ret (true, tiny_fs) /\
    fs_mount fs' (Some tiny_disk_formatted) = Ret (false, fs').
Proof.
  eexists. split; [vm_compute; reflexivity|].
  split; [vm_compute; reflexivity|].
  split; [vm_compute; reflexivity|].
  split; [discriminate|].
  split; vm_compute; reflexivity.
Qed.

(** * Format *)

Lemma disk_write_inv d blk data w d' :
  disk_write (Some d) blk (Some data) = (w, d') ->
  (w = BLOCK_SIZE /\ d' = Some (store_block d blk data) /\ 0 <= fd d /\ blk < blocks d)
  \/ (w = DISK_FAILURE /\ d' = Some d /\ disk_sanity_check (Some d) blk (Some data) = false).
Proof.
  unfold disk_write. destruct (disk_sanity_check (Some d) blk (Some data)) eqn:E;
    intros [= <- <-]; [left|right; auto].
  unfold disk_sanity_check in E. rewrite andb_true_r in E. apply andb_prop in E as [E1 E2].
  apply Z.leb_le in E1. apply Z.ltb_lt in E2. auto.
Qed.

Lemma disk_sanity_check_true {A} d blk (data : A) :
  disk_sanity_check (Some d) blk (Some data) = true <-> 0 <= fd d /\ blk < blocks d.
Proof.
  unfold disk_sanity_check. rewrite andb_true_r, andb_true_iff, Z.leb_le, Z.ltb_lt. tauto.
Qed.

Lemma clear_inode_blocks_spec data n : forall i d,
  0 <= fd d -> 0 <= i -> i + Z.of_nat n < 2 ^ 64 ->
  length (image d) = Z.to_nat (blocks d) ->
  exists ok d', clear_inode_blocks n i data (Some d) = (ok, Some d') /\
    (ok = true <-> (n = 0%nat \/ i + Z.of_nat n < blocks d)) /\
    (ok = true -> fd d' = fd d /\ blocks d' = blocks d /\
       length (image d') = length (image d) /\
       forall p, 0 <= p ->
         image d' !! Z.to_nat p =
           if decide (i < p <= i + Z.of_nat n) then Some data
           else image d !! Z.to_nat p).
Proof.
  induction n as [|n IH]; intros i d Hfd Hi Hn Hlen.
  - exists true, d. split; [reflexivity|]. split; [tauto|].
    intros _. repeat split. intros p Hp. case_decide; [lia|reflexivity].
  - cbn [clear_inode_blocks]. rewrite size_t_small by clia.
    destruct (disk_write (Some d) (i + 1) (Some data)) as [w d1] eqn:Hw.
    apply disk_write_inv in Hw as [(-> & -> & _ & Hlt)|(-> & -> & Hs)].
    + change (BLOCK_SIZE =? DISK_FAILURE) with false. cbv iota.
      destruct (IH (i + 1) (store_block d (i + 1) data))
        as (ok & d' & -> & Hok & Hpost); [assumption|clia|clia| |].
      { cbn. rewrite length_insert. assumption. }
      exists ok, d'. split; [reflexivity|]. split.
      * rewrite Hok. cbn [blocks store_block].
        split; [intros [->|?]; right; lia|intros [?|?]; [lia|right; lia]].
      * intros Htrue. destruct (Hpost Htrue) as (Hfd' & Hbl' & Hlen' & Himg').
        cbn in Hfd', Hbl', Hlen'. rewrite length_insert in Hlen'.
        repeat split; try assumption.
        intros p Hp. rewrite (Himg' p Hp). cbn [image store_block].
        repeat case_decide; try lia; try reflexivity.
        -- replace p with (i + 1) by lia. apply list_lookup_insert_eq. lia.
        -- apply list_lookup_insert_ne. lia.
    + change (DISK_FAILURE =? DISK_FAILURE) with true. cbv iota.
      exists false, d. split; [reflexivity|]. split; [|discriminate].
      split; [discriminate|]. intros [?|Hlt]; [discriminate|].
      apply not_true_iff_false in Hs. exfalso. apply Hs.
      apply disk_sanity_check_true. lia.
Qed.

(** C7: [fs_format] refuses when the file system has a disk attached;
    otherwise it returns success exactly when every block write of the
    format (the inode blocks, then block 0) succeeds, and on success
    block 0 holds the magic number, the block count of the disk,
    [ceil(blocks / 10)] inode blocks and [INODES_PER_BLOCK] times as
    many inodes, and every slot of every inode block is invalid.  The
    inode count is assumed to fit its 32-bit field. *)
Theorem fs_format_correct fs d :
  length (image d) = Z.to_nat (blocks d) ->
  0 <= blocks d -> inode_blocks_of d * INODES_PER_BLOCK < 2 ^ 32 ->
  (disk fs <> None -> fs_format fs (Some d) = Ret (false, Some d)) /\
  (disk fs = None ->
   exists ok d', fs_format fs (Some d) = Ret (ok, Some d') /\
     (ok = true <->
      forall blk data, blk ∈ format_writes d ->
        fst (disk_write (Some d) blk (Some data)) <> DISK_FAILURE) /\
     (ok = true ->
      (exists b0, image d' !! 0%nat = Some b0 /\
         block_super b0 =
           {| magic_number := MAGIC_NUMBER; sb_blocks := blocks d;
              inode_blocks := inode_blocks_of d;
              inodes := inode_blocks_of d * INODES_PER_BLOCK |}) /\
      forall i j, 1 <= i <= inode_blocks_of d -> 0 <= j < INODES_PER_BLOCK ->
        exists b, image d' !! Z.to_nat i = Some b /\ valid (block_inode b j) = 0)).
Proof.
  intros Hlen Hblocks Hfit. unfold inode_blocks_of in *. split.
  { intros Hm. unfold fs_format. destruct (disk fs); [reflexivity|contradiction]. }
  intros Hnone. unfold fs_format. rewrite Hnone.
  assert (Hsmall : blocks d + 9 < 2 ^ 64) by (consts; lia).
  rewrite !size_t_small by (consts; lia).
  set (I := (blocks d + 9) / 10) in *.
  assert (Hwrites : forall P : Z -> Prop,
            (forall blk, blk ∈ format_writes d -> P blk) <->
            (P 0 /\ forall blk, 1 <= blk <= I -> P blk)).
  { intros P. unfold format_writes, inode_blocks_of. fold I. split.
    - intros H. split.
      { apply H, elem_of_app. right. apply list_elem_of_singleton. reflexivity. }
      intros blk Hblk. apply H.
      apply elem_of_app. left. apply elem_of_seqZ. lia.
    - intros [H0 H1] blk [Hin|Hin]%elem_of_app.
      + apply elem_of_seqZ in Hin. apply H1. lia.
      + apply list_elem_of_singleton in Hin as ->. assumption. }
  assert (Hwrite_ok : forall blk, (forall data : list byte,
            fst (disk_write (Some d) blk (Some data)) <> DISK_FAILURE) <->
            disk_sanity_check (Some d) blk (Some zero_block) = true).
  { intros blk.
    assert (Hsame : forall data : list byte,
              disk_sanity_check (Some d) blk (Some data)
              = disk_sanity_check (Some d) blk (Some zero_block)) by reflexivity.
    unfold disk_write. split.
    - intros H. specialize (H []). rewrite Hsame in H.
      destruct (disk_sanity_check (Some d) blk (Some zero_block)); [reflexivity|].
      exfalso. apply H. reflexivity.
    - intros Hs data. rewrite Hsame, Hs. cbn. discriminate. }
  assert (Hall : (forall blk data, blk ∈ format_writes d ->
                    fst (disk_write (Some d) blk (Some data)) <> DISK_FAILURE) <->
                 (0 <= fd d /\ 0 < blocks d /\ I < blocks d)).
  { transitivity (forall blk, blk ∈ format_writes d ->
                    disk_sanity_check (Some d) blk (Some zero_block) = true).
    - split; intros H blk; [intros Hin; apply Hwrite_ok; auto|].
      intros data Hin. apply Hwrite_ok; auto.
    - rewrite (Hwrites (fun blk => disk_sanity_check (Some d) blk (Some zero_block) = true)).
      rewrite disk_sanity_check_true. split.
      + intros [[Hfd H0] H1]. repeat split; try assumption.
        destruct (Z.eq_dec I 0) as [E|E]; [lia|].
        apply (disk_sanity_check_true d I zero_block), H1. lia.
      + intros (Hfd & H0 & H1). split; [auto|]. intros blk Hblk.
        apply disk_sanity_check_true. lia. }
  clear Hwrites Hwrite_ok.
  destruct (disk_read (Some d) 0 (Some None)) as [[r d1] blk0] eqn:Hr.
  apply disk_read_inv in Hr as [(-> & -> & Hfd & Hlt & _)|(-> & -> & _ & Hs)].
  2:{ change (DISK_FAILURE =? DISK_FAILURE) with true. cbv iota.
      exists false, d. split; [reflexivity|]. split; [|discriminate].
      rewrite Hall. split; [discriminate|]. intros (Hfd & H0 & _). exfalso.
      apply not_true_iff_false in Hs. apply Hs, disk_sanity_check_true. lia. }
  change (BLOCK_SIZE =? DISK_FAILURE) with false. cbv iota.
  destruct (clear_inode_blocks_spec zero_block (Z.to_nat I) 0 (count_read d))
    as (ok & d' & Hclear & Hok & Hpost); [assumption|lia|consts; lia|assumption|].
  rewrite Hclear. destruct ok; cbn [negb].
  2:{ exists false, d'. split; [reflexivity|]. split; [|discriminate].
      rewrite Hall. split; [discriminate|]. intros (_ & _ & HI).
      enough (false = true) by discriminate. apply Hok. cbn [blocks count_read]. lia. }
  destruct (Hpost eq_refl) as (Hfd' & Hbl' & Hlen' & Himg'). cbn in Hfd', Hbl', Hlen'.
  assert (HI : I < blocks d).
  { destruct Hok as [Hok _]. destruct (Hok eq_refl) as [E|E]; cbn in E; lia. }
  rewrite disk_write_ok by lia.
  change (BLOCK_SIZE =? DISK_FAILURE) with false. cbv iota.
  eexists true, _. split; [reflexivity|]. split; [rewrite Hall; split; auto; lia|].
  intros _. cbn [image store_block]. split.
  - eexists. split; [apply list_lookup_insert_eq; lia|].
    unfold block_super. word_simpl.
    rewrite !u32_small by (unfold MAGIC_NUMBER; consts; lia). reflexivity.
  - intros i j Hi Hj. exists zero_block. split.
    + rewrite list_lookup_insert_ne by lia. rewrite Himg' by lia.
      case_decide; [reflexivity|lia].
    + apply get_word_zero_block.
Qed.

(** The theorem at an unmounted file system and an open disk of five
    blocks. *)
Lemma fs_format_correct_witness :
  exists ok d', fs_format fresh_fs (Some (blank_disk 5)) = Ret (ok, Some d') /\
    (ok = true <->
     forall blk data, blk ∈ format_writes (blank_disk 5) ->
       fst (disk_write (Some (blank_disk 5)) blk (Some data)) <> DISK_FAILURE).
Proof.
  destruct (fs_format_correct fresh_fs (blank_disk 5)) as [_ H].
  - reflexivity.
  - vm_compute. congruence.
  - vm_compute. reflexivity.
  - destruct (H eq_refl) as (ok & d' & Hf & Hiff & _).
    exists ok, d'. split; assumption.
Defined.

(** * Loading and saving inodes *)

Lemma disk_ok_lookup d blk :
  disk_ok d -> 0 <= blk < blocks d ->
  exists b, image d !! Z.to_nat blk = Some b /\ is_block b.
Proof.
  intros (_ & _ & Hlen & Hall) Hblk.
  destruct (lookup_lt_is_Some_2 (image d) (Z.to_nat blk)) as [b Hb]; [lia|].
  exists b. split; [assumption|]. rewrite Forall_lookup in Hall. eauto.
Qed.

Lemma disk_ok_count_read d : disk_ok d -> disk_ok (count_read d).
Proof. intros H. exact H. Qed.

Lemma disk_ok_store_block d blk data :
  disk_ok d -> is_block data -> disk_ok (store_block d blk data).
Proof.
  intros (Hfd & Hbl & Hlen & Hall) Hdata.
  unfold disk_ok. cbn [fd blocks image store_block].
  rewrite length_insert. repeat split; try assumption; try lia.
  apply Forall_insert; assumption.
Qed.

Lemma fs_load_inode_spec fs d n node0 b :
  disk fs = Some d -> 0 <= fd d -> 0 <= n -> 1 + n / INODES_PER_BLOCK < blocks d ->
  blocks d < 2 ^ 32 ->
  image d !! Z.to_nat (1 + n / INODES_PER_BLOCK) = Some b ->
  let node := block_inode b (n mod INODES_PER_BLOCK) in
  fs_load_inode fs n node0 =
    Ret (negb (valid node =? 0), Some node, set_disk fs (Some (count_read d))).
Proof.
  intros Hd Hfd Hn Hlt Hbl Hb node. unfold fs_load_inode.
  rewrite size_t_small by (consts; lia). rewrite Hd.
  rewrite (disk_read_ok d _ None b) by (consts; first [assumption|lia]).
  change (BLOCK_SIZE =? 0) with false. reflexivity.
Qed.

Lemma fs_save_inode_spec fs d n node b :
  disk fs = Some d -> 0 <= fd d -> 0 <= n -> 1 + n / INODES_PER_BLOCK < blocks d ->
  blocks d < 2 ^ 32 ->
  image d !! Z.to_nat (1 + n / INODES_PER_BLOCK) = Some b ->
  fs_save_inode fs n node =
    Ret (true, set_disk fs (Some (store_block (count_read d) (1 + n / INODES_PER_BLOCK)
                                   (set_block_inode b (n mod INODES_PER_BLOCK) node)))).
Proof.
  intros Hd Hfd Hn Hlt Hbl Hb. unfold fs_save_inode.
  rewrite size_t_small by (consts; lia). rewrite Hd.
  rewrite (disk_read_ok d _ None b) by (consts; first [assumption|lia]).
  change (BLOCK_SIZE =? 0) with false. fs_simpl.
  rewrite disk_write_ok by (cbn; lia). reflexivity.
Qed.

(** * Create *)

Lemma create_in_block_spec i b fs d n : forall j r fs',
  disk fs = Some d -> 0 <= j ->
  create_in_block n j i b fs = (Some r, fs') -> 0 <= r ->
  exists j', j <= j' < j + Z.of_nat n /\ r = i * INODES_PER_BLOCK + j' /\
    valid (block_inode b j') = 0 /\ 0 <= fd d /\ i + 1 < blocks d /\
    fs' = set_disk fs (Some (store_block d (i + 1) (set_word b (INODE_WORDS * j') 1))).
Proof.
  induction n as [|n IH]; intros j r fs' Hd Hj H Hr; [discriminate|].
  cbn [create_in_block] in H.
  destruct (Z.eqb_spec (valid (block_inode b j)) 0) as [Hv|Hv].
  - rewrite Hd in H.
    destruct (disk_write (Some d) (i + 1) _) as [w d1] eqn:Hw.
    apply disk_write_inv in Hw as [(-> & -> & Hfd & Hlt)|(-> & -> & _)].
    + change (BLOCK_SIZE =? DISK_FAILURE) with false in H. injection H as <- <-.
      exists j. repeat split; auto; lia.
    + change (DISK_FAILURE =? DISK_FAILURE) with true in H. injection H as <- <-. lia.
  - apply IH in H as (j' & Hj' & Hrest); [|assumption|lia|assumption].
    exists j'. split; [lia|assumption].
Qed.

Lemma create_in_block_none i b n : forall j fs fs',
  create_in_block n j i b fs = (None, fs') -> fs' = fs.
Proof.
  induction n as [|n IH]; intros j fs fs' H; [injection H as <-; reflexivity|].
  cbn [create_in_block] in H.
  destruct (valid (block_inode b j) =? 0).
  - destruct (disk_write (disk fs) (i + 1) _) as [w d1].
    destruct (w =? DISK_FAILURE); discriminate.
  - eapply IH; eassumption.
Qed.

Lemma create_blocks_spec n : forall i blk fs d r fs',
  disk fs = Some d -> length (image d) = Z.to_nat (blocks d) -> 0 <= i ->
  create_blocks n i blk fs = Ret (r, fs') -> 0 <= r ->
  exists i' j b d1, i <= i' < i + Z.of_nat n /\ 0 <= j < INODES_PER_BLOCK /\
    r = i' * INODES_PER_BLOCK + j /\
    image d !! Z.to_nat (i' + 1) = Some b /\ valid (block_inode b j) = 0 /\
    0 <= fd d /\ i' + 1 < blocks d /\ same_disk d d1 /\
    fs' = set_disk fs (Some (store_block d1 (i' + 1) (set_word b (INODE_WORDS * j) 1))).
Proof.
  induction n as [|n IH]; intros i blk fs d r fs' Hd Hlen Hi H Hr.
  - injection H as <- <-. lia.
  - cbn [create_blocks] in H. rewrite Hd in H.
    destruct (disk_read (Some d) (i + 1) (Some blk)) as [[r0 d1] blk1] eqn:Hread.
    apply disk_read_inv in Hread as [(-> & -> & Hfd & Hlt & ->)|(-> & -> & _)].
    2:{ change (DISK_FAILURE =? DISK_FAILURE) with true in H. injection H as <- <-. lia. }
    change (BLOCK_SIZE =? DISK_FAILURE) with false in H. cbv iota in H.
    destruct (lookup_lt_is_Some_2 (image d) (Z.to_nat (i + 1))) as [b Hb]; [lia|].
    rewrite Hb in H. fs_simpl.
    destruct (create_in_block _ 0 i b _) as [[r1|] fs1] eqn:Hcib.
    + injection H as <- <-.
      eapply create_in_block_spec in Hcib as (j & Hj & -> & Hv & _ & _ & ->);
        [|reflexivity|lia|assumption].
      exists i, j, b, (count_read d).
      change (Z.to_nat INODES_PER_BLOCK) with 128%nat in Hj.
      split; [lia|]. split; [consts; lia|]. split; [reflexivity|].
      split; [assumption|]. split; [assumption|]. split; [assumption|].
      split; [assumption|]. split; [apply same_disk_count_read|]. reflexivity.
    + apply create_in_block_none in Hcib as ->.
      eapply IH in H as (i' & j & b' & d1 & Hi' & Hj & -> & Hb' & Hv & _ & Hlt' & Hsame & ->);
        [|reflexivity|assumption|lia|assumption].
      exists i', j, b', d1. split; [lia|]. split; [assumption|].
      split; [reflexivity|]. split; [exact Hb'|]. split; [assumption|].
      split; [assumption|]. split; [exact Hlt'|].
      split; [exact (same_disk_trans _ _ _ (same_disk_count_read d) Hsame)|].
      reflexivity.
Qed.

Lemma inode_ok_zero : inode_ok zero_inode.
Proof.
  unfold inode_ok, zero_inode. cbn [valid size direct indirect].
  repeat split; try lia; try reflexivity.
  change (Z.to_nat POINTERS_PER_INODE) with 5%nat. repeat constructor; lia.
Qed.

Lemma inode_number_split i j :
  0 <= i -> 0 <= j < INODES_PER_BLOCK ->
  (i * INODES_PER_BLOCK + j) / INODES_PER_BLOCK = i /\
  (i * INODES_PER_BLOCK + j) mod INODES_PER_BLOCK = j.
Proof. intros Hi Hj. consts. lia. Qed.





(** * Reading *)

(** The first copy of the indirect loop takes [min(BLOCK_SIZE, remaining)]
    bytes from position [offset]: with [offset > 0] and more than
    [BLOCK_SIZE - offset] bytes remaining it leaves the block. *)
Lemma read_indirect_first_copy n pointers length i offset bytes_read data blk fs d b :
  disk fs = Some d -> 0 <= fd d ->
  0 <= i < POINTERS_PER_BLOCK ->
  get_word pointers i <> 0 -> get_word pointers i < blocks d ->
  image d !! Z.to_nat (get_word pointers i) = Some b ->
  bytes_read < length ->
  BLOCK_SIZE - offset < Utils.min BLOCK_SIZE (length - bytes_read) ->
  read_indirect (S n) (Some pointers) length i offset bytes_read data blk fs = Undef.
Proof.
  intros Hd Hfd Hi Hnz Hlt Hb Hrem Hsz. cbn [read_indirect].
  destruct (Z.ltb_spec i POINTERS_PER_BLOCK); [|lia]. cbn [initialised obind].
  destruct (Z.eqb_spec (get_word pointers i) 0); [contradiction|].
  destruct (Z.ltb_spec bytes_read length); [|lia]. cbn [negb andb].
  rewrite Hd. rewrite (disk_read_ok d _ blk b); [|assumption| |assumption].
  2:{ pose proof (get_word_range pointers i). lia. }
  change (BLOCK_SIZE =? 0) with false. cbn [initialised obind].
  unfold copy_from_block.
  destruct (Z.leb_spec (offset + Utils.min BLOCK_SIZE (length - bytes_read)) BLOCK_SIZE);
    [lia|reflexivity].
Qed.

(** C2, at a file of seven blocks read from offset [5 * BLOCK_SIZE + 100]
    on: the claim bounds the first indirect copy by [BLOCK_SIZE - 100 =
    3996] bytes, as the direct loop of [fs_read] and both loops of
    [fs_write] do; the indirect loop of [fs_read] takes [min(BLOCK_SIZE,
    4096) = 4096] bytes from position 100 of the block, which runs 100
    bytes over its end.  The same read one block earlier, inside the
    direct region, is split into 3996 and 100 bytes. *)
Theorem fs_read_indirect_copy_overruns :
  (exists fs', fs_stat file7_fs 0 = Ret (7 * BLOCK_SIZE, fs')) /\
  Utils.min (BLOCK_SIZE - 100) 4096 = 3996 /\
  Utils.min BLOCK_SIZE 4096 = 4096 /\
  fs_read file7_fs 0 4096 (5 * BLOCK_SIZE + 100) = Undef /\
  (exists fs', fs_read file7_fs 0 4096 (4 * BLOCK_SIZE + 100)
               = Ret (4096, replicate 4096 Byte.x41, fs')).
Proof.
  split; [eexists; vm_compute; reflexivity|].
  split; [reflexivity|]. split; [reflexivity|].
  split; [vm_compute; reflexivity|].
  eexists. vm_compute. reflexivity.
Qed.

(** The loops of [fs_read] never take their [return -1]: [disk_read]
    yields [BLOCK_SIZE] or [DISK_FAILURE], never 0. *)
Lemma disk_read_nonzero d blk buf : (fst (fst (disk_read d blk buf)) =? 0) = false.
Proof.
  unfold disk_read. destruct d as [d|]; [|reflexivity].
  destruct (disk_sanity_check (Some d) blk buf); reflexivity.
Qed.

Lemma read_direct_no_return n inode length : forall i offset bytes_read data blk fs r,
  read_direct n inode length i offset bytes_read data blk fs = Ret r ->
  fst (fst r) = None.
Proof.
  induction n as [|n IH]; intros i offset bytes_read data blk fs r H.
  - injection H as <-. reflexivity.
  - cbn [read_direct] in H.
    destruct (_ && _ && _); [|injection H as <-; reflexivity].
    pose proof (disk_read_nonzero (disk fs) (direct_at inode i) (Some blk)) as Hnz.
    destruct (disk_read (disk fs) (direct_at inode i) (Some blk)) as [[r0 d1] blk1].
    cbn [fst] in Hnz. rewrite Hnz in H.
    destruct (initialised blk1) as [b| | |]; try discriminate H. cbn [obind] in H.
    destruct (copy_from_block _ _ _) as [bytes| | |]; try discriminate H.
    cbn [obind] in H. eapply IH. exact H.
Qed.

Lemma read_indirect_no_return n pointers length : forall i offset bytes_read data blk fs r,
  read_indirect n pointers length i offset bytes_read data blk fs = Ret r ->
  fst (fst r) = None.
Proof.
  induction n as [|n IH]; intros i offset bytes_read data blk fs r H.
  - injection H as <-. reflexivity.
  - cbn [read_indirect] in H.
    destruct (i <? POINTERS_PER_BLOCK); [|injection H as <-; reflexivity].
    destruct (initialised pointers) as [ptrs| | |]; try discriminate H.
    cbn [obind] in H.
    destruct (_ && _); [|injection H as <-; reflexivity].
    pose proof (disk_read_nonzero (disk fs) (get_word ptrs i) (Some blk)) as Hnz.
    destruct (disk_read (disk fs) (get_word ptrs i) (Some blk)) as [[r0 d1] blk1].
    cbn [fst] in Hnz. rewrite Hnz in H.
    destruct (initialised blk1) as [b| | |]; try discriminate H. cbn [obind] in H.
    destruct (copy_from_block _ _ _) as [bytes| | |]; try discriminate H.
    cbn [obind] in H. eapply IH. exact H.
Qed.

(** [fs_read] on a valid inode returns only the clamped length. *)
Lemma fs_read_returns_length fs n len off node fs1 r out fs' :
  fs_load_inode fs n None = Ret (true, Some node, fs1) ->
  fs_read fs n len off = Ret (r, out, fs') ->
  r = Utils.min len (size_t (size node - off)).
Proof.
  intros Hload H. unfold fs_read in H. rewrite Hload in H.
  cbn [obind initialised] in H.
  set (length := Utils.min len (size_t (size node - off))) in *.
  destruct (read_direct _ _ _ _ _ _ _ _ _) as [[[early1 c1] fs2]| | |] eqn:H1;
    try discriminate H.
  apply read_direct_no_return in H1 as Hnone. cbn in Hnone. subst early1.
  destruct c1 as [[[[i1 o1] br1] data1] blk1]. cbn [obind] in H.
  destruct (_ && _).
  - pose proof (disk_read_nonzero (disk fs2) (indirect node) (Some None)) as Hnz.
    destruct (disk_read (disk fs2) (indirect node) (Some None)) as [[r0 d1] ib].
    cbn [fst] in Hnz. rewrite Hnz in H.
    destruct (read_indirect _ _ _ _ _ _ _ _ _) as [[[early2 c2] fs3]| | |] eqn:H2;
      try discriminate H.
    apply read_indirect_no_return in H2 as Hnone. cbn in Hnone. subst early2.
    destruct c2 as [[[[i2 o2] br2] data2] blk2]. cbn [obind] in H.
    destruct (Z.eqb_spec br2 length); [|discriminate H].
    injection H as <- _ _. assumption.
  - cbn [obind] in H.
    destruct (Z.eqb_spec br1 length); [|discriminate H].
    injection H as <- _ _. assumption.
Qed.

(** C10 as stated fails: a file of 100 bytes read at offset 200 for 50
    bytes returns 50 (stale bytes of its first block), so [fs_read] can
    return normally with [offset > size]. *)
Lemma fs_read_beyond_size_returns :
  ~ (forall fs n len off s fs1 r out fs2,
       fs_stat fs n = Ret (s, fs1) -> 0 <= s ->
       fs_read fs n len off = Ret (r, out, fs2) -> off <= s).
Proof.
  intros H.
  assert (Hstat : exists fs1, fs_stat small_file_fs 0 = Ret (100, fs1))
    by (eexists; vm_compute; reflexivity).
  assert (Hread : exists out fs2, fs_read small_file_fs 0 50 200 = Ret (50, out, fs2))
    by (eexists _, _; vm_compute; reflexivity).
  destruct Hstat as (fs1 & Hstat). destruct Hread as (out & fs2 & Hread).
  specialize (H _ _ _ _ _ _ _ _ _ Hstat ltac:(lia) Hread). lia.
Qed.

(** Where the inode has no direct pointer for block [i], the first loop
    of [fs_read] does nothing. *)
Lemma read_direct_stops n inode length i offset bytes_read data blk fs :
  POINTERS_PER_INODE <= i \/ direct_at inode i = 0 ->
  read_direct n inode length i offset bytes_read data blk fs
  = Ret (None, (i, offset, bytes_read, data, blk), fs).
Proof.
  intros Hstop. destruct n as [|n]; [reflexivity|]. cbn [read_direct].
  destruct Hstop as [Hi|Hz].
  - destruct (Z.ltb_spec i POINTERS_PER_INODE); [lia|]. reflexivity.
  - rewrite Hz. cbn [Z.eqb negb]. rewrite andb_false_r. reflexivity.
Qed.

(** C10, amended: for a valid inode and [offset > size] the unsigned
    subtraction [size - offset] wraps around to [2^64 - (offset - size)]
    and the clamp leaves [length] as it is.  Whenever [fs_read] returns
    there, it returns exactly [length], never a shorter count; and when
    [length > 0] and the inode has no block at [offset] (no direct
    pointer for the block of [offset], or [offset] behind the direct
    pointers, and no indirect block), nothing is read and the final
    assertion fails. *)
Theorem fs_read_beyond_size fs n len off node fs1 :
  fs_load_inode fs n None = Ret (true, Some node, fs1) ->
  0 <= size node < off -> off < 2 ^ 64 ->
  0 <= len -> len + (off - size node) <= 2 ^ 64 ->
  size_t (size node - off) = 2 ^ 64 - (off - size node) /\
  Utils.min len (size_t (size node - off)) = len /\
  (forall r out fs', fs_read fs n len off = Ret (r, out, fs') -> r = len) /\
  (0 < len -> indirect node = 0 ->
   POINTERS_PER_INODE <= off / BLOCK_SIZE \/ direct_at node (off / BLOCK_SIZE) = 0 ->
   fs_read fs n len off = Abort).
Proof.
  intros Hload Hsize Hoff Hlen Hfit.
  assert (Hwrap : size_t (size node - off) = 2 ^ 64 - (off - size node)).
  { unfold size_t. lia. }
  assert (Hclamp : Utils.min len (size_t (size node - off)) = len).
  { rewrite min_spec, Hwrap. lia. }
  split; [assumption|]. split; [assumption|]. split.
  - intros r out fs' Hread. rewrite <- Hclamp.
    eapply fs_read_returns_length; eassumption.
  - intros Hpos Hind Hstop. unfold fs_read. rewrite Hload.
    cbn [obind initialised]. rewrite Hclamp.
    rewrite read_direct_stops by exact Hstop. cbn [obind].
    rewrite Hind. cbn [Z.eqb negb]. rewrite andb_false_r. cbn [obind].
    destruct (Z.eqb_spec 0 len); [lia|reflexivity].
Qed.

(** The theorem at the empty file of the five-block image, read for one
    byte at offset 1. *)
Lemma fs_read_beyond_size_witness :
  size_t (0 - 1) = 2 ^ 64 - 1 /\ Utils.min 1 (size_t (0 - 1)) = 1 /\
  fs_read empty_file_fs 0 1 1 = Abort.
Proof.
  edestruct (fs_read_beyond_size empty_file_fs 0 1 1) as (H1 & H2 & _ & Habort).
  - vm_compute. reflexivity.
  - vm_compute. split; congruence.
  - reflexivity.
  - lia.
  - vm_compute. congruence.
  - split; [exact H1|]. split; [exact H2|].
    apply Habort; [lia|reflexivity|right; reflexivity].
Defined.

(** * Sequences of allocations *)

Lemma bit_lt bm p v : bit bm p = Some v -> (Z.to_nat p < length bm)%nat.
Proof. unfold bit. intros H. apply lookup_lt_Some in H. exact H. Qed.

Lemma bit_insert_eq bm p v :
  (Z.to_nat p < length bm)%nat -> bit (<[Z.to_nat p := v]> bm) p = Some v.
Proof. intros H. unfold bit. apply list_lookup_insert_eq. exact H. Qed.

Lemma bit_insert_ne bm p q v :
  0 <= p -> 0 <= q -> p <> q -> bit (<[Z.to_nat p := v]> bm) q = bit bm q.
Proof. intros Hp Hq Hne. unfold bit. apply list_lookup_insert_ne. lia. Qed.

Lemma allocs_length lo hi bm qs bm' :
  allocs lo hi bm qs bm' -> length bm' = length bm.
Proof.
  induction 1 as [|bm q qs bm' Hq Hfree Hrest IH]; [reflexivity|].
  rewrite IH. apply length_insert.
Qed.

Lemma allocs_written lo hi bm qs bm' :
  allocs lo hi bm qs bm' -> Forall is_Some bm -> Forall is_Some bm'.
Proof.
  induction 1 as [|bm q qs bm' Hq Hfree Hrest IH]; intros Hw; [assumption|].
  apply IH. apply Forall_insert; [assumption|]. eexists. reflexivity.
Qed.

Lemma allocs_bit lo hi bm qs bm' :
  0 <= lo -> allocs lo hi bm qs bm' ->
  forall p, 0 <= p ->
    bit bm' p = if decide (p ∈ qs) then Some (Some false) else bit bm p.
Proof.
  intros Hlo. induction 1 as [|bm q qs bm' Hq Hfree Hrest IH]; intros p Hp.
  - case_decide as Hin; [|reflexivity]. apply not_elem_of_nil in Hin. contradiction.
  - rewrite (IH p Hp). destruct (decide (p ∈ qs)) as [Hin|Hnin].
    + rewrite decide_True by (right; assumption). reflexivity.
    + destruct (Z.eq_dec p q) as [->|Hne].
      * rewrite decide_True by left. apply bit_insert_eq. eapply bit_lt. exact Hfree.
      * rewrite decide_False.
        -- apply bit_insert_ne; lia.
        -- intros [?|?]%elem_of_cons; congruence.
Qed.

Lemma allocs_free lo hi bm qs bm' :
  0 <= lo -> allocs lo hi bm qs bm' ->
  Forall (fun q => lo < q < hi /\ is_free bm q) qs /\ NoDup qs.
Proof.
  intros Hlo. induction 1 as [|bm q qs bm' Hq Hfree Hrest [IHf IHn]].
  - split; constructor.
  - assert (Hnin : q ∉ qs).
    { intros Hin. rewrite list.Forall_forall in IHf. destruct (IHf q Hin) as [_ Hf].
      unfold is_free in Hf. rewrite bit_insert_eq in Hf by (eapply bit_lt; exact Hfree).
      discriminate Hf. }
    split.
    + constructor; [auto|]. rewrite list.Forall_forall in *. intros p Hin.
      destruct (IHf p Hin) as [Hr Hf]. split; [assumption|].
      unfold is_free in *. rewrite bit_insert_ne in Hf; [assumption|lia|lia|].
      intros ->. contradiction.
    + constructor; assumption.
Qed.

Lemma allocs_app lo hi bm1 qs1 bm2 qs2 bm3 :
  allocs lo hi bm1 qs1 bm2 -> allocs lo hi bm2 qs2 bm3 ->
  allocs lo hi bm1 (qs1 ++ qs2) bm3.
Proof.
  induction 1 as [|bm q qs bm' Hq Hfree Hrest IH]; intros H2; [assumption|].
  cbn [app]. econstructor; eauto.
Qed.

Lemma allocs_used lo hi bm qs bm' p :
  0 <= lo -> allocs lo hi bm qs bm' -> 0 <= p -> is_used bm p -> is_used bm' p.
Proof.
  intros Hlo H Hp Hu. unfold is_used. rewrite (allocs_bit _ _ _ _ _ Hlo H p Hp).
  case_decide; [reflexivity|assumption].
Qed.

(** * Mounted states *)

Lemma mounted_set_free_blocks fs d bm bm' :
  mounted fs d bm -> length bm' = length bm -> Forall is_Some bm' ->
  mounted (set_free_blocks fs (Some bm')) d bm'.
Proof.
  intros [Hd Hb Hok Hl Hw Hib] Hlen Hw'. split; cbn; try assumption; try reflexivity.
  congruence.
Qed.

Lemma mounted_set_disk fs d bm d' :
  mounted fs d bm -> disk_ok d' -> blocks d' = blocks d ->
  mounted (set_disk fs (Some d')) d' bm.
Proof.
  intros [Hd Hb Hok Hl Hw Hib] Hok' Hbl. split; cbn; try assumption; try reflexivity;
    rewrite Hbl; assumption.
Qed.

Lemma alloc_step fs d bm :
  mounted fs d bm ->
  let lo := inode_blocks (meta_data fs) in
  (fs_allocate_free_block fs = Ret (-1, fs) /\ no_free lo (blocks d) bm) \/
  (exists r, fs_allocate_free_block fs
             = Ret (r, set_free_blocks fs (Some (<[Z.to_nat r := Some false]> bm))) /\
     lo < r < blocks d /\ is_free bm r).
Proof.
  intros Hm lo.
  destruct (fs_allocate_free_block_spec fs d bm Hm) as (r & fs' & Hret & Hnz & Hcases).
  destruct Hcases as [(-> & -> & Hnone)|(Hr & Hfree & _ & ->)].
  - left. split; [assumption|]. intros q Hq. apply Hnone. unfold lo in Hq. lia.
  - right. exists r. split; [assumption|]. split; [unfold lo; lia|assumption].
Qed.

(** * The two loops of [fs_expand_file] *)

Lemma direct_at_set_direct node idx v k :
  0 <= idx -> 0 <= k -> (Z.to_nat idx < length (direct node))%nat ->
  direct_at (set_direct node idx v) k = if decide (k = idx) then v else direct_at node k.
Proof.
  intros Hi Hk Hlt. unfold direct_at, set_direct. cbn [direct].
  case_decide as E.
  - subst. rewrite list_lookup_insert_eq by assumption. reflexivity.
  - rewrite list_lookup_insert_ne by lia. reflexivity.
Qed.

Lemma inode_ok_set_direct node idx v :
  inode_ok node -> 0 <= v < 2 ^ 32 -> inode_ok (set_direct node idx v).
Proof.
  intros (Hv & Hs & Hl & Hd & Hi) Hr. unfold inode_ok, set_direct.
  cbn [valid size direct indirect]. rewrite length_insert.
  repeat split; try assumption; try lia.
  destruct (decide (Z.to_nat idx < length (direct node))%nat).
  - apply Forall_insert; assumption.
  - rewrite list_insert_ge by lia. assumption.
Qed.

Lemma expand_direct_spec n : forall idx dif node fs d bm,
  mounted fs d bm -> 0 <= idx -> 0 <= dif ->
  POINTERS_PER_INODE - idx <= Z.of_nat n -> inode_ok node ->
  let lo := inode_blocks (meta_data fs) in
  exists qs bm' node' fs',
    expand_direct n idx dif node fs
      = Ret (idx + Z.of_nat (length qs), dif - Z.of_nat (length qs), node', fs') /\
    mounted fs' d bm' /\ meta_data fs' = meta_data fs /\
    allocs lo (blocks d) bm qs bm' /\
    Z.of_nat (length qs) <= dif /\
    idx + Z.of_nat (length qs) <= Z.max idx POINTERS_PER_INODE /\
    (POINTERS_PER_INODE <= idx + Z.of_nat (length qs) \/ dif - Z.of_nat (length qs) = 0 \/
     no_free lo (blocks d) bm') /\
    inode_ok node' /\ valid node' = valid node /\ size node' = size node /\
    indirect node' = indirect node /\
    forall k, 0 <= k ->
      direct_at node' k =
        if decide (idx <= k < idx + Z.of_nat (length qs))
        then default 0 (qs !! Z.to_nat (k - idx)) else direct_at node k.
Proof.
  induction n as [|n IH]; intros idx dif node fs d bm Hm Hidx Hdif Hn Hnode lo;
    pose proof (m_inode_blocks _ _ _ Hm) as Hib; fold lo in Hib.
  - exists [], bm, node, fs. cbn [expand_direct length]. rewrite Z.add_0_r, Z.sub_0_r.
    splits; try assumption; try reflexivity; try apply allocs_nil; try lia.
    intros k Hk. case_decide; [lia|reflexivity].
  - cbn [expand_direct].
    destruct (Z.ltb_spec idx POINTERS_PER_INODE) as [Hlt|Hge];
      [destruct (Z.eqb_spec dif 0) as [Hz|Hnz]|]; cbn [andb negb].
    2:{ destruct (alloc_step fs d bm Hm) as [[Hret Hnone]|(r & Hret & Hr & Hfree)];
          rewrite Hret; cbn [obind].
        - change (-1 =? -1) with true. cbn [negb].
          exists [], bm, node, fs. cbn [length]. rewrite Z.add_0_r, Z.sub_0_r.
          splits; try assumption; try reflexivity; try apply allocs_nil; try lia.
          + right. right. exact Hnone.
          + intros k Hk. case_decide; [lia|reflexivity].
        - destruct (Z.eqb_spec r (-1)) as [E|_]; [lia|]. cbn [negb].
          pose proof Hm as [_ _ (_ & Hbl & _) _ Hw _].
          set (bm1 := <[Z.to_nat r := Some false]> bm).
          assert (Hm1 : mounted (set_free_blocks fs (Some bm1)) d bm1).
          { apply (mounted_set_free_blocks fs d bm); [assumption|apply length_insert|].
            apply Forall_insert; [assumption|eexists; reflexivity]. }
          rewrite u32_small by lia.
          destruct (IH (idx + 1) (dif - 1) (set_direct node idx r) _ d bm1 Hm1)
            as (qs & bm' & node' & fs' & Hrun & Hm' & Hmeta & Hallocs & Hlen & Hmax &
                Hstop & Hok' & Hv' & Hs' & Hi' & Hdir'); [lia|lia|lia| |].
          { apply inode_ok_set_direct; [assumption|lia]. }
          exists (r :: qs), bm', node', fs'. cbn [length].
          replace (idx + Z.of_nat (S (length qs))) with (idx + 1 + Z.of_nat (length qs)) by lia.
          replace (dif - Z.of_nat (S (length qs))) with (dif - 1 - Z.of_nat (length qs)) by lia.
          split; [exact Hrun|].
          split; [assumption|]. split; [exact Hmeta|].
          split; [econstructor; eauto|]. split; [lia|]. split; [lia|].
          split; [cbn [meta_data set_free_blocks] in Hstop; fold lo in Hstop;
                  destruct Hstop as [?|[?|?]]; [left; lia|right; left; lia|right; right; assumption]|].
          split; [assumption|]. split; [exact Hv'|]. split; [exact Hs'|]. split; [exact Hi'|].
          intros k Hk. rewrite (Hdir' k Hk).
          destruct Hnode as (_ & _ & Hl & _).
          rewrite direct_at_set_direct by (consts; lia).
          repeat case_decide; try lia; try reflexivity.
          + replace (Z.to_nat (k - idx)) with (S (Z.to_nat (k - (idx + 1)))) by lia.
            reflexivity.
          + subst k. replace (Z.to_nat (idx - idx)) with 0%nat by lia. reflexivity. }
    all: exists [], bm, node, fs; cbn [length]; rewrite Z.add_0_r, Z.sub_0_r;
      splits; try assumption; try reflexivity; try apply allocs_nil; try lia;
      intros k Hk; case_decide; [lia|reflexivity].
Qed.

Lemma expand_indirect_spec n : forall idx dif pointers fs d bm,
  mounted fs d bm -> 0 <= idx -> 0 <= dif ->
  POINTERS_PER_BLOCK - idx <= Z.of_nat n -> is_block pointers ->
  let lo := inode_blocks (meta_data fs) in
  exists qs bm' pointers' fs',
    expand_indirect n idx dif (Some pointers) fs
      = Ret (idx + Z.of_nat (length qs), dif - Z.of_nat (length qs), Some pointers', fs') /\
    mounted fs' d bm' /\ meta_data fs' = meta_data fs /\
    allocs lo (blocks d) bm qs bm' /\
    Z.of_nat (length qs) <= dif /\
    idx + Z.of_nat (length qs) <= Z.max idx POINTERS_PER_BLOCK /\
    (POINTERS_PER_BLOCK <= idx + Z.of_nat (length qs) \/ dif - Z.of_nat (length qs) = 0 \/
     no_free lo (blocks d) bm') /\
    is_block pointers' /\
    forall k, 0 <= k ->
      get_word pointers' k =
        if decide (idx <= k < idx + Z.of_nat (length qs))
        then default 0 (qs !! Z.to_nat (k - idx)) else get_word pointers k.
Proof.
  induction n as [|n IH]; intros idx dif pointers fs d bm Hm Hidx Hdif Hn Hblock lo;
    pose proof (m_inode_blocks _ _ _ Hm) as Hib; fold lo in Hib.
  - exists [], bm, pointers, fs. cbn [expand_indirect length]. rewrite Z.add_0_r, Z.sub_0_r.
    splits; try assumption; try reflexivity; try apply allocs_nil; try lia.
    intros k Hk. case_decide; [lia|reflexivity].
  - cbn [expand_indirect].
    destruct (Z.ltb_spec idx POINTERS_PER_BLOCK) as [Hlt|Hge];
      [destruct (Z.eqb_spec dif 0) as [Hz|Hnz]|]; cbn [andb negb].
    2:{ destruct (alloc_step fs d bm Hm) as [[Hret Hnone]|(r & Hret & Hr & Hfree)];
          rewrite Hret; cbn [obind].
        - change (-1 =? -1) with true. cbn [negb].
          exists [], bm, pointers, fs. cbn [length]. rewrite Z.add_0_r, Z.sub_0_r.
          splits; try assumption; try reflexivity; try apply allocs_nil; try lia.
          + right. right. exact Hnone.
          + intros k Hk. case_decide; [lia|reflexivity].
        - destruct (Z.eqb_spec r (-1)) as [E|_]; [lia|]. cbn [negb initialised obind].
          pose proof Hm as [_ _ (_ & Hbl & _) _ Hw _].
          set (bm1 := <[Z.to_nat r := Some false]> bm).
          assert (Hm1 : mounted (set_free_blocks fs (Some bm1)) d bm1).
          { apply (mounted_set_free_blocks fs d bm); [assumption|apply length_insert|].
            apply Forall_insert; [assumption|eexists; reflexivity]. }
          destruct (IH (idx + 1) (dif - 1) (set_word pointers idx r) _ d bm1 Hm1)
            as (qs & bm' & pointers' & fs' & Hrun & Hm' & Hmeta & Hallocs & Hlen & Hmax &
                Hstop & Hblock' & Hwords); [lia|lia|lia| |].
          { apply is_block_set_word; [assumption|lia]. }
          exists (r :: qs), bm', pointers', fs'. cbn [length].
          replace (idx + Z.of_nat (S (length qs))) with (idx + 1 + Z.of_nat (length qs)) by lia.
          replace (dif - Z.of_nat (S (length qs))) with (dif - 1 - Z.of_nat (length qs)) by lia.
          split; [exact Hrun|].
          split; [assumption|]. split; [exact Hmeta|].
          split; [econstructor; eauto|]. split; [lia|]. split; [lia|].
          split; [cbn [meta_data set_free_blocks] in Hstop; fold lo in Hstop;
                  destruct Hstop as [?|[?|?]]; [left; lia|right; left; lia|right; right; assumption]|].
          split; [assumption|].
          intros k Hk. rewrite (Hwords k Hk).
          repeat case_decide; try lia.
          + replace (Z.to_nat (k - idx)) with (S (Z.to_nat (k - (idx + 1)))) by lia.
            reflexivity.
          + replace k with idx by lia.
            rewrite get_set_word_eq by (first [assumption|lia]).
            rewrite u32_small by lia.
            replace (Z.to_nat (idx - idx)) with 0%nat by lia. reflexivity.
          + rewrite get_set_word_ne by (first [assumption|lia]). reflexivity. }
    all: exists [], bm, pointers, fs; cbn [length]; rewrite Z.add_0_r, Z.sub_0_r;
      splits; try assumption; try reflexivity; try apply allocs_nil; try lia;
      intros k Hk; case_decide; [lia|reflexivity].
Qed.

(** * Growth *)

Lemma upper_round_u32 x :
  0 <= x -> x + BLOCK_SIZE <= 2 ^ 32 -> Utils.UPPER_ROUND u32 x BLOCK_SIZE = blocks_of x.
Proof.
  intros H0 H1. unfold Utils.UPPER_ROUND, blocks_of. rewrite u32_small; [reflexivity|].
  consts. lia.
Qed.

Lemma upper_round_size_t x :
  0 <= x -> x + BLOCK_SIZE <= 2 ^ 64 -> Utils.UPPER_ROUND size_t x BLOCK_SIZE = blocks_of x.
Proof.
  intros H0 H1. unfold Utils.UPPER_ROUND, blocks_of. rewrite size_t_small; [reflexivity|].
  consts. lia.
Qed.

Lemma allocs_nil_inv lo hi bm bm' : allocs lo hi bm [] bm' -> bm' = bm.
Proof. inversion 1. reflexivity. Qed.

Lemma free_list_spec lo bm q :
  0 <= lo ->
  q ∈ free_list lo bm <-> lo < q < Z.of_nat (length bm) /\ is_free bm q.
Proof.
  intros Hlo. unfold free_list. rewrite list_elem_of_filter, elem_of_seqZ.
  unfold is_free. split; [intros [H1 H2]; split; [lia|assumption]|].
  intros [H1 H2]. split; [assumption|lia].
Qed.

Lemma free_list_NoDup lo bm : NoDup (free_list lo bm).
Proof. unfold free_list. apply list.NoDup_filter, NoDup_seqZ. Qed.

(** When nothing is free after the allocations [qs], at most
    [length qs] blocks were free before. *)
Lemma allocs_exhausted lo bm qs bm' :
  0 <= lo -> allocs lo (Z.of_nat (length bm)) bm qs bm' ->
  no_free lo (Z.of_nat (length bm)) bm' ->
  free_count lo bm <= Z.of_nat (length qs).
Proof.
  intros Hlo Hallocs Hnone. unfold free_count.
  apply inj_le, submseteq_length, NoDup_submseteq; [apply free_list_NoDup|].
  intros q [Hq Hfree]%free_list_spec; [|assumption].
  pose proof (Hnone q Hq) as Hused. unfold is_used in Hused.
  rewrite (allocs_bit _ _ _ _ _ Hlo Hallocs q) in Hused by lia.
  destruct (decide (q ∈ qs)); [assumption|].
  unfold is_free in Hfree. congruence.
Qed.

Lemma file_ok_size_bound lo d bm node ps :
  file_ok lo d bm node ps -> Z.of_nat (length ps) = blocks_of (size node) ->
  0 <= size node /\ size node <= (POINTERS_PER_INODE + POINTERS_PER_BLOCK) * BLOCK_SIZE.
Proof.
  intros [(_ & Hs & _) Hc _ _ _ _] Hlen. unfold blocks_of in Hlen. consts. lia.
Qed.

Lemma inode_ok_set_size node v :
  inode_ok node -> 0 <= v < 2 ^ 32 -> inode_ok (set_size node v).
Proof. intros (Hv & Hs & Hl & Hd & Hi) Hr. repeat split; try assumption; cbn; lia. Qed.

Lemma inode_ok_set_indirect node v :
  inode_ok node -> 0 <= v < 2 ^ 32 -> inode_ok (set_indirect node v).
Proof. intros (Hv & Hs & Hl & Hd & Hi) Hr. repeat split; try assumption; cbn; lia. Qed.

Lemma file_ok_set_size lo d bm node ps v :
  file_ok lo d bm node ps -> 0 <= v < 2 ^ 32 -> file_ok lo d bm (set_size node v) ps.
Proof.
  intros [Hi Hc Hd Hind Hu Hn] Hv. split; try assumption.
  apply inode_ok_set_size; assumption.
Qed.

Lemma lookup_default_ge (l : list Z) (k : nat) :
  (length l <= k)%nat -> default 0 (l !! k) = 0.
Proof. intros H. rewrite lookup_ge_None_2 by assumption. reflexivity. Qed.

Lemma lookup_app_default (ps qs : list Z) (k : nat) :
  default 0 ((ps ++ qs) !! k) =
    if decide (k < length ps)%nat then default 0 (ps !! k)
    else default 0 (qs !! (k - length ps)%nat).
Proof.
  case_decide.
  - rewrite lookup_app_l by assumption. reflexivity.
  - rewrite lookup_app_r by lia. reflexivity.
Qed.

Lemma direct_after_growth node node1 (ps qs1 : list Z) :
  (forall k, 0 <= k < POINTERS_PER_INODE ->
     direct_at node k = default 0 (ps !! Z.to_nat k)) ->
  (forall k, 0 <= k ->
     direct_at node1 k =
       if decide (Z.of_nat (length ps) <= k < Z.of_nat (length ps) + Z.of_nat (length qs1))
       then default 0 (qs1 !! Z.to_nat (k - Z.of_nat (length ps)))
       else direct_at node k) ->
  forall k, 0 <= k < POINTERS_PER_INODE ->
    direct_at node1 k = default 0 ((ps ++ qs1) !! Z.to_nat k).
Proof.
  intros Hold Hnew k Hk. rewrite Hnew by lia. rewrite lookup_app_default.
  repeat case_decide; try lia.
  - f_equal. f_equal. lia.
  - apply Hold. assumption.
  - rewrite Hold by assumption. rewrite !lookup_default_ge by lia. reflexivity.
Qed.

(** What a sequence of allocations means for a file that existed
    before: its blocks stay marked, and the new blocks are different
    from them, from each other, and marked as well. *)
Lemma allocs_file lo d bm ps qs bm' :
  0 <= lo -> allocs lo (blocks d) bm qs bm' ->
  Forall (fun p => lo < p < blocks d /\ is_used bm p) ps -> NoDup ps ->
  Forall (fun p => lo < p < blocks d /\ is_used bm' p) (ps ++ qs) /\ NoDup (ps ++ qs).
Proof.
  intros Hlo Hallocs Hused Hnodup.
  destruct (allocs_free _ _ _ _ _ Hlo Hallocs) as [Hfree Hnd].
  rewrite list.Forall_forall in Hused, Hfree. split.
  - apply Forall_app. split; apply list.Forall_forall; intros p Hin.
    + destruct (Hused p Hin) as [Hr Hu]. split; [assumption|].
      eapply allocs_used; eauto. lia.
    + destruct (Hfree p Hin) as [Hr _]. split; [assumption|].
      unfold is_used. rewrite (allocs_bit _ _ _ _ _ Hlo Hallocs p) by lia.
      rewrite decide_True by assumption. reflexivity.
  - apply list.NoDup_app. split; [assumption|]. split; [|assumption].
    intros p Hin Hin'. destruct (Hused p Hin) as [_ Hu]. destruct (Hfree p Hin') as [_ Hf].
    unfold is_used, is_free in *. congruence.
Qed.

Lemma NoDup_app_middle (l1 l2 : list Z) x :
  NoDup (l1 ++ x :: l2) -> NoDup (l1 ++ l2) /\ x ∉ l1 ++ l2.
Proof.
  intros H. assert (Hp : l1 ++ x :: l2 ≡ₚ x :: (l1 ++ l2)).
  { symmetry. apply Permutation_middle. }
  rewrite Hp in H. apply list.NoDup_cons in H. tauto.
Qed.

(** The block that a growth takes for a new indirect block, if any. *)
Lemma extra_none (a b : Z) :
  a = b \/ b = 0 ->
  (if decide (a = 0 /\ b <> 0) then [b] else []) = [].
Proof. intros H. case_decide; [lia|reflexivity]. Qed.

Lemma fs_expand_file_allocs fs d bm node ps new_size :
  mounted fs d bm ->
  file_ok (inode_blocks (meta_data fs)) d bm node ps ->
  Z.of_nat (length ps) = blocks_of (size node) ->
  0 <= new_size -> new_size + BLOCK_SIZE <= 2 ^ 64 ->
  exists node' fs' d' bm' qs,
    fs_expand_file fs node new_size = Ret (node', fs') /\
    mounted fs' d' bm' /\ meta_data fs' = meta_data fs /\ blocks d' = blocks d /\
    file_ok (inode_blocks (meta_data fs)) d' bm' node' (ps ++ qs) /\
    (valid node' = valid node /\
     (indirect node <> 0 -> indirect node' = indirect node) /\
     (indirect node' = 0 -> image d' = image d)) /\
    Z.of_nat (length (ps ++ qs)) <= Z.max (Z.of_nat (length ps)) (blocks_of new_size) /\
    size node' =
      (if decide (blocks_of new_size <= Z.of_nat (length ps))
       then Z.max (size node) new_size
       else if decide (Z.of_nat (length (ps ++ qs)) = blocks_of new_size) then new_size
       else Z.of_nat (length (ps ++ qs)) * BLOCK_SIZE) /\
    (forall p, 0 <= p -> p <> indirect node' ->
       image d' !! Z.to_nat p = image d !! Z.to_nat p) /\
    (exists taken,
       allocs (inode_blocks (meta_data fs)) (blocks d) bm taken bm' /\
       taken ≡ₚ qs ++ (if decide (indirect node = 0 /\ indirect node' <> 0)
                       then [indirect node'] else [])) /\
    (Z.of_nat (length (ps ++ qs)) < blocks_of new_size ->
     Z.of_nat (length (ps ++ qs)) < POINTERS_PER_INODE + POINTERS_PER_BLOCK ->
     free_count (inode_blocks (meta_data fs)) bm <=
       Z.of_nat (length qs) +
       (if decide (Z.of_nat (length ps) <= POINTERS_PER_INODE
                   <= Z.of_nat (length (ps ++ qs))) then 1 else 0)).
Proof.
  intros Hm Hf Hlen Hns0 Hns1.
  set (lo := inode_blocks (meta_data fs)) in *.
  pose proof (file_ok_size_bound _ _ _ _ _ Hf Hlen) as [Hs0 Hs1].
  pose proof Hf as [Hok Hcount Hdirect Hind Hused Hnodup].
  pose proof Hm as [Hdisk Hbm (Hfd & Hblocks & Himglen & Himgall) Hbmlen Hwritten Hib].
  fold lo in Hib.
  unfold fs_expand_file.
  rewrite upper_round_u32 by zlia. rewrite upper_round_size_t by zlia.
  rewrite <- Hlen. set (A := Z.of_nat (length ps)) in *. set (N := blocks_of new_size) in *.
  assert (HN : 0 <= N /\ new_size <= N * BLOCK_SIZE /\
               ((N - 1) * BLOCK_SIZE < new_size \/ new_size = 0 /\ N = 0)).
  { unfold N, blocks_of. consts. zlia. }
  destruct (Z.ltb_spec A N) as [Hgrow|Hnogrow].
  2:{ exists (set_size node (u32 (Utils.max (size node) new_size))), fs, d, bm, [].
      rewrite app_nil_r. fold A.
      rewrite max_spec, u32_small by (zlia).
      splits; try assumption; try reflexivity; try (intros _; reflexivity); try zlia.
      - apply file_ok_set_size; [assumption|zlia].
      - rewrite decide_True by zlia. reflexivity.
      - exists []. split; [constructor|].
        rewrite extra_none by (left; reflexivity). reflexivity. }
  destruct (expand_direct_spec (Z.to_nat (POINTERS_PER_INODE - A)) A (N - A) node fs d bm Hm)
    as (qs1 & bm1 & node1 & fs1 & Hrun1 & Hm1 & Hmeta1 & Hal1 & Hlen1 & Hmax1 & Hstop1 &
        Hok1 & Hv1 & Hsz1 & Hi1 & Hdir1); [zlia|zlia|zlia|assumption|].
  fold lo in Hal1, Hstop1.
  rewrite Hrun1. cbn [obind].
  pose proof (direct_after_growth node node1 ps qs1 Hdirect Hdir1) as Hdirect1.
  pose proof (allocs_file lo d bm ps qs1 bm1 ltac:(zlia) Hal1 Hused Hnodup) as [Hused1 Hnodup1].
  set (idx1 := A + Z.of_nat (length qs1)) in *.
  set (dif1 := N - A - Z.of_nat (length qs1)) in *.
  assert (Hlen_app1 : Z.of_nat (length (ps ++ qs1)) = idx1).
  { rewrite length_app. unfold idx1, A. zlia. }
  destruct (Z.geb_spec idx1 POINTERS_PER_INODE) as [Hfull|Hroom].
  2:{ cbn [obind].
      exists (set_size node1 (u32 (if negb (dif1 =? 0) then (N - dif1) * BLOCK_SIZE else new_size))),
        fs1, d, bm1, qs1.
      assert (Hsize : u32 (if negb (dif1 =? 0) then (N - dif1) * BLOCK_SIZE else new_size)
                = if decide (idx1 = N) then new_size else idx1 * BLOCK_SIZE).
      { destruct (Z.eqb_spec dif1 0); cbn [negb].
        - rewrite decide_True by zlia. apply u32_small. zlia.
        - rewrite decide_False by zlia.
          replace (N - dif1) with idx1 by zlia. apply u32_small. consts. zlia. }
      rewrite Hsize, Hlen_app1.
      split; [reflexivity|]. split; [exact Hm1|]. split; [exact Hmeta1|].
      split; [reflexivity|]. split.
      { apply file_ok_set_size; [|case_decide; zlia].
        split; try assumption; [zlia|].
        rewrite decide_True by zlia.
        rewrite decide_True in Hind by zlia. congruence. }
      split; [split; [exact Hv1|split; [intros Hnz0; cbn [indirect set_size set_indirect];
      first [exact Hi1 | exfalso; apply Hnz0; rewrite <- Hi1; apply Z.eqb_eq; assumption]
      |intros Hz0; cbn [indirect set_size set_indirect] in Hz0;
       first [reflexivity | exfalso; rewrite ?Hi1 in Hz0; zlia]]]|]. split; [zlia|]. split.
      { cbn [size set_size]. rewrite (decide_False (P := N <= A)) by zlia. reflexivity. }
      split; [reflexivity|].
      split.
      { exists qs1. split; [exact Hal1|].
        rewrite extra_none by (left; cbn [indirect set_size]; congruence).
        rewrite app_nil_r. reflexivity. }
      intros Hlt _. rewrite decide_False by zlia.
      destruct Hstop1 as [?|[?|Hnone]]; [zlia|zlia|].
      pose proof (allocs_exhausted lo bm qs1 bm1 ltac:(zlia)) as Hex.
      rewrite Hbmlen, Z2Nat.id in Hex by zlia.
      specialize (Hex Hal1 Hnone). zlia. }
  (* the direct pointers are used up *)
  cbn [obind].
  assert (Hsize : forall dif2 A', dif2 = N - A' -> A <= A' <= N ->
            A' <= POINTERS_PER_INODE + POINTERS_PER_BLOCK ->
            u32 (if negb (dif2 =? 0) then (N - dif2) * BLOCK_SIZE else new_size)
            = if decide (A' = N) then new_size else A' * BLOCK_SIZE).
  { intros dif2 A' -> HA' Hcap. destruct (Z.eqb_spec (N - A') 0); cbn [negb].
    - rewrite decide_True by zlia. apply u32_small. zlia.
    - rewrite decide_False by zlia.
      replace (N - (N - A')) with A' by zlia. apply u32_small. zlia. }
  destruct (decide (A <= POINTERS_PER_INODE)) as [Hsmall|Hlarge].
  2:{ (* the file has an indirect block already *)
      destruct Hind as (Hirange & Hiused & Hinotin & pointers & Hpointers & Hwords).
      assert (Hqs1 : qs1 = []) by (destruct qs1; [reflexivity|cbn [length] in *; zlia]).
      subst qs1. apply allocs_nil_inv in Hal1. subst bm1. cbn [length] in *.
      assert (Hnz : (indirect node1 =? 0) = false) by (apply Z.eqb_neq; zlia).
      rewrite Hnz. cbn [obind negb]. rewrite Hnz. cbn [negb]. rewrite !Hi1.
      rewrite (m_disk _ _ _ Hm1).
      rewrite (disk_read_ok d _ None pointers) by (first [assumption|zlia]).
      change (BLOCK_SIZE =? 0) with false. cbv iota.
      assert (Hm1' : mounted (set_disk fs1 (Some (count_read d))) (count_read d) bm).
      { apply (mounted_set_disk fs1 d bm); [assumption|exact (m_disk_ok _ _ _ Hm)|reflexivity]. }
      assert (Hpblock : is_block pointers).
      { rewrite list.Forall_forall in Himgall. apply Himgall.
        eapply list_elem_of_lookup_2. exact Hpointers. }
      destruct (expand_indirect_spec (Z.to_nat (POINTERS_PER_BLOCK - (idx1 - POINTERS_PER_INODE)))
                  (idx1 - POINTERS_PER_INODE) dif1 pointers _ _ _ Hm1')
        as (qs2 & bm2 & pointers2 & fs2 & Hrun2 & Hm2 & Hmeta2 & Hal2 & Hlen2 & Hmax2 &
            Hstop2 & Hblock2 & Hwords2); [zlia|zlia|zlia|assumption|].
      cbn [meta_data set_disk blocks count_read] in Hal2, Hstop2.
      rewrite Hmeta1 in Hal2, Hstop2. fold lo in Hal2, Hstop2.
      rewrite Hrun2. cbn [obind]. rewrite andb_false_r. cbn [initialised obind].
      rewrite (m_disk _ _ _ Hm2).
      rewrite disk_write_ok by (cbn; zlia).
      change (BLOCK_SIZE =? 0) with false. cbv iota.
      set (d' := store_block (count_read d) (indirect node) pointers2).
      set (A' := A + Z.of_nat (length qs2)).
      assert (HA' : Z.of_nat (length (ps ++ qs2)) = A') by (rewrite length_app; unfold A', A; lia).
      pose proof (allocs_file lo d bm ps qs2 bm2 ltac:(zlia) Hal2 Hused Hnodup) as [Hused2 Hnodup2].
      destruct (allocs_free lo _ _ _ _ ltac:(zlia) Hal2) as [Hfree2 _].
      eexists (set_size node1 _), _, d', bm2, qs2.
      split; [reflexivity|].
      split.
      { apply (mounted_set_disk fs2 (count_read d) bm2); [assumption| |reflexivity].
        apply disk_ok_store_block; [exact (m_disk_ok _ _ _ Hm)|assumption]. }
      split; [cbn [meta_data set_disk] in *; congruence|]. split; [reflexivity|].
      rewrite (Hsize _ A') by (unfold A', dif1, idx1 in *; zlia).
      rewrite HA'.
      split.
      { apply file_ok_set_size; [|case_decide; zlia].
        split; try assumption.
        - zlia.
        - intros k Hk. rewrite Hdirect1 by assumption.
          rewrite !lookup_app_default. rewrite !decide_True by zlia. reflexivity.
        - rewrite decide_False by zlia. rewrite Hi1.
          split; [exact Hirange|]. split; [apply (allocs_used lo _ _ _ _ _ ltac:(zlia) Hal2); [zlia|assumption]|].
          split.
          { intros [Hin|Hin]%elem_of_app; [contradiction|].
            rewrite list.Forall_forall in Hfree2. destruct (Hfree2 _ Hin) as [_ Hfr].
            unfold is_free, is_used in *. congruence. }
          exists pointers2. split.
          { cbn [image d' store_block count_read]. apply list_lookup_insert_eq. zlia. }
          intros j Hj. rewrite Hwords2 by zlia. rewrite lookup_app_default.
          repeat case_decide; try zlia.
          + f_equal. f_equal. unfold idx1, A in *. zlia.
          + rewrite Hwords by assumption. reflexivity.
          + rewrite Hwords by assumption.
            rewrite !lookup_default_ge by (unfold idx1, A in *; zlia). reflexivity. }
      split; [split; [exact Hv1|split; [intros Hnz0; cbn [indirect set_size set_indirect];
      first [exact Hi1 | exfalso; apply Hnz0; rewrite <- Hi1; apply Z.eqb_eq; assumption]
      |intros Hz0; cbn [indirect set_size set_indirect] in Hz0;
       first [reflexivity | exfalso; rewrite ?Hi1 in Hz0; zlia]]]|]. split; [zlia|]. split.
      { cbn [size set_size]. rewrite (decide_False (P := N <= A)) by zlia. reflexivity. }
      split.
      { intros p Hp Hne. cbn [indirect set_size] in Hne. rewrite Hi1 in Hne.
        cbn [image d' store_block count_read]. apply list_lookup_insert_ne. zlia. }
      split.
      { exists qs2. split; [exact Hal2|].
        rewrite extra_none by (left; cbn [indirect set_size]; congruence).
        rewrite app_nil_r. reflexivity. }
      intros Hlt Hcap. rewrite decide_False by zlia.
      destruct Hstop2 as [?|[?|Hnone]]; [unfold A', idx1 in *; zlia|unfold A', dif1 in *; zlia|].
      pose proof (allocs_exhausted lo bm qs2 bm2 ltac:(zlia)) as Hex.
      rewrite Hbmlen, Z2Nat.id in Hex by zlia.
      specialize (Hex Hal2 Hnone). zlia. }
  (* no indirect block yet *)
  assert (Hidx1 : idx1 = POINTERS_PER_INODE) by zlia.
  assert (Hz : (indirect node1 =? 0) = true) by (apply Z.eqb_eq; congruence).
  rewrite Hz. cbn [negb].
  pose proof (m_disk_ok _ _ _ Hm) as Hdok.
  pose proof (alloc_step fs1 d bm1 Hm1) as Hstep. cbv zeta in Hstep.
  rewrite Hmeta1 in Hstep. fold lo in Hstep.
  destruct Hstep as [[Hret Hnone]|(r & Hret & Hr & Hfree)]; rewrite Hret; cbn [obind].
  { (* no block for the indirect block *)
    change (-1 =? -1) with true. cbn [negb obind]. rewrite Hz. cbn [negb obind].
    eexists (set_size node1 _), fs1, d, bm1, qs1.
    rewrite (Hsize _ idx1) by (unfold dif1, idx1 in *; zlia).
    rewrite Hlen_app1.
    split; [reflexivity|]. split; [exact Hm1|]. split; [exact Hmeta1|].
    split; [reflexivity|]. split.
    { apply file_ok_set_size; [|case_decide; zlia].
      split; try assumption; [zlia|].
      rewrite decide_True by zlia. congruence. }
    split; [split; [exact Hv1|split; [intros Hnz0; cbn [indirect set_size set_indirect];
      first [exact Hi1 | exfalso; apply Hnz0; rewrite <- Hi1; apply Z.eqb_eq; assumption]
      |intros Hz0; cbn [indirect set_size set_indirect] in Hz0;
       first [reflexivity | exfalso; rewrite ?Hi1 in Hz0; zlia]]]|]. split; [zlia|]. split.
    { cbn [size set_size]. rewrite (decide_False (P := N <= A)) by zlia. reflexivity. }
    split; [reflexivity|].
    split.
    { exists qs1. split; [exact Hal1|].
      rewrite extra_none by (left; cbn [indirect set_size]; congruence).
      rewrite app_nil_r. reflexivity. }
    intros Hlt _.
    pose proof (allocs_exhausted lo bm qs1 bm1 ltac:(zlia)) as Hex.
    rewrite Hbmlen, Z2Nat.id in Hex by zlia.
    specialize (Hex Hal1 Hnone). case_decide; zlia. }
  destruct (Z.eqb_spec r (-1)) as [E|_]; [zlia|]. cbn [negb obind indirect set_indirect].
  rewrite u32_small by zlia.
  destruct (Z.eqb_spec r 0) as [E|_]; [zlia|]. cbn [negb].
  set (bm1r := <[Z.to_nat r := Some false]> bm1) in *.
  assert (Hal1r : allocs lo (blocks d) bm (qs1 ++ [r]) bm1r).
  { eapply allocs_app; [exact Hal1|]. econstructor; [assumption|assumption|constructor]. }
  cbn [disk set_free_blocks]. rewrite (m_disk _ _ _ Hm1).
  destruct (disk_ok_lookup d r Hdok ltac:(zlia)) as (br & Hbr & _).
  rewrite (disk_read_ok d _ None br) by (first [assumption|zlia]).
  change (BLOCK_SIZE =? 0) with false. cbv iota.
  assert (Hm1r : mounted (set_disk (set_free_blocks fs1 (Some bm1r)) (Some (count_read d)))
                   (count_read d) bm1r).
  { apply (mounted_set_disk _ d bm1r); [|exact Hdok|reflexivity].
    apply (mounted_set_free_blocks fs1 d bm1); [assumption|apply length_insert|].
    apply Forall_insert; [exact (m_bitmap_written _ _ _ Hm1)|eexists; reflexivity]. }
  destruct (expand_indirect_spec (Z.to_nat (POINTERS_PER_BLOCK - (idx1 - POINTERS_PER_INODE)))
              (idx1 - POINTERS_PER_INODE) dif1 zero_block _ _ _ Hm1r)
    as (qs2 & bm2 & pointers2 & fs2 & Hrun2 & Hm2 & Hmeta2 & Hal2 & Hlen2 & Hmax2 &
        Hstop2 & Hblock2 & Hwords2); [zlia|zlia|zlia|apply is_block_zero|].
  cbn [meta_data set_disk set_free_blocks blocks count_read] in Hal2, Hstop2, Hmeta2.
  rewrite Hmeta1 in Hal2, Hstop2, Hmeta2. fold lo in Hal2, Hstop2.
  rewrite Hrun2. cbn [obind]. rewrite andb_true_r.
  replace (idx1 - POINTERS_PER_INODE) with 0 in * by zlia.
  destruct (Z.eqb_spec (0 + Z.of_nat (length qs2)) 0) as [Hnone2|Hsome2].
  { (* not one data block behind the new indirect block: give it back *)
    assert (Hqs2 : qs2 = []) by (destruct qs2; [reflexivity|cbn [length] in *; zlia]).
    subst qs2. apply allocs_nil_inv in Hal2. subst bm2. cbn [length] in *.
    unfold fs_release_free_block. rewrite (m_bitmap _ _ _ Hm2).
    assert (Hrlt : (Z.to_nat r < length bm1)%nat) by (eapply bit_lt; exact Hfree).
    rewrite (bitmap_get_bit bm1r r false) by (apply bit_insert_eq; assumption).
    cbn [negb obind]. rewrite bitmap_set_in by (unfold bm1r; rewrite length_insert; zlia).
    cbn [obind].
    assert (Hback : <[Z.to_nat r := Some true]> bm1r = bm1).
    { unfold bm1r. rewrite list_insert_insert_eq. apply list_insert_id. exact Hfree. }
    rewrite Hback.
    eexists (set_size (set_indirect (set_indirect node1 r) 0) _), _, (count_read d), bm1, qs1.
    rewrite (Hsize _ idx1) by (unfold dif1, idx1 in *; zlia).
    rewrite Hlen_app1.
    split; [reflexivity|]. split.
    { apply (mounted_set_free_blocks fs2 (count_read d) bm1r); [assumption| |].
      - unfold bm1r. rewrite length_insert. reflexivity.
      - exact (m_bitmap_written _ _ _ Hm1). }
    split; [cbn [meta_data set_free_blocks]; congruence|].
    split; [reflexivity|]. split.
    { apply file_ok_set_size; [|case_decide; zlia].
      split; try assumption.
      - apply inode_ok_set_indirect; [|zlia]. apply inode_ok_set_indirect; [assumption|zlia].
      - zlia.
      - rewrite decide_True by zlia. reflexivity. }
    split; [split; [exact Hv1|split; [intros Hnz0; cbn [indirect set_size set_indirect];
      first [exact Hi1 | exfalso; apply Hnz0; rewrite <- Hi1; apply Z.eqb_eq; assumption]
      |intros Hz0; cbn [indirect set_size set_indirect] in Hz0;
       first [reflexivity | exfalso; rewrite ?Hi1 in Hz0; zlia]]]|]. split; [zlia|]. split.
    { cbn [size set_size]. rewrite (decide_False (P := N <= A)) by zlia. reflexivity. }
    split; [reflexivity|].
    split.
    { exists qs1. split; [exact Hal1|].
      rewrite extra_none by (right; reflexivity).
      rewrite app_nil_r. reflexivity. }
    intros Hlt _. rewrite decide_True by zlia.
    destruct Hstop2 as [?|[?|Hnone]]; [zlia|unfold dif1, idx1 in *; zlia|].
    pose proof (allocs_exhausted lo bm (qs1 ++ [r]) bm1r ltac:(zlia)) as Hex.
    rewrite Hbmlen, Z2Nat.id in Hex by zlia.
    specialize (Hex Hal1r Hnone). rewrite length_app in Hex. cbn [length] in Hex. zlia. }
  (* data blocks behind the new indirect block: write it *)
  cbn [initialised obind]. rewrite (m_disk _ _ _ Hm2).
  rewrite disk_write_ok by (cbn; zlia).
  change (BLOCK_SIZE =? 0) with false. cbv iota.
  set (d' := store_block (count_read d) r pointers2).
  set (A' := POINTERS_PER_INODE + Z.of_nat (length qs2)).
  assert (Hal : allocs lo (blocks d) bm (qs1 ++ r :: qs2) bm2).
  { eapply allocs_app; [exact Hal1|]. econstructor; eassumption. }
  pose proof (allocs_file lo d bm ps _ bm2 ltac:(zlia) Hal Hused Hnodup) as [HusedQ HnodupQ].
  rewrite app_assoc in HusedQ, HnodupQ.
  apply NoDup_app_middle in HnodupQ as [Hnodup' Hrnotin].
  apply list.Forall_app in HusedQ as [Hu1 Hu2]. apply list.Forall_cons in Hu2 as [[_ Hur] Hu2].
  rewrite <- app_assoc in Hnodup', Hrnotin.
  assert (HA' : Z.of_nat (length (ps ++ qs1 ++ qs2)) = A').
  { rewrite app_assoc, length_app, Nat2Z.inj_add, Hlen_app1. unfold A'. zlia. }
  eexists (set_size (set_indirect node1 r) _), _, d', bm2, (qs1 ++ qs2).
  cbn [obind].
  rewrite (Hsize _ A') by (unfold A', dif1, idx1 in *; zlia).
  rewrite HA'.
  split; [reflexivity|]. split.
  { apply (mounted_set_disk fs2 (count_read d) bm2); [assumption| |reflexivity].
    apply disk_ok_store_block; assumption. }
  split; [cbn [meta_data set_disk]; congruence|].
  split; [reflexivity|]. split.
  { apply file_ok_set_size; [|case_decide; zlia].
    split.
    - apply inode_ok_set_indirect; [assumption|zlia].
    - zlia.
    - intros k Hk. change (direct_at (set_indirect node1 r) k) with (direct_at node1 k).
      rewrite Hdirect1 by assumption.
      rewrite (app_assoc ps qs1 qs2), (lookup_app_default (ps ++ qs1) qs2).
      rewrite decide_True by zlia. reflexivity.
    - rewrite decide_False by zlia. cbn [indirect set_indirect].
      split; [assumption|]. split; [exact Hur|]. split; [exact Hrnotin|].
      exists pointers2. split.
      { cbn [image d' store_block count_read]. apply list_lookup_insert_eq. zlia. }
      intros j Hj. rewrite Hwords2 by zlia.
      rewrite (app_assoc ps qs1 qs2), (lookup_app_default (ps ++ qs1) qs2).
      rewrite (decide_False (P := (_ < _)%nat)) by zlia.
      case_decide.
      + f_equal. f_equal. zlia.
      + rewrite get_word_zero_block. rewrite lookup_default_ge by zlia. reflexivity.
    - rewrite app_assoc. apply Forall_app. split; assumption.
    - assumption. }
  split; [split; [exact Hv1|split; [intros Hnz0; cbn [indirect set_size set_indirect];
      first [exact Hi1 | exfalso; apply Hnz0; rewrite <- Hi1; apply Z.eqb_eq; assumption]
      |intros Hz0; cbn [indirect set_size set_indirect] in Hz0;
       first [reflexivity | exfalso; rewrite ?Hi1 in Hz0; zlia]]]|]. split; [zlia|]. split.
  { cbn [size set_size]. rewrite (decide_False (P := N <= A)) by zlia. reflexivity. }
  split.
  { intros p Hp Hne. cbn [indirect set_size set_indirect] in Hne.
    cbn [image d' store_block count_read]. apply list_lookup_insert_ne. zlia. }
  split.
  { exists (qs1 ++ r :: qs2). split; [exact Hal|].
    cbn [indirect set_size set_indirect].
    rewrite decide_True by (split; [assumption|zlia]).
    rewrite <- Permutation_middle, <- Permutation_cons_append. reflexivity. }
  intros Hlt Hcap. rewrite decide_True by zlia.
  destruct Hstop2 as [?|[?|Hnone]]; [unfold A' in *; zlia|unfold A', dif1, idx1 in *; zlia|].
  pose proof (allocs_exhausted lo bm (qs1 ++ r :: qs2) bm2 ltac:(zlia)) as Hex.
  rewrite Hbmlen, Z2Nat.id in Hex by zlia.
  specialize (Hex Hal Hnone). rewrite !length_app in *. cbn [length] in Hex. zlia.
Qed.

Lemma fs_expand_file_spec fs d bm node ps new_size :
  mounted fs d bm ->
  file_ok (inode_blocks (meta_data fs)) d bm node ps ->
  Z.of_nat (length ps) = blocks_of (size node) ->
  0 <= new_size -> new_size + BLOCK_SIZE <= 2 ^ 64 ->
  exists node' fs' d' bm' qs,
    fs_expand_file fs node new_size = Ret (node', fs') /\
    mounted fs' d' bm' /\ meta_data fs' = meta_data fs /\ blocks d' = blocks d /\
    file_ok (inode_blocks (meta_data fs)) d' bm' node' (ps ++ qs) /\
    valid node' = valid node /\
    Z.of_nat (length (ps ++ qs)) <= Z.max (Z.of_nat (length ps)) (blocks_of new_size) /\
    size node' =
      (if decide (blocks_of new_size <= Z.of_nat (length ps))
       then Z.max (size node) new_size
       else if decide (Z.of_nat (length (ps ++ qs)) = blocks_of new_size) then new_size
       else Z.of_nat (length (ps ++ qs)) * BLOCK_SIZE) /\
    (forall p, 0 <= p -> p <> indirect node' ->
       image d' !! Z.to_nat p = image d !! Z.to_nat p) /\
    (Z.of_nat (length (ps ++ qs)) < blocks_of new_size ->
     Z.of_nat (length (ps ++ qs)) < POINTERS_PER_INODE + POINTERS_PER_BLOCK ->
     free_count (inode_blocks (meta_data fs)) bm <=
       Z.of_nat (length qs) +
       (if decide (Z.of_nat (length ps) <= POINTERS_PER_INODE
                   <= Z.of_nat (length (ps ++ qs))) then 1 else 0)).
Proof.
  intros Hm Hf Hlen Hns0 Hns1.
  destruct (fs_expand_file_allocs fs d bm node ps new_size Hm Hf Hlen Hns0 Hns1)
    as (node' & fs' & d' & bm' & qs & Hrun & Hm' & Hmeta & Hbl & Hf' & (Hv & _) & Hcnt & Hsize &
        Hframe & _ & Hamount).
  exists node', fs', d', bm', qs. splits; assumption.
Qed.

(** * The copying loops of [fs_write] *)

Lemma copy_to_block_ok b off data from sz :
  off + sz <= BLOCK_SIZE -> from + sz <= Z.of_nat (length data) ->
  copy_to_block b off data from sz = Ret (overlay b off data from sz).
Proof.
  intros H1 H2. unfold copy_to_block.
  destruct (Z.leb_spec (off + sz) BLOCK_SIZE); [|lia].
  destruct (Z.leb_spec (from + sz) (Z.of_nat (length data))); [|lia].
  reflexivity.
Qed.

Lemma is_block_overlay b off data from sz :
  is_block b -> 0 <= off -> 0 <= sz -> off + sz <= BLOCK_SIZE ->
  0 <= from -> from + sz <= Z.of_nat (length data) ->
  is_block (overlay b off data from sz).
Proof.
  unfold is_block, overlay. intros Hb H0 H1 H2 H3 H4.
  rewrite !length_app, !length_take, !length_drop. lia.
Qed.

Lemma write_blocks_cons data len p l c :
  write_blocks data len (p :: l) c = write_blocks data len l (write_block data len c p).
Proof. reflexivity. Qed.

Lemma write_blocks_app data len l1 l2 c :
  write_blocks data len (l1 ++ l2) c = write_blocks data len l2 (write_blocks data len l1 c).
Proof. apply fold_left_app. Qed.

Lemma write_blocks_done data len l i off bw img :
  len <= bw -> write_blocks data len l (i, off, bw, img) = (i, off, bw, img).
Proof.
  intros H. induction l as [|p l IH]; [reflexivity|].
  rewrite write_blocks_cons. unfold write_block.
  destruct (Z.ltb_spec bw len); [lia|]. exact IH.
Qed.

(** A short count means every block of the list was written to. *)
Lemma write_blocks_short data len l : forall i off bw img i' off' bw' img',
  write_blocks data len l (i, off, bw, img) = (i', off', bw', img') ->
  bw' < len -> i' = i + Z.of_nat (length l).
Proof.
  induction l as [|p l IH]; intros i off bw img i' off' bw' img' H Hlt.
  - injection H as <- <- <- <-. cbn [length]. lia.
  - rewrite write_blocks_cons in H. unfold write_block in H.
    destruct (Z.ltb_spec bw len).
    + apply IH in H; [|assumption]. cbn [length]. lia.
    + rewrite write_blocks_done in H by assumption. injection H as <- <- <- <-. lia.
Qed.

(** The bytes written fit behind the starting position in the blocks
    that were written to. *)
Lemma write_blocks_count data len l : forall i off bw img i' off' bw' img',
  write_blocks data len l (i, off, bw, img) = (i', off', bw', img') ->
  0 <= off < BLOCK_SIZE -> bw <= len ->
  i <= i' <= i + Z.of_nat (length l) /\ bw <= bw' <= len /\
  (i' = i -> bw' = bw) /\
  bw' - bw <= (i' - i) * BLOCK_SIZE - (if decide (i' = i) then 0 else off) /\
  (bw' < len -> bw' - bw = (i' - i) * BLOCK_SIZE - (if decide (i' = i) then 0 else off)) /\
  length img' = length img.
Proof.
  induction l as [|p l IH]; intros i off bw img i' off' bw' img' H Hoff Hbw.
  - injection H as <- <- <- <-. cbn [length]. rewrite decide_True by reflexivity. lia.
  - rewrite write_blocks_cons in H. unfold write_block in H.
    destruct (Z.ltb_spec bw len).
    + apply IH in H; [|zlia|lia]. rewrite length_insert in H.
      destruct H as (Hi & Hb & Hz & Hc & Hs & Hl). cbn [length].
      rewrite (decide_False (P := i' = i)) by lia.
      destruct (decide (i' = i + 1)) as [->|Hne]; split; try split; try split; try split;
        try split; try lia; try assumption.
    + rewrite write_blocks_done in H by assumption. injection H as <- <- <- <-.
      cbn [length]. rewrite decide_True by reflexivity. lia.
Qed.

(** Blocks outside the list keep their contents. *)
Lemma write_blocks_frame data len l : forall i off bw img i' off' bw' img' q,
  write_blocks data len l (i, off, bw, img) = (i', off', bw', img') ->
  0 <= q -> Forall (fun p => 0 <= p) l -> q ∉ l -> img' !! Z.to_nat q = img !! Z.to_nat q.
Proof.
  induction l as [|p l IH]; intros i off bw img i' off' bw' img' q H Hq Hpos Hnotin.
  - injection H as <- <- <- <-. reflexivity.
  - rewrite write_blocks_cons in H. unfold write_block in H.
    apply list.Forall_cons in Hpos as [Hp Hpos].
    apply not_elem_of_cons in Hnotin as [Hne Hnotin].
    destruct (Z.ltb_spec bw len).
    + rewrite (IH _ _ _ _ _ _ _ _ q H) by assumption.
      apply list_lookup_insert_ne. lia.
    + rewrite write_blocks_done in H by assumption. injection H as <- <- <- <-. reflexivity.
Qed.

Lemma write_blocks_is_block data len l : forall i off bw img i' off' bw' img',
  write_blocks data len l (i, off, bw, img) = (i', off', bw', img') ->
  0 <= off < BLOCK_SIZE -> 0 <= bw -> len <= Z.of_nat (length data) ->
  Forall (fun p => 0 <= p < Z.of_nat (length img)) l ->
  Forall is_block img -> Forall is_block img'.
Proof.
  induction l as [|p l IH]; intros i off bw img i' off' bw' img' H Hoff Hbw Hlen Hin Hall.
  - injection H as <- <- <- <-. assumption.
  - rewrite write_blocks_cons in H. unfold write_block in H.
    apply list.Forall_cons in Hin as [Hp Hin].
    destruct (Z.ltb_spec bw len).
    + apply IH in H; try assumption; try zlia.
      * rewrite length_insert. assumption.
      * apply Forall_insert; [assumption|].
        destruct (lookup_lt_is_Some_2 img (Z.to_nat p)) as [b Hb]; [lia|].
        rewrite Hb. cbn [default from_option id].
        apply is_block_overlay; try lia.
        rewrite Forall_lookup in Hall. eauto.
    + rewrite write_blocks_done in H by assumption. injection H as <- <- <- <-. assumption.
Qed.

Lemma write_direct_spec inode data len ps bm :
  forall n i off bw blk fs d i' off' bw' img',
  mounted fs d bm ->
  (forall k, 0 <= k < POINTERS_PER_INODE ->
     direct_at inode k = default 0 (ps !! Z.to_nat k)) ->
  Forall (fun p => 0 < p < blocks d) ps ->
  0 <= i -> 0 <= off < BLOCK_SIZE -> 0 <= bw -> len <= Z.of_nat (length data) ->
  n = Z.to_nat (POINTERS_PER_INODE - i) ->
  write_blocks data len (take n (drop (Z.to_nat i) ps)) (i, off, bw, image d)
    = (i', off', bw', img') ->
  exists blk' fs' d',
    write_direct n inode data len i off bw blk fs = Ret (None, (i', off', bw', blk'), fs') /\
    mounted fs' d' bm /\ meta_data fs' = meta_data fs /\ blocks d' = blocks d /\
    image d' = img'.
Proof.
  induction n as [|n IH]; intros i off bw blk fs d i' off' bw' img' Hm Hdirect Hps
    Hi Hoff Hbw Hlen Hn H.
  - rewrite take_0 in H. injection H as <- <- <- <-.
    exists blk, fs, d. cbn [write_direct]. splits; try reflexivity; assumption.
  - cbn [write_direct]. destruct (Z.ltb_spec i POINTERS_PER_INODE); [|zlia].
    rewrite Hdirect by lia.
    pose proof (m_disk_ok _ _ _ Hm) as Hok. pose proof Hok as (Hfd & Hbl & Himg & Hall).
    destruct (ps !! Z.to_nat i) as [p|] eqn:Hp.
    + cbn [default from_option id].
      assert (Hpr : 0 < p < blocks d).
      { rewrite list.Forall_forall in Hps. apply Hps. eapply list_elem_of_lookup_2. exact Hp. }
      destruct (Z.eqb_spec p 0); [lia|]. cbn [negb andb].
      rewrite (drop_S _ _ _ Hp) in H. cbn [take] in H.
      rewrite write_blocks_cons in H. unfold write_block in H.
      destruct (Z.ltb_spec bw len).
      * rewrite (m_disk _ _ _ Hm).
        destruct (disk_ok_lookup d p Hok ltac:(lia)) as [b [Hb Hbb]].
        rewrite (disk_read_ok d p blk b) by (assumption || lia).
        cbn [set_disk disk]. change (BLOCK_SIZE =? 0) with false. cbv iota.
        cbn [initialised obind]. rewrite min_spec.
        rewrite copy_to_block_ok by lia. cbn [obind].
        rewrite disk_write_ok by (cbn; lia).
        rewrite Hb in H. cbn [default from_option id] in H.
        set (b' := overlay b off data bw (Z.min (BLOCK_SIZE - off) (len - bw))) in *.
        set (d1 := store_block (count_read d) p b').
        set (fs1 := set_disk (set_disk fs (Some (count_read d))) (Some d1)).
        assert (Hm1 : mounted fs1 d1 bm).
        { apply (mounted_set_disk _ (count_read d) bm).
          - apply (mounted_set_disk fs d bm); [assumption|assumption|reflexivity].
          - apply disk_ok_store_block; [assumption|].
            apply is_block_overlay; try assumption; lia.
          - reflexivity. }
        destruct (IH (i + 1) 0 (bw + Z.min (BLOCK_SIZE - off) (len - bw)) (Some b') fs1 d1
                    i' off' bw' img' Hm1 Hdirect) as (blk' & fs' & d' & Hrun & Hm' & Hmeta & Hbl' & Himg');
          try assumption; try zlia.
        { replace (Z.to_nat (i + 1)) with (S (Z.to_nat i)) by lia. exact H. }
        exists blk', fs', d'. split; [exact Hrun|]. split; [assumption|].
        split; [rewrite Hmeta; reflexivity|]. split; [rewrite Hbl'; reflexivity|assumption].
      * rewrite write_blocks_done in H by assumption. injection H as <- <- <- <-.
        exists blk, fs, d. splits; try reflexivity; assumption.
    + cbn [default from_option id]. cbn [Z.eqb negb andb].
      rewrite drop_ge in H by (apply lookup_ge_None; assumption).
      rewrite take_nil in H. injection H as <- <- <- <-.
      exists blk, fs, d. splits; try reflexivity; assumption.
Qed.

Lemma write_indirect_spec pointers data len ps bm :
  forall n j off bw blk fs d i' off' bw' img',
  mounted fs d bm ->
  (forall k, 0 <= k < POINTERS_PER_BLOCK ->
     get_word pointers k = default 0 (ps !! Z.to_nat (POINTERS_PER_INODE + k))) ->
  Forall (fun p => 0 < p < blocks d) ps ->
  0 <= j -> 0 <= off < BLOCK_SIZE -> 0 <= bw -> len <= Z.of_nat (length data) ->
  n = Z.to_nat (POINTERS_PER_BLOCK - j) ->
  write_blocks data len (take n (drop (Z.to_nat (POINTERS_PER_INODE + j)) ps))
    (j, off, bw, image d) = (i', off', bw', img') ->
  exists blk' fs' d',
    write_indirect n (Some pointers) data len j off bw blk fs
      = Ret ((i', off', bw', blk'), fs') /\
    mounted fs' d' bm /\ meta_data fs' = meta_data fs /\ blocks d' = blocks d /\
    image d' = img'.
Proof.
  induction n as [|n IH]; intros j off bw blk fs d i' off' bw' img' Hm Hwords Hps
    Hj Hoff Hbw Hlen Hn H.
  - rewrite take_0 in H. injection H as <- <- <- <-.
    exists blk, fs, d. cbn [write_indirect]. splits; try reflexivity; assumption.
  - cbn [write_indirect]. destruct (Z.ltb_spec j POINTERS_PER_BLOCK); [|zlia].
    cbn [initialised obind]. rewrite Hwords by lia.
    pose proof (m_disk_ok _ _ _ Hm) as Hok. pose proof Hok as (Hfd & Hbl & Himg & Hall).
    destruct (ps !! Z.to_nat (POINTERS_PER_INODE + j)) as [p|] eqn:Hp.
    + cbn [default from_option id].
      assert (Hpr : 0 < p < blocks d).
      { rewrite list.Forall_forall in Hps. apply Hps. eapply list_elem_of_lookup_2. exact Hp. }
      destruct (Z.eqb_spec p 0); [lia|]. cbn [negb andb].
      rewrite (drop_S _ _ _ Hp) in H. cbn [take] in H.
      rewrite write_blocks_cons in H. unfold write_block in H.
      destruct (Z.ltb_spec bw len).
      * rewrite (m_disk _ _ _ Hm).
        destruct (disk_ok_lookup d p Hok ltac:(lia)) as [b [Hb Hbb]].
        rewrite (disk_read_ok d p blk b) by (assumption || lia).
        cbn [set_disk disk]. change (BLOCK_SIZE =? 0) with false. cbv iota.
        cbn [initialised obind]. rewrite min_spec.
        rewrite copy_to_block_ok by lia. cbn [obind].
        rewrite disk_write_ok by (cbn; lia).
        change (BLOCK_SIZE =? 0) with false. cbv iota.
        rewrite Hb in H. cbn [default from_option id] in H.
        set (b' := overlay b off data bw (Z.min (BLOCK_SIZE - off) (len - bw))) in *.
        set (d1 := store_block (count_read d) p b').
        set (fs1 := set_disk (set_disk fs (Some (count_read d))) (Some d1)).
        assert (Hm1 : mounted fs1 d1 bm).
        { apply (mounted_set_disk _ (count_read d) bm).
          - apply (mounted_set_disk fs d bm); [assumption|assumption|reflexivity].
          - apply disk_ok_store_block; [assumption|].
            apply is_block_overlay; try assumption; lia.
          - reflexivity. }
        destruct (IH (j + 1) 0 (bw + Z.min (BLOCK_SIZE - off) (len - bw)) (Some b') fs1 d1
                    i' off' bw' img' Hm1 Hwords) as (blk' & fs' & d' & Hrun & Hm' & Hmeta & Hbl' & Himg');
          try assumption; try zlia.
        { replace (Z.to_nat (POINTERS_PER_INODE + (j + 1)))
            with (S (Z.to_nat (POINTERS_PER_INODE + j))) by zlia. exact H. }
        exists blk', fs', d'. split; [exact Hrun|]. split; [assumption|].
        split; [rewrite Hmeta; reflexivity|]. split; [rewrite Hbl'; reflexivity|assumption].
      * rewrite write_blocks_done in H by assumption. injection H as <- <- <- <-.
        exists blk, fs, d. splits; try reflexivity; assumption.
    + cbn [default from_option id]. cbn [Z.eqb negb andb].
      rewrite drop_ge in H by (apply lookup_ge_None; assumption).
      rewrite take_nil in H. injection H as <- <- <- <-.
      exists blk, fs, d. splits; try reflexivity; assumption.
Qed.

Lemma write_blocks_shift data len s l : forall i off bw img i' off' bw' img',
  write_blocks data len l (i, off, bw, img) = (i', off', bw', img') ->
  write_blocks data len l (i + s, off, bw, img) = (i' + s, off', bw', img').
Proof.
  induction l as [|p l IH]; intros i off bw img i' off' bw' img' H.
  - injection H as <- <- <- <-. reflexivity.
  - rewrite write_blocks_cons in *. unfold write_block in *.
    destruct (bw <? len).
    + replace (i + s + 1) with (i + 1 + s) by lia. apply IH. exact H.
    + apply IH. exact H.
Qed.

Lemma write_blocks_offset data len l : forall i off bw img i' off' bw' img',
  write_blocks data len l (i, off, bw, img) = (i', off', bw', img') ->
  0 <= off < BLOCK_SIZE -> 0 <= off' < BLOCK_SIZE.
Proof.
  induction l as [|p l IH]; intros i off bw img i' off' bw' img' H Hoff.
  - injection H as <- <- <- <-. assumption.
  - rewrite write_blocks_cons in H. unfold write_block in H.
    destruct (bw <? len); eapply IH in H; try eassumption; zlia.
Qed.

(** * [fs_write] *)

(** [fs_write] after the growth: the loops write the blocks of the file
    from the block of [offset] on, then the inode is saved. *)
Lemma fs_write_spec fs d n b node data len offset node' fs1 d1 bm' ps' :
  disk fs = Some d -> disk_ok d -> 0 <= n -> 1 + n / INODES_PER_BLOCK < blocks d ->
  image d !! Z.to_nat (1 + n / INODES_PER_BLOCK) = Some b ->
  node = block_inode b (n mod INODES_PER_BLOCK) -> valid node <> 0 ->
  0 <= offset -> 0 <= len -> offset + len < 2 ^ 64 -> len <= Z.of_nat (length data) ->
  fs_expand_file (set_disk fs (Some (count_read d))) node (offset + len) = Ret (node', fs1) ->
  mounted fs1 d1 bm' -> blocks d1 = blocks d ->
  file_ok (inode_blocks (meta_data fs1)) d1 bm' node' ps' ->
  forall i' off' bw' img',
  write_blocks data len (drop (Z.to_nat (offset / BLOCK_SIZE)) ps')
    (offset / BLOCK_SIZE, offset mod BLOCK_SIZE, 0, image d1) = (i', off', bw', img') ->
  exists fs' d2 b',
    fs_write fs n data len offset = Ret (bw', fs') /\
    mounted fs' d2 bm' /\ meta_data fs' = meta_data fs1 /\ blocks d2 = blocks d /\
    img' !! Z.to_nat (1 + n / INODES_PER_BLOCK) = Some b' /\ is_block b' /\
    image d2 = <[Z.to_nat (1 + n / INODES_PER_BLOCK) :=
                   set_block_inode b' (n mod INODES_PER_BLOCK) node']> img'.
Proof.
  intros Hd Hok Hn Hnb Hb Hnode Hvalid Hoff Hlen Hsum Hdata Hexpand Hm1 Hbl1 Hf
    i' off' bw' img' H.
  pose proof Hok as (Hfd & Hbl & Himg & Hall).
  pose proof (m_inode_blocks _ _ _ Hm1) as Hib.
  destruct Hf as [Hinode Hcount Hdirect Hind Hused Hnodup].
  assert (Hps : Forall (fun p => 0 < p < blocks d1) ps').
  { eapply list.Forall_impl; [exact Hused|]. cbv beta. intros p [Hp _]. lia. }
  set (i0 := offset / BLOCK_SIZE) in *. set (off0 := offset mod BLOCK_SIZE) in *.
  assert (Hi0 : 0 <= i0) by (unfold i0; zlia).
  assert (Hoff0 : 0 <= off0 < BLOCK_SIZE) by (unfold off0; zlia).
  unfold fs_write.
  rewrite (fs_load_inode_spec fs d n None b) by (assumption || lia).
  cbv zeta. rewrite <- Hnode.
  destruct (Z.eqb_spec (valid node) 0) as [|_]; [contradiction|].
  cbn [negb obind initialised]. rewrite size_t_small by lia.
  rewrite Hexpand. cbn [obind]. fold i0 off0.
  set (n1 := Z.to_nat (POINTERS_PER_INODE - i0)).
  rewrite <- (take_drop n1 (drop (Z.to_nat i0) ps')) in H.
  rewrite write_blocks_app in H.
  destruct (write_blocks data len (take n1 (drop (Z.to_nat i0) ps')) (i0, off0, 0, image d1))
    as [[[i1 off1] bw1] img1] eqn:H1.
  destruct (write_direct_spec node' data len ps' bm' n1 i0 off0 0 None fs1 d1 i1 off1 bw1 img1
              Hm1 Hdirect Hps Hi0 Hoff0 ltac:(lia) Hdata eq_refl H1)
    as (blk1 & fsa & da & Hrun1 & Hma & Hmetaa & Hbla & Himga).
  rewrite Hrun1. cbn [obind].
  pose proof (write_blocks_count _ _ _ _ _ _ _ _ _ _ _ H1 Hoff0 Hlen)
    as (Hi1 & Hbw1 & _ & _ & _ & Hlen1).
  pose proof (write_blocks_offset _ _ _ _ _ _ _ _ _ _ _ H1 Hoff0) as Hoff1.
  (* the pointers behind the indirect block, or none *)
  match goal with |- context [obind ?X _] =>
    assert (Hrest : exists ix offx blkx fsb db,
      X = Ret ((ix, offx, bw', blkx), fsb) /\
      mounted fsb db bm' /\ meta_data fsb = meta_data fs1 /\ blocks db = blocks d /\
      image db = img')
  end.
  { destruct (Z.ltb_spec bw1 len) as [Hshort|Hfull]; cycle 1.
    { rewrite write_blocks_done in H by assumption. injection H as <- <- <- <-.
      exists i1, off1, blk1, fsa, da. cbn [andb].
      splits; try reflexivity; try assumption; congruence. }
    destruct (Z.eqb_spec (indirect node') 0) as [Hz|Hnz].
    { destruct (decide (Z.of_nat (length ps') <= POINTERS_PER_INODE)) as [Hle|Hgt];
        [|destruct Hind as [? _]; lia].
      assert (Hnil : drop n1 (drop (Z.to_nat i0) ps') = []).
      { rewrite drop_drop. apply drop_ge. unfold n1. zlia. }
      rewrite Hnil in H. injection H as <- <- <- <-.
      exists i1, off1, blk1, fsa, da. cbn [andb negb].
      splits; try reflexivity; try assumption; congruence. }
    cbn [andb negb].
    destruct (decide (Z.of_nat (length ps') <= POINTERS_PER_INODE)) as [Hle|Hlong];
      [contradiction|].
    destruct Hind as (Hir & Hiu & Hinot & pointers & Hpointers & Hwords).
    pose proof (write_blocks_short _ _ _ _ _ _ _ _ _ _ _ H1 Hshort) as Hi1eq.
    rewrite length_take, length_drop in Hi1eq.
    set (j := Z.max i0 POINTERS_PER_INODE - POINTERS_PER_INODE).
    assert (Hj : i1 - POINTERS_PER_INODE = j) by (unfold j, n1 in *; zlia).
    rewrite Hj. rewrite size_t_small by (unfold j; zlia).
    rewrite (m_disk _ _ _ Hma).
    pose proof (m_disk_ok _ _ _ Hma) as Hoka. pose proof Hoka as (Hfda & Hblka & Himgla & Halla).
    assert (Hpa : image da !! Z.to_nat (indirect node') = Some pointers).
    { rewrite Himga.
      rewrite (write_blocks_frame _ _ _ _ _ _ _ _ _ _ _ (indirect node') H1);
        [assumption|clear -Hir Hib; lia| |].
      - apply Forall_take, Forall_drop. eapply list.Forall_impl; [exact Hps|]. cbv beta. lia.
      - intros Hin. apply Hinot. eapply subseteq_drop, subseteq_take. exact Hin. }
    assert (Hrange : 0 <= indirect node' < blocks da) by (clear -Hir Hbla Hib; lia).
    rewrite (disk_read_ok da _ None pointers Hfda Hrange Hpa).
    change (BLOCK_SIZE =? 0) with false. cbv iota zeta.
    assert (Hmb : mounted (set_disk fsa (Some (count_read da))) (count_read da) bm').
    { apply (mounted_set_disk fsa da bm'); [assumption|assumption|reflexivity]. }
    assert (Hl2 : drop n1 (drop (Z.to_nat i0) ps') =
                  take (Z.to_nat (POINTERS_PER_BLOCK - j))
                    (drop (Z.to_nat (POINTERS_PER_INODE + j)) ps')).
    { rewrite drop_drop. rewrite take_ge by (rewrite length_drop; unfold j; zlia).
      f_equal. unfold n1, j. zlia. }
    rewrite Hl2 in H.
    apply (write_blocks_shift _ _ (- POINTERS_PER_INODE)) in H.
    replace (i1 + - POINTERS_PER_INODE) with j in H by (clear -Hj; lia).
    destruct (write_indirect_spec pointers data len ps' bm' (Z.to_nat (POINTERS_PER_BLOCK - j))
                j off1 bw1 blk1 _ (count_read da)
                (i' + - POINTERS_PER_INODE) off' bw' img' Hmb Hwords) as (blk2 & fsb & db & Hrun2 & Hmb' & Hmetab & Hblb & Himgb);
      try assumption; try reflexivity; try (unfold j; zlia).
    { cbn [blocks count_read]. rewrite Hbla. assumption. }
    { cbn [image count_read]. rewrite Himga. exact H. }
    rewrite Hrun2. exists (i' + - POINTERS_PER_INODE), off', blk2, fsb, db.
    splits; try reflexivity; try assumption.
    - rewrite Hmetab. cbn [meta_data set_disk]. assumption.
    - rewrite Hblb. cbn [blocks count_read]. congruence. }
  destruct Hrest as (ix & offx & blkx & fsb & db & Hrest & Hmb & Hmetab & Hblb & Himgb).
  rewrite Hrest. cbn [obind].
  pose proof (m_disk_ok _ _ _ Hmb) as Hokb. pose proof Hokb as (Hfdb & Hblkb & Himglb & Hallb).
  assert (Hnbb0 : 0 <= 1 + n / INODES_PER_BLOCK < blocks db) by (clear -Hnb Hblb Hn; zlia).
  destruct (disk_ok_lookup db (1 + n / INODES_PER_BLOCK) Hokb Hnbb0) as [b' [Hb' Hbb']].
  assert (Hnbb : 1 + n / INODES_PER_BLOCK < blocks db) by (clear -Hnb Hblb; lia).
  rewrite (fs_save_inode_spec fsb db n node' b' (m_disk _ _ _ Hmb) Hfdb Hn Hnbb
             (proj2 Hblkb) Hb').
  cbn [obind].
  eexists _, _, b'. split; [reflexivity|]. split.
  { apply (mounted_set_disk fsb db bm'); [assumption| |reflexivity].
    apply disk_ok_store_block; [assumption|].
    apply is_block_set_block_inode; [zlia|assumption]. }
  split; [cbn [meta_data set_disk]; assumption|].
  split; [cbn [blocks store_block count_read]; assumption|].
  split; [rewrite <- Himgb; assumption|]. split; [assumption|].
  cbn [image store_block count_read]. rewrite Himgb. reflexivity.
Qed.

Lemma file_ok_same_disk lo d d' bm node ps :
  blocks d' = blocks d -> image d' = image d ->
  file_ok lo d bm node ps -> file_ok lo d' bm node ps.
Proof.
  intros Hbl Himg [Hi Hc Hd Hind Hu Hn]. split; try assumption.
  - rewrite Hbl, Himg. assumption.
  - rewrite Hbl. assumption.
Qed.

(** [fs_write] on a well-formed file of a mounted file system: the
    growth, the copying and the saved inode. *)
Lemma fs_write_file fs d bm n b node ps data len offset :
  mounted fs d bm ->
  0 <= n -> 1 + n / INODES_PER_BLOCK <= inode_blocks (meta_data fs) ->
  image d !! Z.to_nat (1 + n / INODES_PER_BLOCK) = Some b ->
  node = block_inode b (n mod INODES_PER_BLOCK) -> valid node <> 0 ->
  file_ok (inode_blocks (meta_data fs)) d bm node ps ->
  Z.of_nat (length ps) = blocks_of (size node) ->
  0 <= offset -> 0 <= len -> offset + len + BLOCK_SIZE <= 2 ^ 64 ->
  len <= Z.of_nat (length data) ->
  exists node' d1 bm' qs i' off' bw' img' fs' d2,
    file_ok (inode_blocks (meta_data fs)) d1 bm' node' (ps ++ qs) /\
    blocks d1 = blocks d /\ valid node' = valid node /\
    Z.of_nat (length (ps ++ qs))
      <= Z.max (Z.of_nat (length ps)) (blocks_of (offset + len)) /\
    size node' =
      (if decide (blocks_of (offset + len) <= Z.of_nat (length ps))
       then Z.max (size node) (offset + len)
       else if decide (Z.of_nat (length (ps ++ qs)) = blocks_of (offset + len))
            then offset + len
            else Z.of_nat (length (ps ++ qs)) * BLOCK_SIZE) /\
    (forall p, 0 <= p -> p <> indirect node' ->
       image d1 !! Z.to_nat p = image d !! Z.to_nat p) /\
    (Z.of_nat (length (ps ++ qs)) < blocks_of (offset + len) ->
     Z.of_nat (length (ps ++ qs)) < POINTERS_PER_INODE + POINTERS_PER_BLOCK ->
     free_count (inode_blocks (meta_data fs)) bm <= Z.of_nat (length qs) +
       (if decide (Z.of_nat (length ps) <= POINTERS_PER_INODE
                     <= Z.of_nat (length (ps ++ qs))) then 1 else 0)) /\
    write_blocks data len (drop (Z.to_nat (offset / BLOCK_SIZE)) (ps ++ qs))
      (offset / BLOCK_SIZE, offset mod BLOCK_SIZE, 0, image d1) = (i', off', bw', img') /\
    fs_write fs n data len offset = Ret (bw', fs') /\
    mounted fs' d2 bm' /\ meta_data fs' = meta_data fs /\ blocks d2 = blocks d /\
    image d2 = <[Z.to_nat (1 + n / INODES_PER_BLOCK) :=
                   set_block_inode b (n mod INODES_PER_BLOCK) node']> img'.
Proof.
  intros Hm Hn Hnb Hb Hnode Hvalid Hf Hlenps Hoff Hlen Hsum Hdata.
  pose proof (m_disk_ok _ _ _ Hm) as Hok. pose proof (m_inode_blocks _ _ _ Hm) as Hib.
  set (lo := inode_blocks (meta_data fs)) in *.
  set (fs0 := set_disk fs (Some (count_read d))).
  assert (Hm0 : mounted fs0 (count_read d) bm).
  { apply (mounted_set_disk fs d bm); [assumption|assumption|reflexivity]. }
  assert (Hf0 : file_ok (inode_blocks (meta_data fs0)) (count_read d) bm node ps).
  { apply (file_ok_same_disk lo d); [reflexivity|reflexivity|assumption]. }
  destruct (fs_expand_file_spec fs0 (count_read d) bm node ps (offset + len) Hm0 Hf0 Hlenps
              ltac:(lia) ltac:(lia))
    as (node' & fs1 & d1 & bm' & qs & Hexpand & Hm1 & Hmeta1 & Hbl1 & Hf1 & Hv1 & Hcnt1 &
        Hsize1 & Hframe1 & Hamount1).
  change (meta_data fs0) with (meta_data fs) in *. fold lo in Hf1, Hamount1.
  change (blocks (count_read d)) with (blocks d) in Hbl1.
  change (image (count_read d)) with (image d) in Hframe1.
  destruct (write_blocks data len (drop (Z.to_nat (offset / BLOCK_SIZE)) (ps ++ qs))
              (offset / BLOCK_SIZE, offset mod BLOCK_SIZE, 0, image d1))
    as [[[i' off'] bw'] img'] eqn:Hw.
  assert (Hf1' : file_ok (inode_blocks (meta_data fs1)) d1 bm' node' (ps ++ qs))
    by (rewrite Hmeta1; exact Hf1).
  destruct (fs_write_spec fs d n b node data len offset node' fs1 d1 bm' (ps ++ qs)
              (m_disk _ _ _ Hm) Hok Hn ltac:(lia) Hb Hnode Hvalid Hoff Hlen ltac:(zlia) Hdata
              Hexpand Hm1 Hbl1 Hf1' i' off' bw' img' Hw)
    as (fs' & d2 & b' & Hrun & Hm2 & Hmeta2 & Hbl2 & Hb' & Hbb' & Himg2).
  assert (Hsame : b' = b).
  { destruct Hf1 as [Hi1 Hc1 Hd1 Hind1 Hu1 Hn1].
    rewrite (write_blocks_frame _ _ _ _ _ _ _ _ _ _ _ (1 + n / INODES_PER_BLOCK) Hw) in Hb'.
    - rewrite Hframe1 in Hb'; [congruence|zlia|].
      destruct (decide (Z.of_nat (length (ps ++ qs)) <= POINTERS_PER_INODE));
        [rewrite Hind1; zlia|destruct Hind1 as [? _]; zlia].
    - zlia.
    - apply Forall_drop. eapply list.Forall_impl; [exact Hu1|]. cbv beta. intros p [Hp _]. lia.
    - intros Hin. apply subseteq_drop in Hin.
      rewrite list.Forall_forall in Hu1. apply Hu1 in Hin. lia. }
  subst b'.
  exists node', d1, bm', qs, i', off', bw', img', fs', d2.
  splits; try assumption; try reflexivity. congruence.
Qed.

(** * The five-block image with one empty file *)

Lemma tiny_created_mounted : mounted tiny_created_fs tiny_created_disk tiny_bitmap.
Proof.
  split; try reflexivity.
  - unfold disk_ok. repeat split; try (vm_compute; congruence). repeat constructor.
  - repeat constructor; eexists; reflexivity.
  - vm_compute. split; congruence.
Qed.

Lemma tiny_created_file_ok :
  file_ok (inode_blocks (meta_data tiny_created_fs)) tiny_created_disk tiny_bitmap
    (block_inode (default [] (image tiny_created_disk !! 1%nat)) 0) [].
Proof.
  split.
  - apply block_inode_ok.
  - cbn [length]. zlia.
  - intros k Hk. assert (Hcases : k = 0 \/ k = 1 \/ k = 2 \/ k = 3 \/ k = 4) by zlia.
    destruct Hcases as [->|[->|[->|[->| ->]]]]; vm_compute; reflexivity.
  - rewrite decide_True by (cbn [length]; zlia). vm_compute. reflexivity.
  - constructor.
  - constructor.
Qed.

(** * Size after a write *)

(** C8 as stated fails: on the five-block image, writing one byte at
    offset [10 * BLOCK_SIZE] of the empty file returns 0 (the three
    data blocks do not reach that far) and leaves the size at
    [3 * BLOCK_SIZE], below [offset + bytes_written]. *)
Lemma fs_write_size_below_offset :
  ~ (forall fs n data len off s0 fs0 bw fs1 s1 fs2,
       fs_stat fs n = Ret (s0, fs0) -> 0 <= s0 ->
       fs_write fs n data len off = Ret (bw, fs1) -> 0 <= bw ->
       fs_stat fs1 n = Ret (s1, fs2) -> s0 <= s1 /\ off + bw <= s1).
Proof.
  intros H.
  assert (Hstat : exists fs0, fs_stat tiny_created_fs 0 = Ret (0, fs0))
    by (eexists; vm_compute; reflexivity).
  assert (Hrun : exists fs1 fs2,
            fs_write tiny_created_fs 0 [Byte.x41] 1 (10 * BLOCK_SIZE) = Ret (0, fs1) /\
            fs_stat fs1 0 = Ret (3 * BLOCK_SIZE, fs2))
    by (eexists _, _; split; vm_compute; reflexivity).
  destruct Hstat as (fs0 & Hstat). destruct Hrun as (fs1 & fs2 & Hwrite & Hstat1).
  specialize (H _ _ _ _ _ _ _ _ _ _ _ Hstat ltac:(lia) Hwrite ltac:(lia) Hstat1).
  zlia.
Qed.

(** C8, amended: on a mounted file system, for a valid inode whose
    pointers name as many distinct data blocks as its size needs, and a
    request of [len] bytes at [offset] whose end [offset + len] stays
    a block below the range of [size_t], [fs_write] returns a count
    [bw] between 0 and [len]; the size afterwards is at least the size
    before, and at least [offset + bw] unless the growth ran out of
    blocks in front of [offset].  In that case nothing is written
    ([bw = 0]), the size is the end of the last block that the file
    holds, below [offset], the file holds fewer blocks than
    [offset + len] needs, and, unless the inode is full, the bitmap
    had no more free blocks than the growth took (the data blocks
    added, and one for the indirect block where the growth reached the
    end of the direct pointers). *)
Theorem fs_write_size_monotone fs d bm n b node ps data len offset :
  mounted fs d bm ->
  0 <= n -> 1 + n / INODES_PER_BLOCK <= inode_blocks (meta_data fs) ->
  image d !! Z.to_nat (1 + n / INODES_PER_BLOCK) = Some b ->
  node = block_inode b (n mod INODES_PER_BLOCK) -> valid node <> 0 ->
  file_ok (inode_blocks (meta_data fs)) d bm node ps ->
  Z.of_nat (length ps) = blocks_of (size node) ->
  0 <= offset -> 0 <= len -> offset + len + BLOCK_SIZE <= 2 ^ 64 ->
  len <= Z.of_nat (length data) ->
  exists fs0 bw fs1 s1 fs2,
    fs_stat fs n = Ret (size node, fs0) /\
    fs_write fs n data len offset = Ret (bw, fs1) /\ 0 <= bw <= len /\
    fs_stat fs1 n = Ret (s1, fs2) /\
    size node <= s1 /\
    (offset + bw <= s1 \/
     (bw = 0 /\ s1 < offset /\
      exists held,
        s1 = held * BLOCK_SIZE /\
        Z.of_nat (length ps) <= held < blocks_of (offset + len) /\
        (held < POINTERS_PER_INODE + POINTERS_PER_BLOCK ->
         free_count (inode_blocks (meta_data fs)) bm
         <= held - Z.of_nat (length ps) +
            (if decide (Z.of_nat (length ps) <= POINTERS_PER_INODE <= held)
             then 1 else 0)))).
Proof.
  intros Hm Hn Hnb Hb Hnode Hvalid Hf Hlenps Hoff Hlen Hsum Hdata.
  pose proof (m_disk_ok _ _ _ Hm) as Hok. pose proof Hok as (Hfd & Hbl & Himg & Hall).
  pose proof (m_inode_blocks _ _ _ Hm) as Hib.
  destruct (fs_write_file fs d bm n b node ps data len offset Hm Hn Hnb Hb Hnode Hvalid Hf
              Hlenps Hoff Hlen Hsum Hdata)
    as (node' & d1 & bm' & qs & i' & off' & bw' & img' & fs' & d2 & Hf1 & Hbl1 & Hv1 & Hcnt &
        Hsize & _ & Hamount & Hw & Hrun & Hm2 & Hmeta2 & Hbl2 & Himg2).
  pose proof (m_disk_ok _ _ _ Hm2) as Hok2. pose proof Hok2 as (Hfd2 & Hblk2 & Himgl2 & Hall2).
  assert (His : is_block b).
  { rewrite Forall_lookup in Hall. eauto. }
  assert (Hoff0 : 0 <= offset mod BLOCK_SIZE < BLOCK_SIZE) by zlia.
  pose proof (write_blocks_count _ _ _ _ _ _ _ _ _ _ _ Hw Hoff0 Hlen)
    as (Hi' & Hbw' & Hnone & Hbound & _ & Hleni).
  assert (Hnb' : 1 + n / INODES_PER_BLOCK < blocks d) by (clear -Hnb Hib; lia).
  assert (Hstat0 : fs_stat fs n = Ret (size node, set_disk fs (Some (count_read d)))).
  { unfold fs_stat.
    rewrite (fs_load_inode_spec fs d n None b (m_disk _ _ _ Hm) Hfd Hn Hnb' (proj2 Hbl) Hb).
    cbv zeta. rewrite <- Hnode.
    destruct (Z.eqb_spec (valid node) 0) as [|_]; [contradiction|]. reflexivity. }
  assert (Hstat1 : fs_stat fs' n = Ret (size node', set_disk fs' (Some (count_read d2)))).
  { unfold fs_stat.
    assert (Hnb2 : 1 + n / INODES_PER_BLOCK < blocks d2) by (clear -Hnb' Hbl2; lia).
    assert (Hb2 : image d2 !! Z.to_nat (1 + n / INODES_PER_BLOCK) =
                  Some (set_block_inode b (n mod INODES_PER_BLOCK) node')).
    { rewrite Himg2. apply list_lookup_insert_eq.
      rewrite Himg2, length_insert in Himgl2. clear -Himgl2 Hnb2 Hn. zlia. }
    rewrite (fs_load_inode_spec fs' d2 n None _ (m_disk _ _ _ Hm2) Hfd2 Hn Hnb2
               (proj2 Hblk2) Hb2).
    cbv zeta. rewrite block_inode_set_same by (first [zlia|assumption|apply Hf1]).
    rewrite Hv1.
    destruct (Z.eqb_spec (valid node) 0) as [|_]; [contradiction|]. reflexivity. }
  exists (set_disk fs (Some (count_read d))), bw', fs', (size node'),
    (set_disk fs' (Some (count_read d2))).
  split; [exact Hstat0|]. split; [exact Hrun|]. split; [lia|]. split; [exact Hstat1|].
  pose proof (file_ok_size_bound _ _ _ _ _ Hf Hlenps) as [Hs0 Hs1].
  assert (Hcase : offset + bw' <= size node' \/
            (bw' = 0 /\ size node' < offset /\
             exists held,
               size node' = held * BLOCK_SIZE /\
               Z.of_nat (length ps) <= held < blocks_of (offset + len) /\
               (held < POINTERS_PER_INODE + POINTERS_PER_BLOCK ->
                free_count (inode_blocks (meta_data fs)) bm
                <= held - Z.of_nat (length ps) +
                   (if decide (Z.of_nat (length ps) <= POINTERS_PER_INODE <= held)
                    then 1 else 0)))).
  { assert (Hdrop : Z.of_nat (length (drop (Z.to_nat (offset / BLOCK_SIZE)) (ps ++ qs))) =
                    Z.max 0 (Z.of_nat (length (ps ++ qs)) - offset / BLOCK_SIZE)).
    { rewrite length_drop. clear - Hoff. zlia. }
    rewrite Hdrop in Hi'.
    assert (HAL : Z.of_nat (length ps) <= Z.of_nat (length (ps ++ qs)) /\
                  Z.of_nat (length qs)
                  = Z.of_nat (length (ps ++ qs)) - Z.of_nat (length ps))
      by (rewrite length_app; lia).
    set (L := Z.of_nat (length (ps ++ qs))) in *.
    set (N := blocks_of (offset + len)) in *.
    rewrite Hsize.
    destruct (decide (N <= Z.of_nat (length ps))) as [Hfit|Hgrow];
      [left; clear - Hbw'; lia|].
    destruct (decide (L = N)) as [Hfull|Hpart]; [left; clear - Hbw'; lia|].
    destruct (Z.le_gt_cases (offset + bw') (L * BLOCK_SIZE)) as [Hle|Hgt];
      [left; exact Hle|].
    right.
    assert (Hz : bw' = 0).
    { destruct (decide (i' = offset / BLOCK_SIZE)) as [He|Hne]; [exact (Hnone He)|].
      exfalso. clear - Hbound Hi' Hne Hgt Hoff. zlia. }
    split; [exact Hz|]. split; [clear - Hgt Hz; lia|].
    exists L. split; [reflexivity|].
    assert (HLN : L < N) by (clear - Hcnt Hpart Hgrow; lia).
    split; [clear - HAL HLN; lia|].
    intros Hcap. specialize (Hamount HLN Hcap). rewrite (proj2 HAL) in Hamount.
    exact Hamount. }
  split; [|exact Hcase].
  rewrite length_app in *. unfold blocks_of in *.
  rewrite Hsize. repeat case_decide; zlia.
Qed.

(** The theorem for one byte at offset [BLOCK_SIZE + 5] of the empty
    file on the five-block image. *)
Lemma fs_write_size_monotone_witness :
  exists bw fs1 s1 fs2,
    fs_write tiny_created_fs 0 [Byte.x41] 1 (BLOCK_SIZE + 5) = Ret (bw, fs1) /\
    fs_stat fs1 0 = Ret (s1, fs2) /\ 0 <= bw <= 1 /\ 0 <= s1.
Proof.
  destruct (fs_write_size_monotone tiny_created_fs tiny_created_disk tiny_bitmap 0
              (default [] (image tiny_created_disk !! 1%nat))
              (block_inode (default [] (image tiny_created_disk !! 1%nat)) 0)
              [] [Byte.x41] 1 (BLOCK_SIZE + 5))
    as (fs0 & bw & fs1 & s1 & fs2 & _ & Hrun & Hbw & Hstat & Hsize & _).
  - exact tiny_created_mounted.
  - lia.
  - vm_compute. congruence.
  - vm_compute. reflexivity.
  - reflexivity.
  - vm_compute. congruence.
  - exact tiny_created_file_ok.
  - vm_compute. reflexivity.
  - zlia.
  - lia.
  - zlia.
  - cbn [length]. lia.
  - exists bw, fs1, s1, fs2. split; [exact Hrun|]. split; [exact Hstat|].
    split; [exact Hbw|exact Hsize].
Defined.

(** * The size that the growth records *)

(** C3 as stated fails: asked for a new size of 50, the file of 100
    bytes needs no block, none is allocated, and its size stays 100. *)
Lemma fs_expand_file_keeps_larger_size :
  exists node' fs',
    size small_file_inode = 100 /\
    fs_expand_file small_file_fs small_file_inode 50 = Ret (node', fs') /\
    free_blocks fs' = free_blocks small_file_fs /\
    size node' = 100 /\ size node' <> 50.
Proof.
  eexists _, _. split; [reflexivity|]. split; [vm_compute; reflexivity|].
  split; [vm_compute; reflexivity|]. split; [reflexivity|]. vm_compute. congruence.
Qed.

(** C3, amended: growing a well-formed file of a mounted file system
    to [new_size] (a block below the range of [size_t]) leaves it with
    as many blocks as could be had; with [need] the number of blocks still missing, the size
    recorded is the larger of the old size and [new_size] when
    [need = 0] (so [new_size] whenever that is not below the old size)
    and [(new_blocks - need) * BLOCK_SIZE] otherwise.  Blocks stay
    missing, with the inode not full, only when the free blocks did
    not reach: the bitmap then had no more free blocks than the growth
    asked for, which is the data blocks added, and one for the indirect
    block where the file held at most [POINTERS_PER_INODE] blocks
    before and at least that many afterwards (the indirect block is
    allocated first, and released again when no data block can follow
    it).
    On the five-block image, whose bitmap has three free blocks,
    [fs_create] and then [fs_write] of [4 * BLOCK_SIZE] bytes at offset
    0 return [3 * BLOCK_SIZE] and leave that size. *)
Theorem fs_expand_file_records_size fs d bm node ps new_size :
  mounted fs d bm ->
  file_ok (inode_blocks (meta_data fs)) d bm node ps ->
  Z.of_nat (length ps) = blocks_of (size node) ->
  0 <= new_size -> new_size + BLOCK_SIZE <= 2 ^ 64 ->
  (exists node' fs' d' bm' qs,
     fs_expand_file fs node new_size = Ret (node', fs') /\
     mounted fs' d' bm' /\
     file_ok (inode_blocks (meta_data fs)) d' bm' node' (ps ++ qs) /\
     let new_blocks := blocks_of new_size in
     let need := Z.max 0 (new_blocks - Z.of_nat (length (ps ++ qs))) in
     size node' = (if decide (need = 0) then Z.max (size node) new_size
                   else (new_blocks - need) * BLOCK_SIZE) /\
     (size node <= new_size -> need = 0 -> size node' = new_size) /\
     (0 < need ->
      Z.of_nat (length (ps ++ qs)) < POINTERS_PER_INODE + POINTERS_PER_BLOCK ->
      free_count (inode_blocks (meta_data fs)) bm
      <= Z.of_nat (length qs) +
         (if decide (Z.of_nat (length ps) <= POINTERS_PER_INODE
                     <= Z.of_nat (length (ps ++ qs))) then 1 else 0))) /\
  (free_count (inode_blocks (meta_data tiny_fs)) tiny_bitmap = 3 /\
   exists fs1 fs2 fs3,
     fs_create tiny_fs = Ret (0, fs1) /\
     fs_write fs1 0 (replicate (Z.to_nat (4 * BLOCK_SIZE)) Byte.x41) (4 * BLOCK_SIZE) 0
       = Ret (3 * BLOCK_SIZE, fs2) /\
     fs_stat fs2 0 = Ret (3 * BLOCK_SIZE, fs3)).
Proof.
  intros Hm Hf Hlen Hnew Hmax. split.
  - pose proof (file_ok_size_bound _ _ _ _ _ Hf Hlen) as [Hs0 Hs1].
    destruct (fs_expand_file_spec fs d bm node ps new_size Hm Hf Hlen Hnew Hmax)
      as (node' & fs' & d' & bm' & qs & Hrun & Hm' & Hmeta & Hbl & Hf' & Hv & Hcnt & Hsize &
          Hframe & Hamount).
    exists node', fs', d', bm', qs.
    split; [exact Hrun|]. split; [exact Hm'|]. split; [exact Hf'|]. cbv zeta.
    assert (Hsz : size node' =
              (if decide (Z.max 0 (blocks_of new_size - Z.of_nat (length (ps ++ qs))) = 0)
               then Z.max (size node) new_size
               else (blocks_of new_size
                     - Z.max 0 (blocks_of new_size - Z.of_nat (length (ps ++ qs))))
                    * BLOCK_SIZE)).
    { rewrite Hsize. rewrite length_app in *.
      destruct (decide (blocks_of new_size <= Z.of_nat (length ps))).
      - rewrite decide_True by lia. reflexivity.
      - destruct (decide (Z.of_nat (length ps + length qs) = blocks_of new_size)).
        + rewrite decide_True by lia. unfold blocks_of in *. zlia.
        + rewrite decide_False by lia. f_equal. lia. }
    split; [exact Hsz|]. split.
    + intros Hle Hz. rewrite Hsz, decide_True by assumption. lia.
    + intros Hneed Hcap. exact (Hamount ltac:(lia) Hcap).
  - split; [vm_compute; reflexivity|].
    eexists _, _, _. split; [vm_compute; reflexivity|].
    split; vm_compute; reflexivity.
Qed.

(** The theorem for the empty file of the five-block image and a new
    size of four blocks. *)
Lemma fs_expand_file_records_size_witness :
  exists node' fs',
    fs_expand_file tiny_created_fs
      (block_inode (default [] (image tiny_created_disk !! 1%nat)) 0) (4 * BLOCK_SIZE)
      = Ret (node', fs') /\
    exists k, size node' = k * BLOCK_SIZE.
Proof.
  destruct (fs_expand_file_records_size tiny_created_fs tiny_created_disk tiny_bitmap
              (block_inode (default [] (image tiny_created_disk !! 1%nat)) 0) []
              (4 * BLOCK_SIZE))
    as [(node' & fs' & d' & bm' & qs & Hrun & _ & _ & Hsize & _) _].
  - exact tiny_created_mounted.
  - exact tiny_created_file_ok.
  - vm_compute. reflexivity.
  - vm_compute. congruence.
  - vm_compute. congruence.
  - exists node', fs'. split; [exact Hrun|]. cbv zeta in Hsize.
    destruct (decide (Z.max 0 (blocks_of (4 * BLOCK_SIZE) - Z.of_nat (length ([] ++ qs))) = 0)).
    + exists 4. rewrite Hsize. vm_compute. reflexivity.
    + eexists. exact Hsize.
Defined.

(** * What a write at offset 0 leaves in the blocks *)

Lemma write_blocks_content data len l : forall i bw img i' off' bw' img',
  write_blocks data len l (i, 0, bw, img) = (i', off', bw', img') ->
  NoDup l -> Forall (fun p => 0 <= p < Z.of_nat (length img)) l ->
  0 <= bw -> len <= Z.of_nat (length data) ->
  forall (k : nat) p, l !! k = Some p -> bw + Z.of_nat k * BLOCK_SIZE < len ->
    exists b, img' !! Z.to_nat p = Some b /\
      take (Z.to_nat (Z.min BLOCK_SIZE (len - (bw + Z.of_nat k * BLOCK_SIZE)))) b =
      take (Z.to_nat (Z.min BLOCK_SIZE (len - (bw + Z.of_nat k * BLOCK_SIZE))))
        (drop (Z.to_nat (bw + Z.of_nat k * BLOCK_SIZE)) data).
Proof.
  induction l as [|q l IH]; intros i bw img i' off' bw' img' H Hnd Hin Hbw Hlen k p Hk Hlt;
    [discriminate|].
  apply list.NoDup_cons in Hnd as [Hq Hnd]. apply list.Forall_cons in Hin as [Hqr Hin].
  rewrite write_blocks_cons in H. unfold write_block in H.
  destruct (Z.ltb_spec bw len) as [Hshort|]; [|zlia].
  set (sz := Z.min (BLOCK_SIZE - 0) (len - bw)) in *.
  destruct k as [|k].
  - injection Hk as ->.
    rewrite (write_blocks_frame _ _ _ _ _ _ _ _ _ _ _ p H); [|lia| |assumption].
    2:{ eapply list.Forall_impl; [exact Hin|]. cbv beta. lia. }
    rewrite list_lookup_insert_eq by lia.
    eexists. split; [reflexivity|].
    replace (Z.min BLOCK_SIZE (len - (bw + Z.of_nat 0 * BLOCK_SIZE))) with sz
      by (unfold sz; lia).
    replace (bw + Z.of_nat 0 * BLOCK_SIZE) with bw by lia.
    unfold overlay. change (Z.to_nat 0) with 0%nat. rewrite take_0, app_nil_l.
    rewrite take_app_le by (rewrite length_take, length_drop; unfold sz; zlia).
    rewrite take_take, Nat.min_id. reflexivity.
  - cbn [lookup list_lookup] in Hk.
    assert (Hsz : sz = BLOCK_SIZE) by (unfold sz; zlia).
    rewrite Hsz in H.
    destruct (IH _ _ _ _ _ _ _ H Hnd) with (k := k) (p := p) as (b & Hb & Htake);
      try assumption; try zlia.
    { rewrite length_insert. assumption. }
    exists b. split; [assumption|].
    replace (bw + Z.of_nat (S k) * BLOCK_SIZE) with (bw + BLOCK_SIZE + Z.of_nat k * BLOCK_SIZE)
      by lia.
    exact Htake.
Qed.

Lemma write_blocks_holds_data data len l i' off' bw' img img' :
  write_blocks data len l (0, 0, 0, img) = (i', off', bw', img') ->
  NoDup l -> Forall (fun p => 0 <= p < Z.of_nat (length img)) l ->
  len <= Z.of_nat (length data) ->
  holds_data img' l data len.
Proof.
  intros H Hnd Hin Hlen k p Hk Hp Hlt.
  destruct (write_blocks_content _ _ _ _ _ _ _ _ _ _ H Hnd Hin ltac:(lia) Hlen
              (Z.to_nat k) p Hp) as (b & Hb & Htake).
  - rewrite Z2Nat.id by assumption. lia.
  - exists b. split; [assumption|].
    rewrite Z2Nat.id, Z.add_0_l in Htake by assumption. exact Htake.
Qed.

(** Every byte of the request is written when the blocks reach that
    far. *)
Lemma write_blocks_all data len l i' off' bw' img img' :
  write_blocks data len l (0, 0, 0, img) = (i', off', bw', img') ->
  0 <= len <= Z.of_nat (length l) * BLOCK_SIZE -> bw' = len.
Proof.
  intros H Hlen.
  pose proof (write_blocks_count _ _ _ _ _ _ _ _ _ _ _ H ltac:(zlia) ltac:(lia))
    as (Hi & Hbw & Hz & Hle & Hshort & _).
  destruct (Z.lt_ge_cases bw' len) as [Hlt|]; [|lia].
  pose proof (write_blocks_short _ _ _ _ _ _ _ _ _ _ _ H Hlt) as Hall.
  specialize (Hshort Hlt). destruct (decide (i' = 0)); zlia.
Qed.

(** * The copying loops of [fs_read] at offset 0 *)

Lemma copy_from_block_front b sz :
  0 <= sz <= BLOCK_SIZE ->
  copy_from_block b 0 sz = Ret (take (Z.to_nat sz) b).
Proof.
  intros H. unfold copy_from_block.
  destruct (Z.leb_spec (0 + sz) BLOCK_SIZE); [|lia].
  change (Z.to_nat 0) with 0%nat. rewrite drop_0. reflexivity.
Qed.

Lemma read_direct_aligned inode len buf ps : forall n i blk fs d,
  disk fs = Some d -> disk_ok d ->
  (forall k, 0 <= k < POINTERS_PER_INODE ->
     direct_at inode k = default 0 (ps !! Z.to_nat k)) ->
  Forall (fun p => 0 < p < blocks d) ps ->
  holds_data (image d) ps buf len ->
  0 <= len <= Z.of_nat (length ps) * BLOCK_SIZE ->
  0 <= i -> n = Z.to_nat (POINTERS_PER_INODE - i) ->
  exists i' blk' fs' d',
    read_direct n inode len i 0 (Z.min len (i * BLOCK_SIZE))
      (take (Z.to_nat (Z.min len (i * BLOCK_SIZE))) buf) blk fs =
      Ret (None, (i', 0, Z.min len (i' * BLOCK_SIZE),
                  take (Z.to_nat (Z.min len (i' * BLOCK_SIZE))) buf, blk'), fs') /\
    disk fs' = Some d' /\ same_disk d d' /\ i <= i' <= Z.max i POINTERS_PER_INODE /\
    (POINTERS_PER_INODE <= i' \/ len <= i' * BLOCK_SIZE).
Proof.
  induction n as [|n IH]; intros i blk fs d Hd Hok Hdirect Hps Hdata Hlen Hi Hn.
  - exists i, blk, fs, d. cbn [read_direct].
    splits; try reflexivity; try assumption; try (repeat split; reflexivity); zlia.
  - cbn [read_direct]. destruct (Z.ltb_spec i POINTERS_PER_INODE); [|zlia].
    pose proof Hok as (Hfd & Hbl & Himg & Hall).
    destruct (Z.lt_ge_cases (i * BLOCK_SIZE) len) as [Hlt|Hge].
    + rewrite (Z.min_r len (i * BLOCK_SIZE)) by lia.
      destruct (lookup_lt_is_Some_2 ps (Z.to_nat i)) as [p Hp]; [zlia|].
      rewrite Hdirect by lia. rewrite Hp. cbn [default from_option id].
      assert (Hpr : 0 < p < blocks d).
      { rewrite list.Forall_forall in Hps. apply Hps. eapply list_elem_of_lookup_2. exact Hp. }
      destruct (Z.eqb_spec p 0); [lia|].
      destruct (Z.ltb_spec (i * BLOCK_SIZE) len); [|lia]. cbn [negb andb].
      destruct (Hdata i p Hi Hp Hlt) as (b & Hb & Htake).
      rewrite Hd. rewrite (disk_read_ok d p blk b) by (assumption || lia).
      change (BLOCK_SIZE =? 0) with false. cbv iota. cbn [initialised obind].
      rewrite min_spec. change (0 mod BLOCK_SIZE) with 0.
      rewrite Z.sub_0_r. rewrite copy_from_block_front by zlia. cbn [obind].
      rewrite Htake. rewrite take_take_drop.
      replace (i * BLOCK_SIZE + Z.min BLOCK_SIZE (len - i * BLOCK_SIZE))
        with (Z.min len ((i + 1) * BLOCK_SIZE)) by zlia.
      replace (Z.to_nat (i * BLOCK_SIZE) + Z.to_nat (Z.min BLOCK_SIZE (len - i * BLOCK_SIZE)))%nat
        with (Z.to_nat (Z.min len ((i + 1) * BLOCK_SIZE))) by zlia.
      destruct (IH (i + 1) (Some b) (set_disk fs (Some (count_read d))) (count_read d))
        as (i' & blk' & fs' & d' & Hrun & Hd' & (Hs1 & Hs2 & Hs3) & Hi' & Hstop);
        try assumption; try reflexivity; try zlia.
      exists i', blk', fs', d'. split; [exact Hrun|]. split; [assumption|].
      split; [repeat split; assumption|]. split; [zlia|assumption].
    + rewrite (Z.min_l len (i * BLOCK_SIZE)) by lia.
      rewrite Z.ltb_irrefl, andb_false_r.
      exists i, blk, fs, d. rewrite (Z.min_l len (i * BLOCK_SIZE)) by lia.
      splits; try reflexivity; try assumption; try (repeat split; reflexivity); zlia.
Qed.

Lemma read_indirect_aligned pointers len buf ps : forall n j blk fs d,
  disk fs = Some d -> disk_ok d ->
  (forall k, 0 <= k < POINTERS_PER_BLOCK ->
     get_word pointers k = default 0 (ps !! Z.to_nat (POINTERS_PER_INODE + k))) ->
  Forall (fun p => 0 < p < blocks d) ps ->
  holds_data (image d) ps buf len ->
  0 <= len <= Z.of_nat (length ps) * BLOCK_SIZE ->
  0 <= j -> n = Z.to_nat (POINTERS_PER_BLOCK - j) ->
  exists j' blk' fs' d',
    read_indirect n (Some pointers) len j 0 (Z.min len ((POINTERS_PER_INODE + j) * BLOCK_SIZE))
      (take (Z.to_nat (Z.min len ((POINTERS_PER_INODE + j) * BLOCK_SIZE))) buf) blk fs =
      Ret (None, (j', 0, Z.min len ((POINTERS_PER_INODE + j') * BLOCK_SIZE),
                  take (Z.to_nat (Z.min len ((POINTERS_PER_INODE + j') * BLOCK_SIZE))) buf,
                  blk'), fs') /\
    disk fs' = Some d' /\ same_disk d d' /\ j <= j' <= Z.max j POINTERS_PER_BLOCK /\
    (POINTERS_PER_BLOCK <= j' \/ len <= (POINTERS_PER_INODE + j') * BLOCK_SIZE).
Proof.
  induction n as [|n IH]; intros j blk fs d Hd Hok Hwords Hps Hdata Hlen Hj Hn.
  - exists j, blk, fs, d. cbn [read_indirect].
    splits; try reflexivity; try assumption; try (repeat split; reflexivity); zlia.
  - cbn [read_indirect]. destruct (Z.ltb_spec j POINTERS_PER_BLOCK); [|zlia].
    cbn [initialised obind].
    pose proof Hok as (Hfd & Hbl & Himg & Hall).
    set (i := POINTERS_PER_INODE + j) in *.
    destruct (Z.lt_ge_cases (i * BLOCK_SIZE) len) as [Hlt|Hge].
    + rewrite (Z.min_r len (i * BLOCK_SIZE)) by lia.
      destruct (lookup_lt_is_Some_2 ps (Z.to_nat i)) as [p Hp]; [unfold i in *; zlia|].
      rewrite Hwords by lia. fold i. rewrite Hp. cbn [default from_option id].
      assert (Hpr : 0 < p < blocks d).
      { rewrite list.Forall_forall in Hps. apply Hps. eapply list_elem_of_lookup_2. exact Hp. }
      destruct (Z.eqb_spec p 0); [lia|].
      destruct (Z.ltb_spec (i * BLOCK_SIZE) len); [|lia]. cbn [negb andb].
      destruct (Hdata i p ltac:(unfold i; zlia) Hp Hlt) as (b & Hb & Htake).
      rewrite Hd. rewrite (disk_read_ok d p blk b) by (assumption || lia).
      change (BLOCK_SIZE =? 0) with false. cbv iota. cbn [initialised obind].
      rewrite min_spec. rewrite copy_from_block_front by zlia. cbn [obind].
      rewrite Htake. rewrite take_take_drop.
      replace (i * BLOCK_SIZE + Z.min BLOCK_SIZE (len - i * BLOCK_SIZE))
        with (Z.min len ((POINTERS_PER_INODE + (j + 1)) * BLOCK_SIZE)) by (unfold i; zlia).
      replace (Z.to_nat (i * BLOCK_SIZE) + Z.to_nat (Z.min BLOCK_SIZE (len - i * BLOCK_SIZE)))%nat
        with (Z.to_nat (Z.min len ((POINTERS_PER_INODE + (j + 1)) * BLOCK_SIZE)))
        by (unfold i; zlia).
      destruct (IH (j + 1) (Some b) (set_disk fs (Some (count_read d))) (count_read d))
        as (j' & blk' & fs' & d' & Hrun & Hd' & (Hs1 & Hs2 & Hs3) & Hj' & Hstop);
        try assumption; try reflexivity; try zlia.
      exists j', blk', fs', d'. split; [exact Hrun|]. split; [assumption|].
      split; [repeat split; assumption|]. split; [zlia|assumption].
    + rewrite (Z.min_l len (i * BLOCK_SIZE)) by lia.
      rewrite Z.ltb_irrefl, andb_false_r.
      exists j, blk, fs, d. fold i. rewrite (Z.min_l len (i * BLOCK_SIZE)) by lia.
      splits; try reflexivity; try assumption; try (repeat split; reflexivity); zlia.
Qed.

(** * [fs_read] at offset 0 *)

Lemma fs_read_front fs d bm n b node ps buf req len :
  mounted fs d bm ->
  0 <= n -> 1 + n / INODES_PER_BLOCK < blocks d ->
  image d !! Z.to_nat (1 + n / INODES_PER_BLOCK) = Some b ->
  node = block_inode b (n mod INODES_PER_BLOCK) -> valid node <> 0 ->
  file_ok (inode_blocks (meta_data fs)) d bm node ps ->
  holds_data (image d) ps buf len ->
  Z.min req (size node) = len -> 0 <= len <= Z.of_nat (length ps) * BLOCK_SIZE ->
  exists fs', fs_read fs n req 0 = Ret (len, take (Z.to_nat len) buf, fs').
Proof.
  intros Hm Hn Hnb Hb Hnode Hvalid Hf Hdata Hsize Hlen.
  pose proof (m_disk_ok _ _ _ Hm) as Hok. pose proof Hok as (Hfd & Hbl & Himg & Hall).
  pose proof (m_inode_blocks _ _ _ Hm) as Hib.
  destruct Hf as [Hinode Hcount Hdirect Hind Hused Hnodup].
  assert (Hps : Forall (fun p => 0 < p < blocks d) ps).
  { eapply list.Forall_impl; [exact Hused|]. cbv beta. intros p [Hp _]. lia. }
  unfold fs_read.
  rewrite (fs_load_inode_spec fs d n None b) by (first [apply (m_disk _ _ _ Hm)|assumption|lia]).
  cbv zeta. rewrite <- Hnode.
  destruct (Z.eqb_spec (valid node) 0) as [|_]; [contradiction|].
  cbn [negb obind initialised].
  rewrite !Z.sub_0_r. rewrite size_t_small by (destruct Hinode as (_ & ? & _); lia).
  rewrite min_spec, Hsize.
  change (0 / BLOCK_SIZE) with 0. change (0 mod BLOCK_SIZE) with 0.
  set (fs0 := set_disk fs (Some (count_read d))).
  destruct (read_direct_aligned node len buf ps (Z.to_nat POINTERS_PER_INODE) 0 None
              fs0 (count_read d) eq_refl Hok Hdirect Hps Hdata Hlen ltac:(lia) eq_refl)
    as (i1 & blk1 & fs1 & d1 & Hrun1 & Hd1 & (Hs1 & Hs2 & Hs3) & Hi1 & Hstop1).
  cbn [fd blocks image count_read] in Hs1, Hs2, Hs3.
  replace (Z.min len (0 * BLOCK_SIZE)) with 0 in Hrun1 by lia.
  change (Z.to_nat 0) with 0%nat in Hrun1. rewrite take_0 in Hrun1.
  rewrite Hrun1. cbn [obind].
  assert (Hok1 : disk_ok d1).
  { unfold disk_ok. rewrite Hs1, Hs2, Hs3. exact Hok. }
  destruct (Z.ltb_spec (Z.min len (i1 * BLOCK_SIZE)) len) as [Hshort|Hfull].
  - assert (Hi5 : i1 = POINTERS_PER_INODE) by zlia. subst i1.
    assert (Hlong : POINTERS_PER_INODE < Z.of_nat (length ps)) by zlia.
    rewrite decide_False in Hind by lia.
    destruct Hind as (Hir & Hiu & Hinot & pointers & Hpointers & Hwords).
    destruct (Z.eqb_spec (indirect node) 0); [lia|]. cbn [negb andb].
    rewrite Hd1.
    rewrite (disk_read_ok d1 _ None pointers) by (rewrite ?Hs1, ?Hs2, ?Hs3; first [assumption|lia]).
    change (BLOCK_SIZE =? 0) with false. cbv iota zeta.
    change (size_t (POINTERS_PER_INODE - POINTERS_PER_INODE)) with 0.
    destruct (read_indirect_aligned pointers len buf ps (Z.to_nat (POINTERS_PER_BLOCK - 0)) 0
                blk1 (set_disk fs1 (Some (count_read d1))) (count_read d1) eq_refl Hok1 Hwords)
      as (j2 & blk2 & fs2 & d2 & Hrun2 & Hd2 & _ & Hj2 & Hstop2);
      try assumption; try reflexivity; try lia.
    { cbn [blocks count_read]. rewrite Hs2. assumption. }
    { cbn [image count_read]. rewrite Hs3. assumption. }
    change ((POINTERS_PER_INODE + 0) * BLOCK_SIZE) with (POINTERS_PER_INODE * BLOCK_SIZE) in Hrun2.
    rewrite Hrun2. cbn [obind].
    assert (Hall2 : Z.min len ((POINTERS_PER_INODE + j2) * BLOCK_SIZE) = len) by zlia.
    rewrite Hall2, Z.eqb_refl. eexists. reflexivity.
  - cbn [andb obind].
    assert (Hall1 : Z.min len (i1 * BLOCK_SIZE) = len) by lia.
    rewrite Hall1, Z.eqb_refl. eexists. reflexivity.
Qed.

Lemma fs_read_aligned fs d bm n b node ps buf len :
  mounted fs d bm ->
  0 <= n -> 1 + n / INODES_PER_BLOCK < blocks d ->
  image d !! Z.to_nat (1 + n / INODES_PER_BLOCK) = Some b ->
  node = block_inode b (n mod INODES_PER_BLOCK) -> valid node <> 0 ->
  file_ok (inode_blocks (meta_data fs)) d bm node ps ->
  holds_data (image d) ps buf len ->
  size node = len -> 0 <= len <= Z.of_nat (length ps) * BLOCK_SIZE ->
  exists fs', fs_read fs n len 0 = Ret (len, take (Z.to_nat len) buf, fs').
Proof.
  intros Hm Hn Hnb Hb Hnode Hvalid Hf Hdata Hsize Hlen.
  apply (fs_read_front fs d bm n b node ps buf len len); try assumption.
  rewrite Hsize. apply Z.min_id.
Qed.

(** * Write, then read *)

Lemma file_ok_frame lo d d' bm node ps :
  blocks d' = blocks d ->
  image d' !! Z.to_nat (indirect node) = image d !! Z.to_nat (indirect node) ->
  file_ok lo d bm node ps -> file_ok lo d' bm node ps.
Proof.
  intros Hbl Himg [Hi Hc Hd Hind Hu Hn]. split; try assumption.
  - rewrite Hbl, Himg. assumption.
  - rewrite Hbl. assumption.
Qed.

(** The inode that [fs_create] leaves in a slot that was clear. *)
Lemma created_file_ok lo d bm :
  file_ok lo d bm {| valid := 1; size := 0; direct := direct zero_inode; indirect := 0 |} [].
Proof.
  split.
  - unfold inode_ok. cbn [valid size direct indirect zero_inode].
    repeat split; try lia; try reflexivity.
    change (Z.to_nat POINTERS_PER_INODE) with 5%nat. repeat constructor; lia.
  - cbn [length]. zlia.
  - intros k Hk. assert (Hcases : k = 0 \/ k = 1 \/ k = 2 \/ k = 3 \/ k = 4) by zlia.
    destruct Hcases as [->|[->|[->|[->| ->]]]]; reflexivity.
  - rewrite decide_True by (cbn [length]; zlia). reflexivity.
  - constructor.
  - constructor.
Qed.

Lemma stale_slot_mounted : mounted stale_slot_fs stale_slot_mounted_disk tiny_bitmap.
Proof.
  split; try reflexivity.
  - unfold disk_ok. repeat split; try (vm_compute; congruence). repeat constructor.
  - repeat constructor; eexists; reflexivity.
  - vm_compute. split; congruence.
Qed.

(** C1 as stated fails: [stale_slot_fs] is mounted and has three free
    blocks; [fs_create] returns inode 0, whose slot keeps the size of
    one block and the direct pointer 3 that it held.  Writing
    [three_blocks] then takes block 2 and block 3 for the second and
    the third block of the file, so that the third block lands on the
    first one: [fs_write] and [fs_read] both return [3 * BLOCK_SIZE],
    but the first byte read back is [0x43], not [0x41]. *)
Lemma fs_write_read_stale_slot :
  ~ (forall fs d bm n fs1 buf L,
       mounted fs d bm ->
       fs_create fs = Ret (n, fs1) -> 0 <= n ->
       0 <= L <= Z.of_nat (length buf) ->
       L <= POINTERS_PER_INODE * BLOCK_SIZE + POINTERS_PER_BLOCK * BLOCK_SIZE ->
       blocks_of L + (if decide (POINTERS_PER_INODE < blocks_of L) then 1 else 0)
         <= free_count (inode_blocks (meta_data fs)) bm ->
       exists fs2 fs3,
         fs_write fs1 n buf L 0 = Ret (L, fs2) /\
         fs_read fs2 n L 0 = Ret (L, take (Z.to_nat L) buf, fs3)).
Proof.
  intros H.
  assert (Hrun : exists fs1 fs2 out fs3,
            fs_create stale_slot_fs = Ret (0, fs1) /\
            fs_write fs1 0 three_blocks (3 * BLOCK_SIZE) 0 = Ret (3 * BLOCK_SIZE, fs2) /\
            fs_read fs2 0 (3 * BLOCK_SIZE) 0 = Ret (3 * BLOCK_SIZE, out, fs3) /\
            out !! 0%nat = Some Byte.x43).
  { eexists _, _, _, _. split; [vm_compute; reflexivity|].
    split; [vm_compute; reflexivity|]. split; [vm_compute; reflexivity|].
    vm_compute. reflexivity. }
  destruct Hrun as (fs1 & fs2 & out & fs3 & Hcreate & Hwrite & Hread & Hbyte).
  destruct (H stale_slot_fs stale_slot_mounted_disk tiny_bitmap 0 fs1 three_blocks
              (3 * BLOCK_SIZE) stale_slot_mounted Hcreate)
    as (fs2' & fs3' & Hwrite' & Hread').
  - lia.
  - vm_compute. split; congruence.
  - zlia.
  - vm_compute. congruence.
  - rewrite Hwrite in Hwrite'. injection Hwrite' as <-.
    rewrite Hread in Hread'.
    apply (f_equal (fun o => match o with
                             | Ret (_, bytes, _) => bytes !! 0%nat
                             | _ => None
                             end)) in Hread'.
    cbv beta iota in Hread'. rewrite Hbyte in Hread'.
    vm_compute in Hread'. discriminate Hread'.
Qed.

(** C1, amended: on a mounted file system, for the inode [n] that
    [fs_create] returns, when the slot that it took was all zero (as
    [fs_format] and [fs_remove] leave a slot), and a buffer of at least
    [L] bytes, with [L] within [POINTERS_PER_INODE * BLOCK_SIZE +
    POINTERS_PER_BLOCK * BLOCK_SIZE] and as many free blocks as the [L]
    bytes need (one more for the indirect block past five data
    blocks), [fs_write n buf L 0] returns [L] and the following
    [fs_read n L 0] returns [L] and the first [L] bytes of [buf]. *)
Theorem fs_write_read_round_trip fs d bm n fs1 buf L :
  mounted fs d bm ->
  fs_create fs = Ret (n, fs1) -> 0 <= n ->
  inode_at (image d) n = zero_inode ->
  0 <= L <= Z.of_nat (length buf) ->
  L <= POINTERS_PER_INODE * BLOCK_SIZE + POINTERS_PER_BLOCK * BLOCK_SIZE ->
  blocks_of L + (if decide (POINTERS_PER_INODE < blocks_of L) then 1 else 0)
    <= free_count (inode_blocks (meta_data fs)) bm ->
  exists fs2 fs3,
    fs_write fs1 n buf L 0 = Ret (L, fs2) /\
    fs_read fs2 n L 0 = Ret (L, take (Z.to_nat L) buf, fs3).
Proof.
  intros Hm Hcreate Hn Hclear HL Hfit Hfree.
  pose proof (m_disk_ok _ _ _ Hm) as Hok. pose proof Hok as (Hfd & Hbl & Hlen & Hall).
  pose proof (m_inode_blocks _ _ _ Hm) as Hlo.
  unfold fs_create in Hcreate.
  eapply create_blocks_spec in Hcreate
    as (i & j & b & d1 & Hi & Hj & -> & Hb & Hv & _ & Hlt & (Hfd1 & Hbl1 & Himg1) & ->);
    [|exact (m_disk _ _ _ Hm)|exact Hlen|lia|exact Hn].
  assert (Hib : 0 <= i < inode_blocks (meta_data fs)) by lia.
  assert (Hzero : block_inode b j = zero_inode).
  { unfold inode_at in Hclear.
    destruct (inode_number_split i j) as [Hdiv0 Hmod0]; [lia|assumption|].
    rewrite Hdiv0, Hmod0 in Hclear. replace (1 + i) with (i + 1) in Hclear by lia.
    rewrite Hb in Hclear. exact Hclear. }
  assert (Hblock : is_block b).
  { rewrite Forall_lookup in Hall. eauto. }
  destruct (inode_number_split i j) as [Hdiv Hmod]; [lia|assumption|].
  set (n := i * INODES_PER_BLOCK + j) in *.
  set (b1 := set_word b (INODE_WORDS * j) 1).
  assert (Hblock1 : is_block b1) by (apply is_block_set_word; [assumption|consts; lia]).
  set (node1 := {| valid := 1; size := 0; direct := direct zero_inode; indirect := 0 |}).
  assert (Hnode1 : block_inode b1 j = node1).
  { unfold b1. rewrite block_inode_set_valid_same by assumption. rewrite Hzero. reflexivity. }
  set (d2 := store_block d1 (i + 1) b1).
  assert (Hok2 : disk_ok d2).
  { apply disk_ok_store_block; [|assumption]. unfold disk_ok. rewrite Hfd1, Hbl1, Himg1. exact Hok. }
  assert (Hb1 : image d2 !! Z.to_nat (1 + n / INODES_PER_BLOCK) = Some b1).
  { rewrite Hdiv. replace (1 + i) with (i + 1) by lia. cbn [image d2 store_block].
    apply list_lookup_insert_eq. rewrite Himg1. lia. }
  set (fs1 := set_disk fs (Some d2)).
  assert (Hm1 : mounted fs1 d2 bm).
  { apply (mounted_set_disk fs d bm); [assumption|assumption|]. cbn [blocks d2 store_block].
    assumption. }
  set (lo := inode_blocks (meta_data fs)) in *.
  (* the write *)
  destruct (fs_write_file fs1 d2 bm n b1 node1 [] buf L 0 Hm1 Hn)
    as (node' & dA & bm' & qs & i' & off' & bw' & img' & fs' & dB & Hf1 & HblA & Hv1 & Hcnt &
        Hsize & HframeA & Hamount & Hw & Hrun & HmB & HmetaB & HblB & HimgB);
    try assumption; try lia.
  { rewrite Hdiv. cbn [meta_data fs1 set_disk]. lia. }
  { rewrite Hmod. symmetry. exact Hnode1. }
  { cbn [valid node1]. lia. }
  { apply created_file_ok. }
  { reflexivity. }
  { zlia. }
  change (meta_data fs1) with (meta_data fs) in *. fold lo in Hf1, Hamount.
  rewrite app_nil_l in *. cbn [length] in Hcnt, Hsize, Hamount. rewrite Z.add_0_l in *.
  change (size node1) with 0 in Hsize.
  set (N := blocks_of L) in *.
  assert (HN : 0 <= N /\ L <= N * BLOCK_SIZE /\ (0 < L -> 0 < N) /\
               N <= POINTERS_PER_INODE + POINTERS_PER_BLOCK).
  { unfold N, blocks_of. zlia. }
  assert (Hall' : Z.of_nat (length qs) = N).
  { clear -Hcnt Hamount Hfree HN.
    destruct (Z.lt_ge_cases (Z.of_nat (length qs)) N) as [Hless|]; [|lia].
    specialize (Hamount Hless ltac:(lia)).
    destruct (decide (POINTERS_PER_INODE < N));
      destruct (decide (Z.of_nat 0 <= POINTERS_PER_INODE <= Z.of_nat (length qs))); zlia. }
  assert (Hsize' : size node' = L).
  { rewrite Hsize. clear -Hall' HN HL. repeat case_decide; zlia. }
  change (0 / BLOCK_SIZE) with 0 in Hw. change (0 mod BLOCK_SIZE) with 0 in Hw.
  change (Z.to_nat 0) with 0%nat in Hw. rewrite drop_0 in Hw.
  assert (Hbw : bw' = L)
    by (apply (write_blocks_all _ _ _ _ _ _ _ _ Hw); rewrite Hall'; clear -HN HL; lia).
  subst bw'.
  exists fs'.
  pose proof (m_disk_ok _ _ _ HmB) as HokB. pose proof HokB as (HfdB & HblkB & HimglB & HallB).
  destruct Hf1 as [Hi1 Hc1 Hd1 Hind1 Hu1 Hn1].
  assert (HlenA : length (image dA) = Z.to_nat (blocks dA)).
  { pose proof (write_blocks_count _ _ _ _ _ _ _ _ _ _ _ Hw ltac:(clear; zlia)
                  ltac:(clear -HL; lia))
      as (_ & _ & _ & _ & _ & Hl).
    rewrite HimgB, length_insert in HimglB. clear -Hl HimglB HblB HblA. lia. }
  assert (Hk : 1 + n / INODES_PER_BLOCK = 1 + i) by (rewrite Hdiv; reflexivity).
  assert (Hne : forall p, lo < p -> Z.to_nat (1 + n / INODES_PER_BLOCK) <> Z.to_nat p).
  { intros p Hp. rewrite Hk. clear -Hp Hib. lia. }
  assert (Hupos : forall q, q ∈ qs -> lo < q < blocks dA).
  { intros q Hq. rewrite list.Forall_forall in Hu1. apply (Hu1 q Hq). }
  assert (Hdata : holds_data (image dB) qs buf L).
  { intros k p Hk' Hp Hlt'.
    assert (Hin : p ∈ qs) by (eapply list_elem_of_lookup_2; exact Hp).
    pose proof (Hupos p Hin) as Hpr.
    assert (Hh : holds_data img' qs buf L).
    { apply (write_blocks_holds_data buf L qs i' off' L (image dA) img' Hw Hn1);
        [|apply HL].
      apply list.Forall_forall. intros q Hq. pose proof (Hupos q Hq) as Hq'.
      clear -Hq' HlenA Hlo. lia. }
    destruct (Hh k p Hk' Hp Hlt') as (blk & Hblk & Ht).
    exists blk. split; [|exact Ht].
    rewrite HimgB. rewrite list_lookup_insert_ne by (apply Hne, Hpr). exact Hblk. }
  assert (Hqs0 : Forall (fun p => 0 <= p) qs).
  { apply list.Forall_forall. intros q Hq. pose proof (Hupos q Hq) as Hq'.
    clear -Hq' Hlo. lia. }
  assert (HfB : file_ok (inode_blocks (meta_data fs')) dB bm' node' qs).
  { rewrite HmetaB. fold lo.
    apply (file_ok_frame lo dA); [congruence| |split; assumption].
    destruct (decide (Z.of_nat (length qs) <= POINTERS_PER_INODE)) as [|Hlong].
    - rewrite Hind1. change (Z.to_nat 0) with 0%nat.
      rewrite HimgB. rewrite list_lookup_insert_ne by (rewrite Hk; clear -Hib; lia).
      apply (write_blocks_frame _ _ _ _ _ _ _ _ _ _ _ 0 Hw); [reflexivity|exact Hqs0|].
      intros Hq. pose proof (Hupos 0 Hq) as Hq'. clear -Hq' Hlo. lia.
    - destruct Hind1 as (Hir & Hiu & Hinot & _).
      rewrite HimgB. rewrite list_lookup_insert_ne by (apply Hne, Hir).
      apply (write_blocks_frame _ _ _ _ _ _ _ _ _ _ _ _ Hw); [|exact Hqs0|assumption].
      clear -Hir Hlo. lia. }
  assert (Hbl2 : blocks d2 = blocks d) by (cbn [blocks d2 store_block]; assumption).
  assert (HnB : 1 + n / INODES_PER_BLOCK < blocks dB)
    by (rewrite Hk; clear -Hlt HblB Hbl2; lia).
  assert (HbB : image dB !! Z.to_nat (1 + n / INODES_PER_BLOCK) =
                Some (set_block_inode b1 (n mod INODES_PER_BLOCK) node')).
  { rewrite HimgB. apply list_lookup_insert_eq. rewrite HimgB, length_insert in HimglB.
    rewrite Hk. clear -HimglB HblB Hbl2 Hlt Hib. lia. }
  assert (HnodeB : node' = block_inode (set_block_inode b1 (n mod INODES_PER_BLOCK) node')
                             (n mod INODES_PER_BLOCK)).
  { symmetry. apply block_inode_set_same; [zlia|assumption|assumption]. }
  assert (HvB : valid node' <> 0) by (rewrite Hv1; cbn [valid node1]; lia).
  assert (HLB : 0 <= L <= Z.of_nat (length qs) * BLOCK_SIZE)
    by (rewrite Hall'; clear -HN HL; lia).
  destruct (fs_read_aligned fs' dB bm' n (set_block_inode b1 (n mod INODES_PER_BLOCK) node')
              node' qs buf L HmB Hn HnB HbB HnodeB HvB HfB Hdata Hsize' HLB) as (fs3 & Hread).
  exists fs3. split; [exact Hrun|exact Hread].
Qed.

Lemma tiny_mounted : mounted tiny_fs tiny_mounted_disk tiny_bitmap.
Proof.
  split; try reflexivity.
  - unfold disk_ok. repeat split; try (vm_compute; congruence). repeat constructor.
  - repeat constructor; eexists; reflexivity.
  - vm_compute. split; congruence.
Qed.

(** The theorem for three bytes on the five-block image. *)
Lemma fs_write_read_round_trip_witness :
  exists fs2 fs3,
    fs_create tiny_fs = Ret (0, tiny_created_fs) /\
    fs_write tiny_created_fs 0 [Byte.x41; Byte.x42; Byte.x43] 3 0 = Ret (3, fs2) /\
    fs_read fs2 0 3 0 = Ret (3, [Byte.x41; Byte.x42; Byte.x43], fs3).
Proof.
  assert (Hcreate : fs_create tiny_fs = Ret (0, tiny_created_fs)) by (vm_compute; reflexivity).
  destruct (fs_write_read_round_trip tiny_fs tiny_mounted_disk tiny_bitmap 0 tiny_created_fs
              [Byte.x41; Byte.x42; Byte.x43] 3)
    as (fs2 & fs3 & Hwrite & Hread).
  - exact tiny_mounted.
  - exact Hcreate.
  - lia.
  - vm_compute. reflexivity.
  - cbn [length]. lia.
  - zlia.
  - vm_compute. congruence.
  - exists fs2, fs3. split; [exact Hcreate|]. split; [exact Hwrite|exact Hread].
Defined.

(** * The disk emulator *)

(** X1: a block written to an open disk is the block read back from
    it, every other block reads as before, and each access bumps its
    own counter only. *)
Theorem disk_write_then_read d blk data buf :
  0 <= fd d -> 0 <= blk < blocks d -> length (image d) = Z.to_nat (blocks d) ->
  exists d1 d2,
    disk_write (Some d) blk (Some data) = (BLOCK_SIZE, Some d1) /\
    disk_read (Some d1) blk (Some buf) = (BLOCK_SIZE, Some d2, Some data) /\
    writes d1 = writes d + 1 /\ reads d1 = reads d /\
    writes d2 = writes d1 /\ reads d2 = reads d1 + 1 /\
    forall q b, 0 <= q < blocks d -> q <> blk ->
      image d !! Z.to_nat q = Some b ->
      disk_read (Some d1) q (Some buf) = (BLOCK_SIZE, Some (count_read d1), Some b).
Proof.
  intros Hfd Hblk Hlen.
  exists (store_block d blk data), (count_read (store_block d blk data)).
  split; [apply disk_write_ok; lia|]. split.
  { apply disk_read_ok; cbn [fd blocks image store_block]; try lia.
    apply list_lookup_insert_eq. lia. }
  cbn [reads writes count_read store_block].
  split; [reflexivity|]. split; [reflexivity|]. split; [reflexivity|]. split; [reflexivity|].
  intros q b Hq Hne Hb. apply disk_read_ok; cbn [fd blocks image store_block]; try lia.
  rewrite list_lookup_insert_ne by lia. exact Hb.
Qed.

Lemma disk_write_then_read_witness :
  exists d1 d2,
    disk_write (Some (blank_disk 5)) 2 (Some zero_block) = (BLOCK_SIZE, Some d1) /\
    disk_read (Some d1) 2 (Some None) = (BLOCK_SIZE, Some d2, Some zero_block).
Proof.
  destruct (disk_write_then_read (blank_disk 5) 2 zero_block None)
    as (d1 & d2 & Hw & Hr & _).
  - cbn. lia.
  - cbn. lia.
  - reflexivity.
  - exists d1, d2. split; assumption.
Defined.

(** X2: [disk_read] and [disk_write] fail exactly when the sanity
    check does: on a [NULL] disk, a closed one ([fd < 0]), a block
    number outside the disk, or a [NULL] data pointer.  A failed access
    returns [DISK_FAILURE], counts nothing and leaves the disk and the
    buffer as they were; an access that does not fail returns
    [BLOCK_SIZE] and counts once. *)
Theorem disk_access_failure disk blk (wdata : option block) (rdata : option (option block)) :
  let bad_disk := disk = None \/
                  exists d, disk = Some d /\ (fd d < 0 \/ blocks d <= blk) in
  (fst (fst (disk_read disk blk rdata)) = DISK_FAILURE <-> bad_disk \/ rdata = None) /\
  (fst (disk_write disk blk wdata) = DISK_FAILURE <-> bad_disk \/ wdata = None) /\
  (bad_disk \/ rdata = None ->
   disk_read disk blk rdata = (DISK_FAILURE, disk, default None rdata)) /\
  (bad_disk \/ wdata = None -> disk_write disk blk wdata = (DISK_FAILURE, disk)) /\
  (~ (bad_disk \/ rdata = None) ->
   exists d, disk = Some d /\
     fst (disk_read disk blk rdata) = (BLOCK_SIZE, Some (count_read d))) /\
  (~ (bad_disk \/ wdata = None) ->
   exists d b, disk = Some d /\ wdata = Some b /\
     disk_write disk blk wdata = (BLOCK_SIZE, Some (store_block d blk b))).
Proof.
  intros bad_disk.
  assert (Hbad : forall A (data : option A),
            bad_disk \/ data = None <-> disk_sanity_check disk blk data = false).
  { intros A data. unfold bad_disk, disk_sanity_check. destruct disk as [d|].
    - rewrite !andb_false_iff, Z.leb_gt, Z.ltb_ge. split.
      + intros [[?|(d0 & E & Hor)]| ->]; [discriminate| |right; reflexivity].
        injection E as <-. left. exact Hor.
      + intros [Hor|Hnull].
        * left. right. exists d. split; [reflexivity|exact Hor].
        * right. destruct data; [discriminate Hnull|reflexivity].
    - split; [reflexivity|]. intros _. left. left. reflexivity. }
  rewrite (Hbad _ rdata), (Hbad _ wdata). unfold disk_read, disk_write.
  destruct disk as [d|].
  2:{ cbn. repeat split; try tauto; try reflexivity; intros H; exfalso; apply H; reflexivity. }
  destruct (disk_sanity_check (Some d) blk rdata) eqn:Hr;
    destruct (disk_sanity_check (Some d) blk wdata) eqn:Hw;
    destruct wdata as [b|]; cbn [fst snd];
    try (unfold disk_sanity_check in Hw; rewrite andb_false_r in Hw; discriminate Hw);
    change BLOCK_SIZE with 4096; change DISK_FAILURE with (-1);
    repeat split; intros; try discriminate; try reflexivity; try congruence; eauto.
Qed.

(** * The inode table *)

(** X3: an inode saved under number [n] is the inode loaded under [n]
    afterwards (reported present exactly when its [valid] field is
    set), and every other inode number loads what it loaded before. *)
Theorem fs_save_then_load_inode fs d n node :
  disk fs = Some d -> disk_ok d -> 0 <= n -> 1 + n / INODES_PER_BLOCK < blocks d ->
  inode_ok node ->
  exists fs1 d1,
    fs_save_inode fs n node = Ret (true, fs1) /\
    disk fs1 = Some d1 /\ disk_ok d1 /\ blocks d1 = blocks d /\
    (exists fs2,
       fs_load_inode fs1 n None = Ret (negb (valid node =? 0), Some node, fs2)) /\
    forall m, 0 <= m -> m <> n -> 1 + m / INODES_PER_BLOCK < blocks d ->
      exists r nodem fs2 fs3,
        fs_load_inode fs m None = Ret (r, nodem, fs2) /\
        fs_load_inode fs1 m None = Ret (r, nodem, fs3).
Proof.
  intros Hd Hok Hn Hnb Hnode.
  pose proof Hok as (Hfd & Hbl & Hlen & Hall).
  set (k := 1 + n / INODES_PER_BLOCK) in *. set (j := n mod INODES_PER_BLOCK).
  assert (Hk : 0 <= k < blocks d) by (unfold k; zlia).
  assert (Hj : 0 <= j < INODES_PER_BLOCK) by (unfold j; zlia).
  destruct (disk_ok_lookup d k Hok Hk) as (b & Hb & Hbb).
  set (b1 := set_block_inode b j node).
  set (d1 := store_block (count_read d) k b1).
  assert (Hb1 : is_block b1) by (apply is_block_set_block_inode; assumption).
  assert (Hok1 : disk_ok d1) by (apply disk_ok_store_block; assumption).
  assert (Hlook1 : image d1 !! Z.to_nat k = Some b1).
  { cbn [image d1 store_block count_read]. apply list_lookup_insert_eq. lia. }
  exists (set_disk fs (Some d1)), d1.
  split; [apply (fs_save_inode_spec fs d n node b Hd Hfd Hn Hnb (proj2 Hbl) Hb)|].
  split; [reflexivity|]. split; [exact Hok1|]. split; [reflexivity|]. split.
  - eexists.
    rewrite (fs_load_inode_spec (set_disk fs (Some d1)) d1 n None b1 eq_refl Hfd Hn Hnb
               (proj2 Hbl) Hlook1).
    cbv zeta. fold j. unfold b1. rewrite block_inode_set_same by assumption. reflexivity.
  - intros m Hm Hne Hmb.
    set (km := 1 + m / INODES_PER_BLOCK) in *. set (jm := m mod INODES_PER_BLOCK).
    assert (Hkm : 0 <= km < blocks d) by (unfold km; zlia).
    assert (Hjm : 0 <= jm < INODES_PER_BLOCK) by (unfold jm; zlia).
    destruct (disk_ok_lookup d km Hok Hkm) as (bm & Hbm & Hbbm).
    exists (negb (valid (block_inode bm jm) =? 0)), (Some (block_inode bm jm)).
    eexists _, _. split.
    + exact (fs_load_inode_spec fs d m None bm Hd Hfd Hm Hmb (proj2 Hbl) Hbm).
    + destruct (decide (km = k)) as [E|E].
      * assert (Hjne : j <> jm) by (unfold j, jm, k, km in *; zlia).
        assert (E' : bm = b) by (rewrite E in Hbm; congruence). subst bm.
        assert (Hlook : image d1 !! Z.to_nat km = Some b1) by (rewrite E; exact Hlook1).
        rewrite (fs_load_inode_spec (set_disk fs (Some d1)) d1 m None b1 eq_refl Hfd Hm Hmb
                   (proj2 Hbl) Hlook).
        cbv zeta. fold jm. unfold b1.
        rewrite block_inode_set_other by assumption. reflexivity.
      * assert (Hlook : image d1 !! Z.to_nat km = Some bm).
        { cbn [image d1 store_block count_read]. rewrite list_lookup_insert_ne by lia.
          exact Hbm. }
        rewrite (fs_load_inode_spec (set_disk fs (Some d1)) d1 m None bm eq_refl Hfd Hm Hmb
                   (proj2 Hbl) Hlook).
        reflexivity.
Qed.

Lemma fs_save_then_load_inode_witness :
  exists fs1 fs2,
    fs_save_inode tiny_fs 3 {| valid := 1; size := 7; direct := [2; 0; 0; 0; 0]; indirect := 0 |}
      = Ret (true, fs1) /\
    fs_load_inode fs1 3 None
      = Ret (true, Some {| valid := 1; size := 7; direct := [2; 0; 0; 0; 0]; indirect := 0 |},
             fs2).
Proof.
  destruct (fs_save_then_load_inode tiny_fs tiny_mounted_disk 3
              {| valid := 1; size := 7; direct := [2; 0; 0; 0; 0]; indirect := 0 |})
    as (fs1 & d1 & Hsave & _ & _ & _ & (fs2 & Hload) & _).
  - reflexivity.
  - exact (m_disk_ok _ _ _ tiny_mounted).
  - lia.
  - vm_compute. reflexivity.
  - unfold inode_ok. cbn [valid size direct indirect].
    repeat split; try lia. repeat constructor; lia.
  - exists fs1, fs2. split; [exact Hsave|exact Hload].
Defined.

(** X4: on an inode slot whose [valid] field is 0, [fs_stat],
    [fs_read] and [fs_write] return -1 and [fs_remove] returns false;
    none of them copies a byte or changes the image, the bitmap or the
    super block (the disk only counts one more read). *)
Theorem invalid_inode_rejected fs d n b data len off :
  disk fs = Some d -> 0 <= fd d -> blocks d < 2 ^ 32 ->
  0 <= n -> 1 + n / INODES_PER_BLOCK < blocks d ->
  image d !! Z.to_nat (1 + n / INODES_PER_BLOCK) = Some b ->
  valid (block_inode b (n mod INODES_PER_BLOCK)) = 0 ->
  let fs' := set_disk fs (Some (count_read d)) in
  fs_stat fs n = Ret (-1, fs') /\
  fs_read fs n len off = Ret (-1, [], fs') /\
  fs_write fs n data len off = Ret (-1, fs') /\
  fs_remove fs n = Ret (false, fs').
Proof.
  intros Hd Hfd Hbl Hn Hnb Hb Hv fs'.
  pose proof (fs_load_inode_spec fs d n None b Hd Hfd Hn Hnb Hbl Hb) as Hload.
  cbv zeta in Hload. rewrite Hv in Hload. change (negb (0 =? 0)) with false in Hload.
  unfold fs_stat, fs_read, fs_write, fs_remove. rewrite Hload. cbn [obind negb].
  repeat split; reflexivity.
Qed.

Lemma invalid_inode_rejected_witness :
  exists fs', fs_stat tiny_fs 0 = Ret (-1, fs') /\ fs_remove tiny_fs 0 = Ret (false, fs').
Proof.
  destruct (invalid_inode_rejected tiny_fs tiny_mounted_disk 0 zero_block [] 0 0)
    as (Hstat & _ & _ & Hremove).
  - reflexivity.
  - cbn. lia.
  - cbn. lia.
  - lia.
  - cbn. lia.
  - vm_compute. reflexivity.
  - vm_compute. reflexivity.
  - eexists. split; [exact Hstat|exact Hremove].
Defined.

(** * The allocator *)

(** X5: releasing the block that [fs_allocate_free_block] just
    returned gives back the file system as it was before the
    allocation, while releasing it in the state before (where it is
    free) trips the assertion of [fs_release_free_block]. *)
Theorem fs_allocate_then_release fs d bm r fs1 :
  mounted fs d bm -> fs_allocate_free_block fs = Ret (r, fs1) -> r <> -1 ->
  fs_release_free_block fs1 r = Ret fs /\ fs_release_free_block fs r = Abort.
Proof.
  intros Hm Halloc Hr.
  destruct (fs_allocate_free_block_spec fs d bm Hm) as (r' & fs' & Hret & _ & Hcases).
  rewrite Halloc in Hret. injection Hret as <- <-.
  destruct Hcases as [(E & _)|(Hrange & Hfree & _ & ->)]; [contradiction|].
  pose proof (m_inode_blocks _ _ _ Hm) as Hib.
  pose proof (m_bitmap_length _ _ _ Hm) as Hlen.
  pose proof (m_disk_ok _ _ _ Hm) as (_ & Hbl & _).
  unfold fs_release_free_block. cbn [free_blocks set_free_blocks].
  rewrite (m_bitmap _ _ _ Hm). split.
  - rewrite (bitmap_get_bit _ r false) by (apply bit_insert_eq; lia).
    cbn [negb obind]. rewrite bitmap_set_in by (rewrite length_insert; lia).
    cbn [obind].
    assert (Hback : <[Z.to_nat r := Some true]> (<[Z.to_nat r := Some false]> bm) = bm).
    { rewrite list_insert_insert_eq. apply list_insert_id. exact Hfree. }
    rewrite Hback. pose proof (m_bitmap _ _ _ Hm) as Hb.
    destruct fs as [dk fb sb]. cbn in *. rewrite Hb. reflexivity.
  - rewrite (bitmap_get_bit _ r true) by exact Hfree. reflexivity.
Qed.

Lemma fs_allocate_then_release_witness :
  exists fs1, fs_allocate_free_block tiny_fs = Ret (2, fs1) /\
    fs_release_free_block fs1 2 = Ret tiny_fs.
Proof.
  assert (Halloc : exists fs1, fs_allocate_free_block tiny_fs = Ret (2, fs1))
    by (eexists; vm_compute; reflexivity).
  destruct Halloc as (fs1 & Halloc).
  destruct (fs_allocate_then_release tiny_fs tiny_mounted_disk tiny_bitmap 2 fs1)
    as (Hrel & _).
  - exact tiny_mounted.
  - exact Halloc.
  - lia.
  - exists fs1. split; [exact Halloc|exact Hrel].
Defined.

(** * Reading changes nothing *)

Lemma only_reads_refl fs : only_reads fs fs.
Proof.
  unfold only_reads. repeat split. destruct (disk fs); [|exact I].
  repeat split. lia.
Qed.

Lemma only_reads_trans fs1 fs2 fs3 :
  only_reads fs1 fs2 -> only_reads fs2 fs3 -> only_reads fs1 fs3.
Proof.
  unfold only_reads. intros (Hb1 & Hm1 & H1) (Hb2 & Hm2 & H2).
  split; [congruence|]. split; [congruence|].
  destruct (disk fs1), (disk fs2), (disk fs3); try contradiction; try exact I.
  destruct H1 as ((? & ? & ?) & ? & ?), H2 as ((? & ? & ?) & ? & ?).
  repeat split; try congruence; lia.
Qed.

Lemma disk_read_only_reads fs blk buf r o b :
  disk_read (disk fs) blk (Some buf) = (r, o, b) -> only_reads fs (set_disk fs o).
Proof.
  unfold only_reads. cbn [free_blocks meta_data disk set_disk]. intros H.
  split; [reflexivity|]. split; [reflexivity|].
  destruct (disk fs) as [d|]; [|injection H as _ <- _; exact I].
  apply disk_read_inv in H as [(_ & -> & _)|(_ & -> & _)].
  - cbn [fd blocks image reads writes count_read]. repeat split. lia.
  - repeat split. lia.
Qed.

Lemma fs_load_inode_only_reads fs n node0 r node fs' :
  fs_load_inode fs n node0 = Ret (r, node, fs') -> only_reads fs fs'.
Proof.
  unfold fs_load_inode. intros H.
  destruct (disk_read (disk fs) _ (Some None)) as [[w o] blk] eqn:Hr.
  apply disk_read_only_reads in Hr.
  destruct (w =? 0); [injection H as _ _ <-; exact Hr|].
  destruct blk; [|discriminate H]. cbn [initialised obind] in H.
  injection H as _ _ <-. exact Hr.
Qed.

Lemma read_direct_only_reads inode len : forall n i off br data blk fs res,
  read_direct n inode len i off br data blk fs = Ret res -> only_reads fs (snd res).
Proof.
  induction n as [|n IH]; intros i off br data blk fs res H.
  - injection H as <-. apply only_reads_refl.
  - cbn [read_direct] in H.
    destruct (_ && _); [|injection H as <-; apply only_reads_refl].
    destruct (disk_read (disk fs) _ (Some blk)) as [[w o] blk'] eqn:Hr.
    apply disk_read_only_reads in Hr.
    destruct (w =? 0); [injection H as <-; exact Hr|].
    destruct blk' as [b|]; [|discriminate H]. cbn [initialised obind] in H.
    destruct (copy_from_block b _ _) as [bytes| | |]; try discriminate H.
    cbn [obind] in H. apply IH in H. eapply only_reads_trans; eassumption.
Qed.

Lemma read_indirect_only_reads pointers len : forall n i off br data blk fs res,
  read_indirect n pointers len i off br data blk fs = Ret res -> only_reads fs (snd res).
Proof.
  induction n as [|n IH]; intros i off br data blk fs res H.
  - injection H as <-. apply only_reads_refl.
  - cbn [read_indirect] in H.
    destruct (i <? POINTERS_PER_BLOCK); [|injection H as <-; apply only_reads_refl].
    destruct pointers as [ptrs|]; [|discriminate H]. cbn [initialised obind] in H.
    destruct (_ && _); [|injection H as <-; apply only_reads_refl].
    destruct (disk_read (disk fs) _ (Some blk)) as [[w o] blk'] eqn:Hr.
    apply disk_read_only_reads in Hr.
    destruct (w =? 0); [injection H as <-; exact Hr|].
    destruct blk' as [b|]; [|discriminate H]. cbn [initialised obind] in H.
    destruct (copy_from_block b _ _) as [bytes| | |]; try discriminate H.
    cbn [obind] in H. apply IH in H. eapply only_reads_trans; eassumption.
Qed.

(** X6: whatever [fs_stat] and [fs_read] return, they leave the image,
    the write counter, the bitmap and the super block as they were;
    only the read counter of the disk can grow. *)
Theorem fs_read_changes_nothing fs n len off :
  (forall s fs', fs_stat fs n = Ret (s, fs') -> only_reads fs fs') /\
  (forall r out fs', fs_read fs n len off = Ret (r, out, fs') -> only_reads fs fs').
Proof.
  split.
  - intros s fs' H. unfold fs_stat in H.
    destruct (fs_load_inode fs n None) as [[[ok node] fs1]| | |] eqn:Hload;
      try discriminate H.
    apply fs_load_inode_only_reads in Hload. cbn [obind] in H.
    destruct ok; [|injection H as _ <-; exact Hload].
    destruct node; [|discriminate H]. injection H as _ <-. exact Hload.
  - intros r out fs' H. unfold fs_read in H.
    destruct (fs_load_inode fs n None) as [[[ok node] fs1]| | |] eqn:Hload;
      try discriminate H.
    apply fs_load_inode_only_reads in Hload. cbn [obind] in H.
    destruct ok; [|injection H as _ _ <-; exact Hload].
    destruct node as [inode|]; [|discriminate H]. cbn [initialised obind] in H.
    destruct (read_direct _ _ _ _ _ _ _ _ _) as [[[early1 c1] fs2]| | |] eqn:H1;
      try discriminate H.
    apply read_direct_only_reads in H1. cbn [snd] in H1.
    destruct c1 as [[[[i1 o1] br1] data1] blk1]. cbn [obind] in H.
    assert (H12 : only_reads fs fs2) by (eapply only_reads_trans; eassumption).
    destruct early1 as [r1|]; [injection H as _ _ <-; exact H12|].
    destruct (_ && _).
    + destruct (disk_read (disk fs2) _ (Some None)) as [[w o] blk'] eqn:Hr.
      apply disk_read_only_reads in Hr.
      destruct (w =? 0).
      * cbn [obind] in H. injection H as _ _ <-. eapply only_reads_trans; eassumption.
      * destruct (read_indirect _ _ _ _ _ _ _ _ _) as [[[early2 c2] fs3]| | |] eqn:H2;
          try discriminate H.
        apply read_indirect_only_reads in H2. cbn [snd] in H2.
        destruct c2 as [[[[i2 o2] br2] data2] blk2]. cbn [obind] in H.
        assert (H13 : only_reads fs fs3).
        { eapply only_reads_trans; [exact H12|]. eapply only_reads_trans; eassumption. }
        destruct early2; [injection H as _ _ <-; exact H13|].
        destruct (_ =? _); [|discriminate H]. injection H as _ _ <-. exact H13.
    + cbn [obind] in H. destruct (_ =? _); [|discriminate H].
      injection H as _ _ <-. exact H12.
Qed.

Lemma fs_read_changes_nothing_witness :
  exists out fs', fs_read small_file_fs 0 50 0 = Ret (50, out, fs') /\
    only_reads small_file_fs fs'.
Proof.
  assert (Hread : exists out fs', fs_read small_file_fs 0 50 0 = Ret (50, out, fs'))
    by (eexists _, _; vm_compute; reflexivity).
  destruct Hread as (out & fs' & Hread).
  destruct (fs_read_changes_nothing small_file_fs 0 50 0) as [_ H].
  exists out, fs'. split; [exact Hread|]. exact (H _ _ _ Hread).
Defined.

(** * Format and mount *)

(** The super block that [fs_format] writes for a disk of [n] blocks. *)
Lemma block_super_format n :
  0 <= n < 2 ^ 32 -> (n + 9) / 10 * INODES_PER_BLOCK < 2 ^ 32 ->
  block_super
    (set_word (set_word (set_word (set_word zero_block 0 MAGIC_NUMBER) 1 n) 2 ((n + 9) / 10))
       3 ((n + 9) / 10 * INODES_PER_BLOCK))
  = {| magic_number := MAGIC_NUMBER; sb_blocks := n; inode_blocks := (n + 9) / 10;
       inodes := (n + 9) / 10 * INODES_PER_BLOCK |}.
Proof.
  intros Hn Hfit. unfold block_super. word_simpl.
  rewrite !u32_small by (unfold MAGIC_NUMBER; consts; lia). reflexivity.
Qed.

(** What a successful [fs_format] leaves on the disk. *)
Lemma fs_format_image fs0 d d1 :
  length (image d) = Z.to_nat (blocks d) -> 0 <= blocks d < 2 ^ 32 ->
  fs_format fs0 (Some d) = Ret (true, Some d1) ->
  let I := inode_blocks_of d in
  disk fs0 = None /\ 0 <= fd d /\ I < blocks d /\
  fd d1 = fd d /\ blocks d1 = blocks d /\ length (image d1) = length (image d) /\
  image d1 !! 0%nat =
    Some (set_word (set_word (set_word (set_word zero_block 0 MAGIC_NUMBER) 1 (blocks d))
                      2 I) 3 (size_t (I * INODES_PER_BLOCK))) /\
  forall p, 0 < p ->
    image d1 !! Z.to_nat p = if decide (p <= I) then Some zero_block
                             else image d !! Z.to_nat p.
Proof.
  intros Hlen Hblocks H I. unfold inode_blocks_of in I. unfold fs_format in H.
  destruct (disk fs0) eqn:Hnone; [discriminate H|].
  rewrite (size_t_small (blocks d + 9)) in H by lia. fold I in H.
  destruct (disk_read (Some d) 0 (Some None)) as [[r o] blk0] eqn:Hr.
  apply disk_read_inv in Hr as [(-> & -> & Hfd & Hlt & _)|(-> & -> & _ & Hs)];
    [|discriminate H].
  change (BLOCK_SIZE =? DISK_FAILURE) with false in H. cbv iota in H.
  destruct (clear_inode_blocks_spec zero_block (Z.to_nat I) 0 (count_read d))
    as (ok & d' & Hclear & Hok & Hpost); [assumption|lia|unfold I; lia|assumption|].
  rewrite Hclear in H. destruct ok; cbn [negb] in H; [|discriminate H].
  destruct (Hpost eq_refl) as (Hfd' & Hbl' & Hlen' & Himg'). cbn in Hfd', Hbl', Hlen'.
  assert (HI : I < blocks d).
  { destruct Hok as [Hok _]. destruct (Hok eq_refl) as [E|E]; cbn in E; unfold I in *; lia. }
  rewrite disk_write_ok in H by lia.
  change (BLOCK_SIZE =? DISK_FAILURE) with false in H. cbv iota in H.
  injection H as <-. cbn [fd blocks image store_block].
  rewrite length_insert.
  split; [reflexivity|]. split; [assumption|]. split; [assumption|].
  split; [assumption|]. split; [assumption|]. split; [assumption|]. split.
  - apply list_lookup_insert_eq. lia.
  - intros p Hp. change (Z.to_nat 0) with 0%nat.
    rewrite list_lookup_insert_ne by lia. rewrite Himg' by lia.
    cbn [image count_read].
    destruct (decide (p <= I)); [rewrite decide_True by lia|rewrite decide_False by lia];
      reflexivity.
Qed.

(** The state that a successful [fs_mount] builds. *)
Lemma fs_mount_state fs0 d fs :
  disk_ok d -> fs_mount fs0 (Some d) = Ret (true, fs) ->
  sb_blocks (meta_data fs) = blocks d ->
  exists d' bm, mounted fs d' bm /\ same_disk d d' /\
    forall p, inode_blocks (meta_data fs) < p < blocks d ->
      (is_free bm p <-> ~ scan_reaches (image d) (meta_data fs) p) /\
      (is_used bm p <-> scan_reaches (image d) (meta_data fs) p).
Proof.
  intros Hok Hmount Hsb. pose proof Hok as (Hfd & Hbl & Hlen & Hall).
  destruct (fs_mount_accepts _ _ _ Hmount) as (fs1 & Hd1 & Hib & Hinit).
  destruct (fs_initialize_free_block_bitmap_spec fs1 (count_read d) fs Hd1 Hlen Hib Hinit)
    as (d' & bm & Hd' & (Hs1 & Hs2 & Hs3) & Hbm & Hmeta & Hbmlen & Hlt & _ & Hbits).
  cbn [fd blocks image count_read] in *.
  rewrite <- Hmeta in Hbits, Hlt, Hib. rewrite Hsb in Hbits.
  assert (Hwritten : forall p, 0 <= p < blocks d -> exists v, bit bm p = Some (Some v)).
  { intros p Hp. destruct (Hbits p Hp) as [Hlow Hhigh].
    destruct (Z.le_gt_cases p (inode_blocks (meta_data fs))) as [Hle|Hgt].
    - eexists. apply Hlow. exact Hle.
    - destruct (Hhigh ltac:(lia)) as [[_ E]|[_ E]]; eexists; exact E. }
  exists d', bm. split; [|split].
  - split; try assumption.
    + unfold disk_ok. rewrite Hs1, Hs2, Hs3. exact Hok.
    + rewrite Hs2. assumption.
    + apply Forall_lookup. intros k x Hk.
      assert (Hkl : (k < length bm)%nat) by (eapply lookup_lt_Some; exact Hk).
      destruct (Hwritten (Z.of_nat k) ltac:(lia)) as [v Hv].
      unfold bit in Hv. rewrite Nat2Z.id in Hv. rewrite Hk in Hv. injection Hv as ->.
      eexists. reflexivity.
    + rewrite Hs2. lia.
  - repeat split; assumption.
  - intros p Hp. destruct (Hbits p ltac:(lia)) as [_ Hhigh].
    specialize (Hhigh Hp). unfold is_free, is_used, scan_reaches.
    destruct Hhigh as [[Hn E]|[Hy E]]; rewrite E; split; split;
      try discriminate; try tauto.
Qed.

(** X7: when [fs_mount] accepts an image whose super block records the
    block count of the disk, the file system is in a well-formed
    mounted state: the disk is attached with its image unchanged, the
    bitmap has one written entry per block, and a block of the data
    region is free exactly when the bitmap scan did not see it (as the
    indirect block of a valid inode, or in front of the first zero of
    one of its pointer arrays). *)
Theorem fs_mount_gives_mounted fs0 d fs :
  disk_ok d -> fs_mount fs0 (Some d) = Ret (true, fs) ->
  sb_blocks (meta_data fs) = blocks d ->
  exists d' bm, mounted fs d' bm /\ same_disk d d' /\
    forall p, inode_blocks (meta_data fs) < p < blocks d ->
      (is_free bm p <-> ~ scan_reaches (image d) (meta_data fs) p) /\
      (is_used bm p <-> scan_reaches (image d) (meta_data fs) p).
Proof. apply fs_mount_state. Qed.

Lemma fs_mount_gives_mounted_witness :
  exists d' bm, mounted tiny_fs d' bm /\ same_disk tiny_disk_formatted d'.
Proof.
  destruct (fs_mount_gives_mounted fresh_fs tiny_disk_formatted tiny_fs)
    as (d' & bm & Hm & Hs & _).
  - unfold disk_ok. repeat split; try (vm_compute; congruence). repeat constructor.
  - vm_compute. reflexivity.
  - reflexivity.
  - exists d', bm. split; assumption.
Defined.

Lemma mark_range_ok v : forall n i bm,
  0 <= i -> i + Z.of_nat n <= Z.of_nat (length bm) ->
  exists bm', mark_range n i v (Some bm) = Ret (Some bm') /\ length bm' = length bm.
Proof.
  induction n as [|n IH]; intros i bm Hi Hfit.
  - exists bm. split; reflexivity.
  - cbn [mark_range]. rewrite bitmap_set_in by lia. cbn [obind].
    destruct (IH (i + 1) (<[Z.to_nat i := Some v]> bm)) as (bm' & Hrun & Hlen);
      [lia|rewrite length_insert; lia|].
    exists bm'. split; [exact Hrun|]. rewrite Hlen. apply length_insert.
Qed.

Lemma mark_slots_invalid b : forall n j fs,
  (forall j', j <= j' < j + Z.of_nat n -> valid (block_inode b j') = 0) ->
  mark_slots n j b fs = Ret fs.
Proof.
  induction n as [|n IH]; intros j fs Hinv; [reflexivity|].
  cbn [mark_slots]. unfold mark_inode. rewrite Hinv by lia.
  change (negb (0 =? 0)) with false. cbv iota. cbn [obind].
  apply IH. intros j' Hj'. apply Hinv. lia.
Qed.

Lemma mark_inode_blocks_invalid : forall n i blk fs d,
  disk fs = Some d -> 0 <= fd d -> 0 <= i -> i + Z.of_nat n < blocks d ->
  (forall k, i < k <= i + Z.of_nat n -> image d !! Z.to_nat k = Some zero_block) ->
  exists fs', mark_inode_blocks n i blk fs = Ret fs'.
Proof.
  induction n as [|n IH]; intros i blk fs d Hd Hfd Hi Hfit Hzero.
  - eexists. reflexivity.
  - cbn [mark_inode_blocks]. rewrite Hd.
    rewrite (disk_read_ok d (i + 1) blk zero_block) by (first [assumption|lia|apply Hzero; lia]).
    change (BLOCK_SIZE =? DISK_FAILURE) with false. cbv iota. cbn [initialised obind].
    rewrite mark_slots_invalid by (intros; apply get_word_zero_block). cbn [obind].
    apply (IH (i + 1) _ _ (count_read d)); try assumption; try lia.
    + reflexivity.
    + cbn [blocks count_read]. lia.
    + intros k Hk. cbn [image count_read]. apply Hzero. lia.
Qed.

(** [fs_mount] on the disk that a successful [fs_format] left. *)
Lemma fs_mount_formatted fs0 d d1 :
  disk_ok d -> inode_blocks_of d * INODES_PER_BLOCK < 2 ^ 32 ->
  fs_format fs0 (Some d) = Ret (true, Some d1) ->
  exists fs, fs_mount fs0 (Some d1) = Ret (true, fs) /\
    meta_data fs =
      {| magic_number := MAGIC_NUMBER; sb_blocks := blocks d;
         inode_blocks := inode_blocks_of d;
         inodes := inode_blocks_of d * INODES_PER_BLOCK |}.
Proof.
  intros Hok Hfit Hformat. pose proof Hok as (Hfd & Hbl & Hlen & Hall).
  destruct (fs_format_image fs0 d d1 Hlen Hbl Hformat)
    as (Hnone & _ & HI & Hfd1 & Hbl1 & Hlen1 & Hb0 & Himg).
  unfold inode_blocks_of in *. set (I := (blocks d + 9) / 10) in *.
  assert (HI0 : 0 <= I) by (unfold I; lia).
  rewrite size_t_small in Hb0 by zlia.
  unfold fs_mount. rewrite Hnone. cbn [disk set_disk].
  rewrite (disk_read_ok d1 0 None _) by (first [exact Hb0|lia]).
  change (BLOCK_SIZE =? DISK_FAILURE) with false. cbv iota. cbn [initialised obind].
  rewrite block_super_format by assumption. fold I.
  cbn [meta_data set_meta_data magic_number inode_blocks inodes sb_blocks].
  rewrite Z.eqb_refl. cbn [negb].
  rewrite (u32_small (I * INODES_PER_BLOCK)) by zlia. rewrite Z.eqb_refl. cbn [negb].
  rewrite (u32_small (blocks d + 9)) by (unfold I in *; zlia). fold I.
  rewrite Z.eqb_refl. cbn [negb].
  unfold fs_initialize_free_block_bitmap.
  cbn [disk set_disk set_meta_data meta_data initialised obind blocks count_read
       inode_blocks sb_blocks].
  rewrite Hbl1.
  destruct (mark_range_ok false (Z.to_nat (I + 1)) 0 (replicate (Z.to_nat (blocks d)) None))
    as (bm1 & Hrun1 & Hlenb1); [lia|rewrite length_replicate; lia|].
  rewrite Hrun1. cbn [obind].
  destruct (mark_range_ok true (Z.to_nat (blocks d - (I + 1))) (I + 1) bm1)
    as (bm2 & Hrun2 & Hlenb2); [lia|rewrite Hlenb1, length_replicate; lia|].
  rewrite Hrun2. cbn [obind].
  destruct (mark_inode_blocks_invalid (Z.to_nat I) 0 None
              (set_free_blocks
                 (set_meta_data (set_disk (set_disk fs0 (Some d1)) (Some (count_read d1)))
                    {| magic_number := MAGIC_NUMBER; sb_blocks := blocks d;
                       inode_blocks := I; inodes := I * INODES_PER_BLOCK |})
                 (Some bm2))
              (count_read d1)) as (fs & Hrun3);
    [reflexivity|cbn [fd count_read]; lia|lia|cbn [blocks count_read]; lia| |].
  { intros k Hk. cbn [image count_read]. rewrite Himg by lia.
    rewrite decide_True by lia. reflexivity. }
  exists fs. rewrite Hrun3. cbn [obind]. split; [reflexivity|].
  assert (Hinit : fs_initialize_free_block_bitmap
            (set_meta_data (set_disk (set_disk fs0 (Some d1)) (Some (count_read d1)))
               {| magic_number := MAGIC_NUMBER; sb_blocks := blocks d;
                  inode_blocks := I; inodes := I * INODES_PER_BLOCK |}) = Ret fs).
  { unfold fs_initialize_free_block_bitmap.
    cbn [disk set_disk set_meta_data meta_data initialised obind blocks count_read
         inode_blocks sb_blocks].
    rewrite Hbl1, Hrun1. cbn [obind]. rewrite Hrun2. cbn [obind]. exact Hrun3. }
  apply fs_initialize_free_block_bitmap_spec with (d := count_read d1) in Hinit
    as (_ & _ & _ & _ & _ & Hmeta & _); [exact Hmeta|reflexivity| |cbn; exact HI0].
  cbn [image blocks count_read]. lia.
Qed.

Lemma block_inode_zero_block j : block_inode zero_block j = zero_inode.
Proof.
  unfold block_inode, zero_inode. rewrite !get_word_zero_block.
  change (seqZ 0 POINTERS_PER_INODE) with [0;1;2;3;4]. cbn [fmap list_fmap].
  rewrite !get_word_zero_block. reflexivity.
Qed.

(** X8: the disk that a successful [fs_format] leaves is accepted by
    [fs_mount]; the mounted state is well formed, every block of the
    data region is free, every inode block is all zero, so that every
    inode of the table is the zero inode, and the data region still
    holds what it held before the format. *)
Theorem fs_format_then_mount fs0 d d1 :
  disk_ok d -> inode_blocks_of d * INODES_PER_BLOCK < 2 ^ 32 ->
  fs_format fs0 (Some d) = Ret (true, Some d1) ->
  exists fs d2 bm,
    fs_mount fs0 (Some d1) = Ret (true, fs) /\ mounted fs d2 bm /\ same_disk d1 d2 /\
    inode_blocks (meta_data fs) = inode_blocks_of d /\
    (forall p, inode_blocks_of d < p < blocks d -> is_free bm p) /\
    (forall p, 0 < p <= inode_blocks_of d -> image d2 !! Z.to_nat p = Some zero_block) /\
    (forall m, 0 <= m < inode_blocks_of d * INODES_PER_BLOCK ->
       inode_at (image d2) m = zero_inode) /\
    free_slots_clear (image d2) (meta_data fs) /\
    (forall p, inode_blocks_of d < p -> image d2 !! Z.to_nat p = image d !! Z.to_nat p).
Proof.
  intros Hok Hfit Hformat. pose proof Hok as (Hfd & Hbl & Hlen & Hall).
  destruct (fs_mount_formatted fs0 d d1 Hok Hfit Hformat) as (fs & Hmount & Hmeta).
  destruct (fs_format_image fs0 d d1 Hlen Hbl Hformat)
    as (Hnone & _ & HI & Hfd1 & Hbl1 & Hlen1 & Hb0 & Himg).
  assert (HI0 : 0 <= inode_blocks_of d) by (unfold inode_blocks_of; lia).
  assert (Hok1 : disk_ok d1).
  { unfold disk_ok. rewrite Hfd1, Hbl1, Hlen1. repeat split; try assumption; try lia.
    apply Forall_lookup. intros k x Hk. destruct k as [|k].
    - rewrite Hb0 in Hk. injection Hk as <-. is_block_tac.
    - specialize (Himg (Z.of_nat (S k)) ltac:(lia)). rewrite Nat2Z.id in Himg.
      rewrite Himg in Hk. case_decide.
      + injection Hk as <-. apply is_block_zero.
      + rewrite Forall_lookup in Hall. eauto. }
  assert (Hsb : sb_blocks (meta_data fs) = blocks d1) by (rewrite Hmeta, Hbl1; reflexivity).
  destruct (fs_mount_state fs0 d1 fs Hok1 Hmount Hsb) as (d2 & bm & Hm & Hsame & Hbits).
  pose proof Hsame as (Hs1 & Hs2 & Hs3).
  assert (Hib : inode_blocks (meta_data fs) = inode_blocks_of d) by (rewrite Hmeta; reflexivity).
  assert (Hslots : forall i, 0 <= i < inode_blocks_of d ->
            image d1 !! Z.to_nat (i + 1) = Some zero_block).
  { intros i Hi. rewrite Himg by lia. rewrite decide_True by lia. reflexivity. }
  exists fs, d2, bm. split; [exact Hmount|]. split; [exact Hm|]. split; [exact Hsame|].
  split; [exact Hib|]. split; [|split; [|split; [|split]]].
  - intros p Hp. rewrite Hib, Hbl1 in Hbits. apply (Hbits p Hp).
    intros (i & j & blk & Hi & Hj & Hblk & Hv & _). rewrite Hib in Hi.
    rewrite Hslots in Hblk by assumption. injection Hblk as <-.
    apply Hv. apply get_word_zero_block.
  - intros p Hp. rewrite Hs3. replace p with (p - 1 + 1) by lia. apply Hslots. lia.
  - intros m Hm0. unfold inode_at. rewrite Hs3.
    replace (1 + m / INODES_PER_BLOCK) with (m / INODES_PER_BLOCK + 1) by lia.
    rewrite Hslots by (clear - Hm0; zlia). cbn [default from_option id].
    apply block_inode_zero_block.
  - intros i j b Hi Hj Hb Hv. rewrite Hib in Hi. rewrite Hs3, Hslots in Hb by assumption.
    injection Hb as <-. apply block_inode_zero_block.
  - intros p Hp. rewrite Hs3, Himg by lia. rewrite decide_False by lia. reflexivity.
Qed.

Lemma fs_format_then_mount_witness :
  exists d1 fs, fs_format fresh_fs (Some (blank_disk 5)) = Ret (true, Some d1) /\
    fs_mount fresh_fs (Some d1) = Ret (true, fs).
Proof.
  assert (Hformat : fs_format fresh_fs (Some (blank_disk 5))
                    = Ret (true, Some tiny_disk_formatted)) by (vm_compute; reflexivity).
  destruct (fs_format_then_mount fresh_fs (blank_disk 5) tiny_disk_formatted)
    as (fs & d2 & bm & Hmount & _).
  - unfold disk_ok. repeat split; try (vm_compute; congruence). repeat constructor.
  - vm_compute. reflexivity.
  - exact Hformat.
  - exists tiny_disk_formatted, fs. split; [exact Hformat|exact Hmount].
Defined.

Lemma fs_initialize_free_block_bitmap_ignores_bitmap dk fb fb' sb :
  fs_initialize_free_block_bitmap {| disk := dk; free_blocks := fb; meta_data := sb |} =
  fs_initialize_free_block_bitmap {| disk := dk; free_blocks := fb'; meta_data := sb |}.
Proof. reflexivity. Qed.

(** The scan of the inode table does not look at the counters of the
    disk: on two states of the same disk it gives the same bitmap. *)
Lemma disk_read_same_disk d d' blk buf r o b :
  same_disk d d' -> disk_read (Some d) blk (Some buf) = (r, o, b) ->
  exists d1 d1', o = Some d1 /\ same_disk d1 d1' /\
    disk_read (Some d') blk (Some buf) = (r, Some d1', b).
Proof.
  intros (Hfd & Hbl & Himg) H. unfold disk_read, disk_sanity_check in *.
  rewrite Hfd, Hbl, Himg.
  destruct ((0 <=? fd d) && (blk <? blocks d) && true); injection H as <- <- <-;
    eexists _, _; (split; [reflexivity|split; [|reflexivity]]);
    repeat split; assumption.
Qed.

Lemma fs_same_disk_set_free_blocks fs fs' bm :
  fs_same_disk fs fs' -> fs_same_disk (set_free_blocks fs bm) (set_free_blocks fs' bm).
Proof.
  intros (_ & Hmeta & Hdisk). split; [reflexivity|]. split; [exact Hmeta|exact Hdisk].
Qed.

Lemma mark_inode_same_disk pi fs fs' r :
  fs_same_disk fs fs' -> mark_inode pi fs = Ret r ->
  exists r', mark_inode pi fs' = Ret r' /\ fs_same_disk r r'.
Proof.
  intros Hs H. pose proof Hs as (Hfb & Hmeta & d & d' & Hd & Hd' & Hsame).
  unfold mark_inode in *. rewrite Hfb.
  destruct (negb (valid pi =? 0)); [|injection H as <-; eexists; split; [reflexivity|exact Hs]].
  destruct (mark_pointers _ 0 (direct_at pi) _ _) as [bm1| | |]; try discriminate H.
  cbn [obind free_blocks set_free_blocks disk] in *.
  destruct (negb (indirect pi =? 0)).
  2:{ injection H as <-. eexists. split; [reflexivity|].
      apply fs_same_disk_set_free_blocks. exact Hs. }
  destruct (bitmap_set bm1 (indirect pi) false) as [bm2| | |]; try discriminate H.
  cbn [obind free_blocks set_free_blocks disk] in *.
  rewrite Hd in H. rewrite Hd'.
  destruct (disk_read (Some d) (indirect pi) (Some None)) as [[r0 o] blk] eqn:Hr.
  destruct (disk_read_same_disk _ _ _ _ _ _ _ Hsame Hr) as (d1 & d1' & -> & Hsame1 & Hr').
  rewrite Hr'. destruct (r0 =? DISK_FAILURE); [discriminate H|].
  destruct blk as [ib|]; [|discriminate H]. cbn [initialised obind] in *.
  cbn [free_blocks set_disk set_free_blocks] in *.
  destruct (mark_pointers _ 0 (get_word ib) _ _) as [bm3| | |]; try discriminate H.
  cbn [obind] in *. injection H as <-. eexists. split; [reflexivity|].
  split; [reflexivity|]. split; [exact Hmeta|].
  exists d1, d1'. repeat split; try reflexivity; apply Hsame1.
Qed.

Lemma mark_slots_same_disk b : forall n j fs fs' r,
  fs_same_disk fs fs' -> mark_slots n j b fs = Ret r ->
  exists r', mark_slots n j b fs' = Ret r' /\ fs_same_disk r r'.
Proof.
  induction n as [|n IH]; intros j fs fs' r Hs H.
  - injection H as <-. exists fs'. split; [reflexivity|exact Hs].
  - cbn [mark_slots] in *.
    destruct (mark_inode (block_inode b j) fs) as [fs1| | |] eqn:H1; try discriminate H.
    destruct (mark_inode_same_disk _ _ _ _ Hs H1) as (fs1' & -> & Hs1).
    cbn [obind] in *. exact (IH _ _ _ _ Hs1 H).
Qed.

Lemma mark_inode_blocks_same_disk : forall n i blk fs fs' r,
  fs_same_disk fs fs' -> mark_inode_blocks n i blk fs = Ret r ->
  exists r', mark_inode_blocks n i blk fs' = Ret r' /\ fs_same_disk r r'.
Proof.
  induction n as [|n IH]; intros i blk fs fs' r Hs H.
  - injection H as <-. exists fs'. split; [reflexivity|exact Hs].
  - pose proof Hs as (Hfb & Hmeta & d & d' & Hd & Hd' & Hsame).
    cbn [mark_inode_blocks] in *. rewrite Hd in H. rewrite Hd'.
    destruct (disk_read (Some d) (i + 1) (Some blk)) as [[r0 o] blk1] eqn:Hr.
    destruct (disk_read_same_disk _ _ _ _ _ _ _ Hsame Hr) as (d1 & d1' & -> & Hsame1 & Hr').
    rewrite Hr'. destruct (r0 =? DISK_FAILURE); [discriminate H|].
    destruct blk1 as [b|]; [|discriminate H]. cbn [initialised obind] in *.
    assert (Hs1 : fs_same_disk (set_disk fs (Some d1)) (set_disk fs' (Some d1'))).
    { split; [exact Hfb|]. split; [exact Hmeta|]. exists d1, d1'. auto. }
    destruct (mark_slots _ 0 b (set_disk fs (Some d1))) as [fs2| | |] eqn:H2;
      try discriminate H.
    destruct (mark_slots_same_disk _ _ _ _ _ _ Hs1 H2) as (fs2' & -> & Hs2).
    cbn [obind] in *. exact (IH _ _ _ _ _ Hs2 H).
Qed.

Lemma fs_mount_same_disk fs0 fs1 d d' fs :
  same_disk d d' -> disk fs1 = None ->
  fs_mount fs0 (Some d) = Ret (true, fs) ->
  exists fs', fs_mount fs1 (Some d') = Ret (true, fs') /\ fs_same_disk fs fs'.
Proof.
  intros Hsame Hnone H. unfold fs_mount in *. rewrite Hnone.
  destruct (disk fs0); [discriminate H|]. cbn [disk set_disk] in *.
  destruct (disk_read (Some d) 0 (Some None)) as [[r o] blk] eqn:Hr.
  destruct (disk_read_same_disk _ _ _ _ _ _ _ Hsame Hr) as (d1 & d1' & -> & Hsame1 & Hr').
  rewrite Hr'. destruct (r =? DISK_FAILURE); [discriminate H|].
  destruct blk as [b|]; [|discriminate H].
  cbn [initialised obind meta_data set_meta_data] in *.
  destruct (negb (magic_number (block_super b) =? MAGIC_NUMBER)); [discriminate H|].
  destruct (negb (u32 _ =? _)); [discriminate H|].
  destruct (negb (inode_blocks (block_super b) =? _)); [discriminate H|].
  unfold fs_initialize_free_block_bitmap in *.
  cbn [disk set_disk set_meta_data initialised obind meta_data] in *.
  pose proof Hsame1 as (_ & Hbl1 & _). rewrite Hbl1.
  destruct (mark_range _ 0 false _) as [bm1| | |]; try discriminate H. cbn [obind] in *.
  destruct (mark_range _ _ true bm1) as [bm2| | |]; try discriminate H. cbn [obind] in *.
  destruct (mark_inode_blocks _ 0 None _) as [fs2| | |] eqn:Hmark; try discriminate H.
  cbn [obind] in H. injection H as <-.
  eapply mark_inode_blocks_same_disk in Hmark as (fs2' & -> & Hs2).
  - eexists. split; [reflexivity|exact Hs2].
  - split; [reflexivity|]. split; [reflexivity|]. exists d1, d1'. auto.
Qed.

(** X9: once [fs_mount] has succeeded, a second [fs_mount] on the same
    [FileSystem] is refused and changes nothing.  [fs_unmount] drops
    the disk and the bitmap and keeps the super block; mounting the
    disk again after it, in the state in which the first mount left it
    (its read counter advanced), succeeds and rebuilds the same bitmap
    and the same super block on the same image, whatever the
    [FileSystem] held before. *)
Theorem fs_unmount_then_mount fs0 d fs d1 :
  disk_ok d -> fs_mount fs0 (Some d) = Ret (true, fs) ->
  sb_blocks (meta_data fs) = blocks d -> disk fs = Some d1 ->
  same_disk d d1 /\
  (forall d', fs_mount fs d' = Ret (false, fs)) /\
  disk (fs_unmount fs) = None /\ free_blocks (fs_unmount fs) = None /\
  meta_data (fs_unmount fs) = meta_data fs /\
  (exists fs2 d2,
     fs_mount (fs_unmount fs) (Some d1) = Ret (true, fs2) /\
     free_blocks fs2 = free_blocks fs /\ meta_data fs2 = meta_data fs /\
     disk fs2 = Some d2 /\ same_disk d1 d2) /\
  (forall fs1, disk fs1 = None ->
     exists fs2 d2,
       fs_mount fs1 (Some d1) = Ret (true, fs2) /\
       free_blocks fs2 = free_blocks fs /\ meta_data fs2 = meta_data fs /\
       disk fs2 = Some d2 /\ same_disk d1 d2).
Proof.
  intros Hok Hmount Hsb Hd1.
  destruct (fs_mount_state fs0 d fs Hok Hmount Hsb) as (d' & bm & Hm & Hsame & _).
  rewrite (m_disk _ _ _ Hm) in Hd1. injection Hd1 as <-.
  assert (Hany : forall fs1, disk fs1 = None ->
            exists fs2 d2,
              fs_mount fs1 (Some d') = Ret (true, fs2) /\
              free_blocks fs2 = free_blocks fs /\ meta_data fs2 = meta_data fs /\
              disk fs2 = Some d2 /\ same_disk d' d2).
  { intros fs1 Hnone.
    destruct (fs_mount_same_disk fs0 fs1 d d' fs Hsame Hnone Hmount)
      as (fs2 & Hrun & Hfb & Hmeta & da & db & Hda & Hdb & Hab).
    rewrite (m_disk _ _ _ Hm) in Hda. injection Hda as <-.
    exists fs2, db. repeat split; try assumption; apply Hab. }
  split; [exact Hsame|]. split.
  { intros d2. unfold fs_mount. rewrite (m_disk _ _ _ Hm). destruct d2; reflexivity. }
  split; [reflexivity|]. split; [reflexivity|]. split; [reflexivity|].
  split; [apply Hany; reflexivity|exact Hany].
Qed.

(** The theorem at the five-block image: the disk that the mount of
    [tiny_disk_formatted] left has counted three reads. *)
Lemma fs_unmount_then_mount_witness :
  reads tiny_mounted_disk = reads tiny_disk_formatted + 2 /\
  exists fs2,
    fs_mount (fs_unmount tiny_fs) (Some tiny_mounted_disk) = Ret (true, fs2) /\
    free_blocks fs2 = free_blocks tiny_fs.
Proof.
  split; [reflexivity|].
  destruct (fs_unmount_then_mount fresh_fs tiny_disk_formatted tiny_fs tiny_mounted_disk)
    as (_ & _ & _ & _ & _ & (fs2 & d2 & Hrun & Hfb & _) & _).
  - unfold disk_ok. repeat split; try (vm_compute; congruence). repeat constructor.
  - vm_compute. reflexivity.
  - reflexivity.
  - reflexivity.
  - exists fs2. split; [exact Hrun|exact Hfb].
Defined.

(** * Remove *)

Lemma release_pointers_spec ptr limit : forall n i fs bm rs,
  free_blocks fs = Some bm -> 0 <= i -> n = Z.to_nat (limit - i) ->
  (forall k, 0 <= k -> i + k < limit -> ptr (i + k) = default 0 (rs !! Z.to_nat k)) ->
  i + Z.of_nat (length rs) <= limit ->
  Forall (fun p => 0 < p /\ is_used bm p) rs -> NoDup rs ->
  exists fs' bm',
    release_pointers n i ptr limit fs = Ret fs' /\
    disk fs' = disk fs /\ meta_data fs' = meta_data fs /\ free_blocks fs' = Some bm' /\
    length bm' = length bm /\ (Forall is_Some bm -> Forall is_Some bm') /\
    forall p, 0 <= p ->
      bit bm' p = if decide (p ∈ rs) then Some (Some true) else bit bm p.
Proof.
  induction n as [|n IH]; intros i fs bm rs Hbm Hi Hn Hptr Hfit Hused Hnd.
  - assert (Hrs : rs = []) by (destruct rs; [reflexivity|cbn [length] in Hfit; lia]).
    subst rs. exists fs, bm. cbn [release_pointers].
    splits; try reflexivity; try assumption; try (intros Hw; exact Hw).
    all: intros p Hp; rewrite decide_False by apply not_elem_of_nil; reflexivity.
  - cbn [release_pointers]. destruct (Z.ltb_spec i limit); [|lia].
    pose proof (Hptr 0 ltac:(lia) ltac:(lia)) as H0. rewrite Z.add_0_r in H0.
    destruct rs as [|q rs].
    + change (default 0 ([] !! Z.to_nat 0)) with 0 in H0. rewrite H0. cbn [Z.eqb negb andb].
      exists fs, bm.
      splits; try reflexivity; try assumption; try (intros Hw; exact Hw).
      all: intros p Hp; rewrite decide_False by apply not_elem_of_nil; reflexivity.
    + change (default 0 ((q :: rs) !! Z.to_nat 0)) with q in H0. rewrite H0.
      apply list.Forall_cons in Hused as [[Hq Hqu] Hused].
      apply list.NoDup_cons in Hnd as [Hqn Hnd].
      destruct (Z.eqb_spec q 0); [lia|]. cbn [negb andb].
      assert (Hql : (Z.to_nat q < length bm)%nat) by (eapply bit_lt; exact Hqu).
      unfold fs_release_free_block. rewrite Hbm.
      rewrite (bitmap_get_bit bm q false Hqu). cbn [negb obind].
      rewrite bitmap_set_in by lia. cbn [obind].
      set (bm1 := <[Z.to_nat q := Some true]> bm).
      destruct (IH (i + 1) (set_free_blocks fs (Some bm1)) bm1 rs)
        as (fs' & bm' & Hrun & Hd' & Hm' & Hb' & Hl' & Hw' & Hbits); try assumption;
        try reflexivity; try lia.
      { intros k Hk Hlt. replace (i + 1 + k) with (i + (k + 1)) by lia.
        rewrite Hptr by lia.
        replace (Z.to_nat (k + 1)) with (S (Z.to_nat k)) by lia. reflexivity. }
      { cbn [length] in Hfit. lia. }
      { apply list.Forall_forall. intros p Hp.
        rewrite list.Forall_forall in Hused. destruct (Hused p Hp) as [Hp0 Hpu].
        split; [assumption|]. unfold is_used, bm1.
        rewrite bit_insert_ne by (try lia; intros ->; contradiction). exact Hpu. }
      exists fs', bm'. split; [exact Hrun|]. split; [exact Hd'|]. split; [exact Hm'|].
      split; [exact Hb'|]. split; [rewrite Hl'; apply length_insert|]. split.
      { intros Hw. apply Hw'. apply Forall_insert; [assumption|]. eexists. reflexivity. }
      intros p Hp. rewrite (Hbits p Hp).
      destruct (decide (p ∈ rs)) as [Hin|Hnin].
      * rewrite decide_True by (apply elem_of_cons; right; assumption). reflexivity.
      * destruct (decide (p = q)) as [->|Hne].
        -- rewrite decide_True by (apply elem_of_cons; left; reflexivity).
           apply bit_insert_eq. assumption.
        -- rewrite decide_False by (rewrite elem_of_cons; tauto).
           apply bit_insert_ne; lia.
Qed.

(** X10: [fs_remove] of a well-formed file succeeds and gives every
    block of the file back: afterwards the data blocks of the file and
    its indirect block are free, every other bitmap entry is as before,
    the inode no longer exists for [fs_stat], and the image differs in
    the inode block only: there the slot of the inode is all zero and
    every other inode is as before. *)
Theorem fs_remove_releases fs d bm n b node ps :
  mounted fs d bm ->
  0 <= n -> 1 + n / INODES_PER_BLOCK < blocks d ->
  image d !! Z.to_nat (1 + n / INODES_PER_BLOCK) = Some b ->
  node = block_inode b (n mod INODES_PER_BLOCK) -> valid node <> 0 ->
  file_ok (inode_blocks (meta_data fs)) d bm node ps ->
  exists fs' d' bm',
    fs_remove fs n = Ret (true, fs') /\ mounted fs' d' bm' /\
    meta_data fs' = meta_data fs /\
    (forall p, 0 <= p ->
       bit bm' p = if decide (p ∈ ps \/ (indirect node <> 0 /\ p = indirect node))
                   then Some (Some true) else bit bm p) /\
    (exists fs'', fs_stat fs' n = Ret (-1, fs'')) /\
    (forall q, 0 <= q -> q <> 1 + n / INODES_PER_BLOCK ->
       image d' !! Z.to_nat q = image d !! Z.to_nat q) /\
    inode_at (image d') n = zero_inode /\
    (forall m, 0 <= m -> m <> n -> inode_at (image d') m = inode_at (image d) m).
Proof.
  intros Hm Hn Hnb Hb Hnode Hvalid Hf.
  pose proof Hm as [Hd Hbm Hok Hbmlen Hwritten Hib].
  pose proof Hok as (Hfd & Hbl & Hlen & Hall).
  set (lo := inode_blocks (meta_data fs)) in *.
  destruct Hf as [Hinode Hcount Hdirect Hind Hused Hnodup].
  set (k := 1 + n / INODES_PER_BLOCK) in *. set (j := n mod INODES_PER_BLOCK) in *.
  assert (Hj : 0 <= j < INODES_PER_BLOCK) by (unfold j; zlia).
  assert (Hk : 0 <= k) by (unfold k; zlia).
  assert (Hbb : is_block b) by (rewrite Forall_lookup in Hall; eauto).
  set (ps1 := take (Z.to_nat POINTERS_PER_INODE) ps).
  set (ps2 := drop (Z.to_nat POINTERS_PER_INODE) ps).
  assert (Hsplit : ps = ps1 ++ ps2) by (symmetry; apply take_drop).
  pose proof Hnodup as Hnodup'. rewrite Hsplit in Hnodup'.
  apply list.NoDup_app in Hnodup' as (Hnd1 & Hdisj & Hnd2).
  assert (Hupos : forall p, p ∈ ps -> lo < p < blocks d /\ is_used bm p).
  { rewrite list.Forall_forall in Hused. exact Hused. }
  unfold fs_remove.
  rewrite (fs_load_inode_spec fs d n None b Hd Hfd Hn Hnb (proj2 Hbl) Hb).
  cbv zeta. fold j. rewrite <- Hnode.
  destruct (Z.eqb_spec (valid node) 0) as [|_]; [contradiction|].
  cbn [negb obind initialised].
  destruct (Z.eqb_spec (valid node) 0) as [|_]; [contradiction|].
  set (fs0 := set_disk fs (Some (count_read d))).
  (* the direct pointers *)
  destruct (release_pointers_spec (direct_at node) POINTERS_PER_INODE
              (Z.to_nat POINTERS_PER_INODE) 0 fs0 bm ps1 Hbm)
    as (fs1 & bm1 & Hrun1 & Hd1 & Hmeta1 & Hbm1 & Hlen1 & Hw1 & Hbits1);
    try reflexivity; try lia.
  { intros i Hi Hlt. rewrite Z.add_0_l. rewrite Hdirect by lia.
    unfold ps1. rewrite lookup_take_lt by zlia. reflexivity. }
  { unfold ps1. rewrite length_take. zlia. }
  { apply list.Forall_forall. intros p Hp. apply subseteq_take in Hp.
    destruct (Hupos p Hp). split; [lia|assumption]. }
  { exact Hnd1. }
  rewrite Hrun1. cbn [obind].
  (* the pointers of the indirect block, and the block itself *)
  match goal with |- context [obind ?X _] =>
  assert (Hrest : exists fs2 bm2,
    X = Ret fs2 /\
    (exists d2, disk fs2 = Some d2 /\ same_disk d d2) /\
    meta_data fs2 = meta_data fs /\ free_blocks fs2 = Some bm2 /\
    length bm2 = length bm /\ Forall is_Some bm2 /\
    forall p, 0 <= p ->
      bit bm2 p = if decide (p ∈ ps \/ (indirect node <> 0 /\ p = indirect node))
                  then Some (Some true) else bit bm p)
  end.
  { destruct (decide (Z.of_nat (length ps) <= POINTERS_PER_INODE)) as [Hshort|Hlong].
    - rewrite Hind. cbn [Z.eqb negb].
      assert (Hps2 : ps2 = []) by (unfold ps2; apply drop_ge; zlia).
      rewrite Hps2, app_nil_r in Hsplit.
      exists fs1, bm1. split; [reflexivity|]. split.
      { exists (count_read d). split; [rewrite Hd1; reflexivity|repeat split]. }
      split; [rewrite Hmeta1; reflexivity|]. split; [assumption|].
      split; [assumption|]. split; [auto|].
      intros p Hp. rewrite (Hbits1 p Hp), <- Hsplit.
      destruct (decide (p ∈ ps)).
      + rewrite decide_True by tauto. reflexivity.
      + rewrite decide_False by tauto. reflexivity.
    - destruct Hind as (Hir & Hiu & Hinot & pointers & Hpointers & Hwords).
      destruct (Z.eqb_spec (indirect node) 0); [lia|]. cbn [negb].
      rewrite Hd1. cbn [disk fs0 set_disk].
      assert (Hirr : 0 <= indirect node < blocks (count_read d)) by (cbn [blocks count_read]; lia).
      rewrite (disk_read_ok (count_read d) _ None pointers Hfd Hirr Hpointers).
      cbn [initialised obind].
      set (fs2 := set_disk fs1 (Some (count_read (count_read d)))).
      assert (Hused2 : Forall (fun p => 0 < p /\ is_used bm1 p) ps2).
      { apply list.Forall_forall. intros p Hp.
        assert (Hin : p ∈ ps) by (apply subseteq_drop in Hp; exact Hp).
        destruct (Hupos p Hin) as [Hpr Hpu]. split; [lia|].
        unfold is_used. rewrite Hbits1 by lia.
        rewrite decide_False by (intros Hin1; exact (Hdisj p Hin1 Hp)). exact Hpu. }
      destruct (release_pointers_spec (get_word pointers) POINTERS_PER_BLOCK
                  (Z.to_nat POINTERS_PER_BLOCK) 0 fs2 bm1 ps2 Hbm1)
        as (fs3 & bm3 & Hrun3 & Hd3 & Hmeta3 & Hbm3 & Hlen3 & Hw3 & Hbits3);
        try reflexivity; try lia; try assumption.
      { intros i Hi Hlt. rewrite Z.add_0_l. rewrite Hwords by lia.
        unfold ps2. rewrite lookup_drop. f_equal. f_equal. zlia. }
      { unfold ps2. rewrite length_drop. zlia. }
      rewrite Hrun3. cbn [obind].
      assert (Hiu3 : bit bm3 (indirect node) = Some (Some false)).
      { rewrite Hbits3 by lia.
        rewrite decide_False by (intros Hin; apply Hinot; apply subseteq_drop in Hin; exact Hin).
        rewrite Hbits1 by lia.
        rewrite decide_False by (intros Hin; apply Hinot; apply subseteq_take in Hin; exact Hin).
        exact Hiu. }
      unfold fs_release_free_block. rewrite Hbm3.
      rewrite (bitmap_get_bit bm3 _ false Hiu3). cbn [negb obind].
      assert (Hil : (Z.to_nat (indirect node) < length bm3)%nat) by (eapply bit_lt; exact Hiu3).
      rewrite bitmap_set_in by lia. cbn [obind].
      eexists _, _. split; [reflexivity|]. cbn [disk meta_data free_blocks set_free_blocks].
      split.
      { exists (count_read (count_read d)). split; [rewrite Hd3; reflexivity|repeat split]. }
      split; [rewrite Hmeta3; cbn [meta_data fs2 set_disk]; rewrite Hmeta1; reflexivity|].
      split; [reflexivity|]. split; [rewrite length_insert; congruence|]. split.
      { apply Forall_insert; [auto|]. eexists. reflexivity. }
      intros p Hp.
      destruct (decide (p = indirect node)) as [->|Hne].
      + rewrite decide_True by (right; split; [lia|reflexivity]).
        apply bit_insert_eq. assumption.
      + rewrite bit_insert_ne by lia. rewrite (Hbits3 p Hp), (Hbits1 p Hp).
        destruct (decide (p ∈ ps)) as [Hin|Hnin].
        * rewrite (decide_True (P := _ \/ _)) by tauto.
          rewrite Hsplit in Hin. apply elem_of_app in Hin as [Hin|Hin].
          -- rewrite (decide_True (P := p ∈ ps1)) by assumption.
             case_decide; reflexivity.
          -- rewrite decide_True by assumption. reflexivity.
        * rewrite (decide_False (P := _ \/ _)) by tauto.
          rewrite decide_False by (intros Hin; apply Hnin; apply subseteq_drop in Hin; exact Hin).
          rewrite decide_False by (intros Hin; apply Hnin; apply subseteq_take in Hin; exact Hin).
          reflexivity. }
  destruct Hrest as (fs2 & bm2 & Hrest & (d2 & Hd2 & Hs1 & Hs2 & Hs3) & Hmeta2 & Hbm2 & Hlen2 &
                     Hw2 & Hbits2).
  rewrite Hrest. cbn [obind].
  assert (Hb2 : image d2 !! Z.to_nat k = Some b) by (rewrite Hs3; exact Hb).
  rewrite (fs_save_inode_spec fs2 d2 n zero_inode b Hd2) by (first [assumption|lia]).
  cbn [obind negb]. fold k j.
  set (b' := set_block_inode b j zero_inode).
  set (d' := store_block (count_read d2) k b').
  assert (Hbb' : is_block b') by (apply is_block_set_block_inode; assumption).
  assert (Hok' : disk_ok d').
  { apply disk_ok_store_block; [|assumption]. unfold disk_ok.
    cbn [fd blocks image count_read]. rewrite Hs1, Hs2, Hs3. exact Hok. }
  exists (set_disk fs2 (Some d')), d', bm2.
  split; [reflexivity|]. split.
  { split; try assumption; try reflexivity.
    - cbn [blocks d' store_block count_read]. rewrite Hs2. congruence.
    - cbn [meta_data set_disk blocks d' store_block count_read]. rewrite Hmeta2, Hs2.
      exact Hib. }
  assert (Hlook : image d' !! Z.to_nat (1 + n / INODES_PER_BLOCK) = Some b').
  { fold k. cbn [image d' store_block count_read]. apply list_lookup_insert_eq.
    rewrite Hs3. lia. }
  split; [exact Hmeta2|]. split; [exact Hbits2|]. split; [|split; [|split]].
  - eexists. unfold fs_stat.
    rewrite (fs_load_inode_spec (set_disk fs2 (Some d')) d' n None b' eq_refl)
      by (first [exact Hlook|cbn [fd blocks d' store_block count_read]; lia]).
    cbv zeta. fold j. unfold b'.
    rewrite block_inode_set_same by (first [assumption|apply inode_ok_zero]).
    reflexivity.
  - intros q Hq Hne. cbn [image d' store_block count_read].
    rewrite list_lookup_insert_ne by lia. rewrite Hs3. reflexivity.
  - unfold inode_at. rewrite Hlook. cbn [default from_option id]. fold j. unfold b'.
    apply block_inode_set_same; [assumption|assumption|apply inode_ok_zero].
  - intros m Hm0 Hne. unfold inode_at.
    destruct (Z.eq_dec (m / INODES_PER_BLOCK) (n / INODES_PER_BLOCK)) as [He|Hne'].
    + rewrite He, Hlook. fold k. rewrite Hb. cbn [default from_option id]. unfold b'.
      apply block_inode_set_other; [assumption|zlia|unfold j; clear - He Hne; zlia|assumption].
    + cbn [image d' store_block count_read].
      rewrite list_lookup_insert_ne by (unfold k; clear - Hne' Hm0 Hn; zlia).
      rewrite Hs3. reflexivity.
Qed.

(** The five-block image with a file of 100 bytes in block 2. *)
Lemma small_file_mounted : mounted small_file_fs small_file_disk small_file_bitmap.
Proof.
  split; try (vm_compute; reflexivity).
  - unfold disk_ok. repeat split; try (vm_compute; congruence). repeat constructor.
  - repeat constructor; eexists; reflexivity.
  - vm_compute. split; congruence.
Qed.

Lemma small_file_file_ok :
  file_ok (inode_blocks (meta_data small_file_fs)) small_file_disk small_file_bitmap
    small_file_inode [2].
Proof.
  split.
  - change small_file_inode
      with (block_inode (default [] (image small_file_disk !! 1%nat)) 0).
    apply block_inode_ok.
  - cbn [length]. zlia.
  - intros k Hk. assert (Hcases : k = 0 \/ k = 1 \/ k = 2 \/ k = 3 \/ k = 4) by zlia.
    destruct Hcases as [->|[->|[->|[->| ->]]]]; vm_compute; reflexivity.
  - rewrite decide_True by (cbn [length]; zlia). vm_compute. reflexivity.
  - repeat constructor; vm_compute; congruence.
  - repeat constructor. intros Hin. inversion Hin.
Qed.

(** The theorem at the file of 100 bytes on the five-block image:
    block 2, the block of the file, is free afterwards. *)
Lemma fs_remove_releases_witness :
  exists fs' bm' fs'',
    fs_remove small_file_fs 0 = Ret (true, fs') /\ free_blocks fs' = Some bm' /\
    bit small_file_bitmap 2 = Some (Some false) /\ bit bm' 2 = Some (Some true) /\
    fs_stat fs' 0 = Ret (-1, fs'').
Proof.
  destruct (fs_remove_releases small_file_fs small_file_disk small_file_bitmap 0
              (default [] (image small_file_disk !! 1%nat)) small_file_inode [2])
    as (fs' & d' & bm' & Hrun & Hm' & _ & Hbits & (fs'' & Hstat) & _).
  - exact small_file_mounted.
  - lia.
  - vm_compute. reflexivity.
  - vm_compute. reflexivity.
  - vm_compute. reflexivity.
  - vm_compute. congruence.
  - exact small_file_file_ok.
  - exists fs', bm', fs''. split; [exact Hrun|]. split; [exact (m_bitmap _ _ _ Hm')|].
    split; [reflexivity|]. split; [|exact Hstat].
    rewrite Hbits by lia. rewrite decide_True; [reflexivity|].
    left. apply list_elem_of_singleton. reflexivity.
Defined.

(** * Create *)

Lemma create_in_block_total i b : forall n j fs d,
  disk fs = Some d -> 0 <= fd d -> i + 1 < blocks d ->
  (create_in_block n j i b fs = (None, fs) /\
   forall j', j <= j' < j + Z.of_nat n -> valid (block_inode b j') <> 0) \/
  (exists j0, j <= j0 < j + Z.of_nat n /\ valid (block_inode b j0) = 0 /\
     (forall j', j <= j' < j0 -> valid (block_inode b j') <> 0) /\
     create_in_block n j i b fs =
       (Some (i * INODES_PER_BLOCK + j0),
        set_disk fs (Some (store_block d (i + 1) (set_word b (INODE_WORDS * j0) 1))))).
Proof.
  induction n as [|n IH]; intros j fs d Hd Hfd Hlt.
  - left. split; [reflexivity|]. intros j' Hj'. lia.
  - cbn [create_in_block]. destruct (Z.eqb_spec (valid (block_inode b j)) 0) as [Hz|Hnz].
    + right. exists j. split; [lia|]. split; [assumption|]. split; [intros; lia|].
      rewrite Hd. rewrite disk_write_ok by assumption.
      change (BLOCK_SIZE =? DISK_FAILURE) with false. reflexivity.
    + destruct (IH (j + 1) fs d Hd Hfd Hlt) as [[Hrun Hall]|(j0 & Hj0 & Hz & Hbefore & Hrun)].
      * left. split; [exact Hrun|]. intros j' Hj'.
        destruct (Z.eq_dec j' j) as [->|]; [assumption|apply Hall; lia].
      * right. exists j0. split; [lia|]. split; [assumption|]. split; [|exact Hrun].
        intros j' Hj'. destruct (Z.eq_dec j' j) as [->|]; [assumption|apply Hbefore; lia].
Qed.

Lemma create_blocks_total : forall n i blk fs d,
  disk fs = Some d -> disk_ok d -> 0 <= i -> i + Z.of_nat n < blocks d ->
  (exists fs', create_blocks n i blk fs = Ret (-1, fs') /\ only_reads fs fs' /\
     forall m, i * INODES_PER_BLOCK <= m < (i + Z.of_nat n) * INODES_PER_BLOCK ->
       valid (inode_at (image d) m) <> 0) \/
  (exists m d', i * INODES_PER_BLOCK <= m < (i + Z.of_nat n) * INODES_PER_BLOCK /\
     valid (inode_at (image d) m) = 0 /\
     (forall m', i * INODES_PER_BLOCK <= m' < m -> valid (inode_at (image d) m') <> 0) /\
     same_disk d d' /\
     create_blocks n i blk fs =
       Ret (m, set_disk fs
                 (Some (store_block d' (1 + m / INODES_PER_BLOCK)
                          (set_word (default [] (image d !! Z.to_nat (1 + m / INODES_PER_BLOCK)))
                             (INODE_WORDS * (m mod INODES_PER_BLOCK)) 1))))).
Proof.
  induction n as [|n IH]; intros i blk fs d Hd Hok Hi Hfit;
    pose proof Hok as (Hfd & Hbl & Hlen & Hall).
  - left. exists fs. split; [reflexivity|]. split; [apply only_reads_refl|].
    intros m Hm. lia.
  - cbn [create_blocks]. rewrite Hd.
    destruct (disk_ok_lookup d (i + 1) Hok ltac:(lia)) as (b & Hb & Hbb).
    rewrite (disk_read_ok d (i + 1) blk b Hfd ltac:(lia) Hb).
    change (BLOCK_SIZE =? DISK_FAILURE) with false. cbv iota. cbn [initialised obind].
    set (fs1 := set_disk fs (Some (count_read d))).
    assert (Hslot : forall j, 0 <= j < INODES_PER_BLOCK ->
              inode_at (image d) (i * INODES_PER_BLOCK + j) = block_inode b j).
    { intros j Hj. unfold inode_at.
      destruct (inode_number_split i j Hi Hj) as [-> ->].
      replace (1 + i) with (i + 1) by lia. rewrite Hb. reflexivity. }
    destruct (create_in_block_total i b (Z.to_nat INODES_PER_BLOCK) 0 fs1 (count_read d))
      as [[Hrun Hvalid]|(j0 & Hj0 & Hz & Hbefore & Hrun)];
      [reflexivity|exact Hfd|cbn [blocks count_read]; lia| |]; rewrite Hrun.
    + destruct (IH (i + 1) (Some b) fs1 (count_read d))
        as [(fs' & Hrun' & Hro & Hall')|(m & d' & Hm & Hz & Hbefore & Hsame & Hrun')];
        [reflexivity|exact Hok|lia|cbn [blocks count_read]; lia| |].
      * left. exists fs'. split; [exact Hrun'|]. split.
        { eapply only_reads_trans; [|exact Hro].
          unfold only_reads, fs1. cbn [free_blocks meta_data disk set_disk]. rewrite Hd.
          repeat split. cbn. lia. }
        intros m Hm.
        destruct (Z.lt_ge_cases m ((i + 1) * INODES_PER_BLOCK)) as [Hin|Hout].
        -- replace m with (i * INODES_PER_BLOCK + (m - i * INODES_PER_BLOCK)) by lia.
           rewrite Hslot by zlia. apply Hvalid. zlia.
        -- apply (Hall' m). zlia.
      * right. exists m, d'. split; [zlia|]. split; [exact Hz|]. split; [|split].
        -- intros m' Hm'.
           destruct (Z.lt_ge_cases m' ((i + 1) * INODES_PER_BLOCK)) as [Hin|Hout].
           ++ replace m' with (i * INODES_PER_BLOCK + (m' - i * INODES_PER_BLOCK)) by lia.
              rewrite Hslot by zlia. apply Hvalid. zlia.
           ++ apply Hbefore. zlia.
        -- destruct Hsame as (? & ? & ?). repeat split; assumption.
        -- exact Hrun'.
    + right. exists (i * INODES_PER_BLOCK + j0), (count_read d).
      destruct (inode_number_split i j0 Hi ltac:(zlia)) as [Hdiv Hmod].
      split; [zlia|]. split; [rewrite Hslot by zlia; exact Hz|]. split; [|split].
      * intros m' Hm'.
        replace m' with (i * INODES_PER_BLOCK + (m' - i * INODES_PER_BLOCK)) by lia.
        rewrite Hslot by zlia. apply Hbefore. zlia.
      * repeat split.
      * rewrite Hdiv, Hmod. replace (1 + i) with (i + 1) by lia. rewrite Hb. reflexivity.
Qed.

(** X11: on a mounted file system [fs_create] always returns, and what
    it returns is the smallest inode number whose [valid] word is zero
    (first fit over the whole inode table), or [-1] exactly when no inode
    of the table is free.  Taking inode [n] sets its [valid] word to 1
    and nothing else: the size and the pointers that the slot held stay,
    every other inode and every other block of the image is as before,
    and the bitmap and the superblock are untouched.  A full table leaves
    the image as it was. *)
Theorem fs_create_first_fit fs d bm :
  mounted fs d bm ->
  let total := inode_blocks (meta_data fs) * INODES_PER_BLOCK in
  exists n fs' d', fs_create fs = Ret (n, fs') /\
    disk fs' = Some d' /\ disk_ok d' /\
    free_blocks fs' = free_blocks fs /\ meta_data fs' = meta_data fs /\
    ((n = -1 /\ image d' = image d /\
      forall m, 0 <= m < total -> valid (inode_at (image d) m) <> 0) \/
     (0 <= n < total /\ valid (inode_at (image d) n) = 0 /\
      (forall m, 0 <= m < n -> valid (inode_at (image d) m) <> 0) /\
      inode_at (image d') n =
        {| valid := 1; size := size (inode_at (image d) n);
           direct := direct (inode_at (image d) n);
           indirect := indirect (inode_at (image d) n) |} /\
      (forall m, 0 <= m -> m <> n -> inode_at (image d') m = inode_at (image d) m) /\
      (forall k, k <> Z.to_nat (1 + n / INODES_PER_BLOCK) ->
         image d' !! k = image d !! k))).
Proof.
  intros Hm total. pose proof Hm as [Hd Hbm Hok Hlen Hwr Hib].
  unfold fs_create.
  destruct (create_blocks_total (Z.to_nat (inode_blocks (meta_data fs))) 0 None fs d
              Hd Hok ltac:(lia) ltac:(lia))
    as [(fs' & Hrun & Hro & Hall)|(m & d' & Hin & Hz & Hbefore & Hsame & Hrun)].
  - destruct Hro as (Hfree & Hmeta & Hdisk). rewrite Hd in Hdisk.
    destruct (disk fs') as [d'|] eqn:Hd'; [|contradiction].
    destruct Hdisk as ((Hfd & Hbl & Himg) & _ & _).
    exists (-1), fs', d'. split; [exact Hrun|]. split; [exact Hd'|]. split.
    { destruct Hok as (? & (? & ?) & ? & ?). unfold disk_ok. rewrite Hfd, Hbl, Himg.
      repeat split; assumption. }
    split; [exact Hfree|]. split; [exact Hmeta|]. left.
    split; [reflexivity|]. split; [exact Himg|].
    intros m Hm'. apply Hall. subst total. consts. lia.
  - destruct Hsame as (Hfd & Hbl & Himg).
    assert (Hmr : 0 <= m < total) by (subst total; consts; lia).
    assert (Hq : 0 <= m / INODES_PER_BLOCK < inode_blocks (meta_data fs))
      by (subst total; consts; lia).
    assert (Hr : 0 <= m mod INODES_PER_BLOCK < INODES_PER_BLOCK) by (consts; lia).
    destruct (disk_ok_lookup d (1 + m / INODES_PER_BLOCK) Hok ltac:(lia))
      as (b & Hb & Hbb).
    rewrite Hb in Hrun. cbn [default from_option id] in Hrun.
    eexists m, _, _. split; [exact Hrun|]. cbn [disk set_disk free_blocks meta_data].
    split; [reflexivity|]. split.
    { apply disk_ok_store_block; [|apply is_block_set_word; [assumption|consts; lia]].
      destruct Hok as (? & (? & ?) & ? & ?). unfold disk_ok. rewrite Hfd, Hbl, Himg.
      repeat split; assumption. }
    split; [reflexivity|]. split; [reflexivity|]. right.
    split; [exact Hmr|]. split; [exact Hz|]. split; [intros; apply Hbefore; lia|].
    cbn [image store_block]. rewrite Himg.
    assert (Hnat : (Z.to_nat (1 + m / INODES_PER_BLOCK) < length (image d))%nat).
    { destruct Hok as (_ & _ & Hl & _). lia. }
    split; [|split].
    + unfold inode_at. rewrite list_lookup_insert_eq by exact Hnat. rewrite Hb.
      cbn [default from_option id].
      rewrite block_inode_set_valid_same by assumption. reflexivity.
    + intros m' Hm' Hne. unfold inode_at.
      destruct (Z.eq_dec (m' / INODES_PER_BLOCK) (m / INODES_PER_BLOCK)) as [He|Hne'].
      * rewrite He. rewrite list_lookup_insert_eq by exact Hnat. rewrite Hb.
        cbn [default from_option id].
        apply block_inode_set_valid_other; try assumption; consts; lia.
      * rewrite list_lookup_insert_ne; [reflexivity|]. consts. lia.
    + intros k Hk. rewrite list_lookup_insert_ne; [reflexivity|]. congruence.
Qed.

(** The theorem at the mounted five-block image, whose first inode is
    free. *)
Lemma fs_create_first_fit_witness :
  exists n fs', fs_create tiny_fs = Ret (n, fs') /\ 0 <= n.
Proof.
  destruct (fs_create_first_fit tiny_fs tiny_mounted_disk tiny_bitmap tiny_mounted)
    as (n & fs' & d' & Hrun & _ & _ & _ & _ & Hcase).
  exists n, fs'. split; [exact Hrun|].
  destruct Hcase as [(_ & _ & Hfull)|Htaken]; [|lia].
  exfalso. apply (Hfull 0); [vm_compute; split; [discriminate|reflexivity]|].
  vm_compute. reflexivity.
Defined.

(** * Growth takes free blocks only *)

(** X12: [fs_expand_file] on a mounted file system and a well-formed
    file never takes a block that is in use.  The blocks it adds to the
    file (the new data blocks, and the indirect block when the file had
    none and gets one) are pairwise different blocks of the data region
    that the bitmap had as free; they are marked not-free afterwards and
    none of them was a block of the file.  The bitmap changes at no other
    block, an indirect block that the file already had stays where it is,
    and the only block of the image that may be written is the file's
    indirect block: every other block is as before, and a file that ends
    up without an indirect block leaves the whole image as it was. *)
Theorem fs_expand_file_takes_free_blocks fs d bm node ps new_size :
  mounted fs d bm ->
  file_ok (inode_blocks (meta_data fs)) d bm node ps ->
  Z.of_nat (length ps) = blocks_of (size node) ->
  0 <= new_size -> new_size + BLOCK_SIZE <= 2 ^ 64 ->
  exists node' fs' d' bm' qs,
    fs_expand_file fs node new_size = Ret (node', fs') /\
    mounted fs' d' bm' /\
    file_ok (inode_blocks (meta_data fs)) d' bm' node' (ps ++ qs) /\
    let fresh := qs ++ (if decide (indirect node = 0 /\ indirect node' <> 0)
                        then [indirect node'] else []) in
    NoDup fresh /\
    (forall p, p ∈ fresh ->
       inode_blocks (meta_data fs) < p < blocks d /\
       is_free bm p /\ is_used bm' p /\ p ∉ ps) /\
    (forall p, 0 <= p -> p ∉ fresh -> bit bm' p = bit bm p) /\
    (indirect node <> 0 -> indirect node' = indirect node) /\
    (forall p, 0 <= p -> p <> indirect node' ->
       image d' !! Z.to_nat p = image d !! Z.to_nat p) /\
    (indirect node' = 0 -> image d' = image d).
Proof.
  intros Hm Hf Hlen Hns0 Hns1.
  destruct (fs_expand_file_allocs fs d bm node ps new_size Hm Hf Hlen Hns0 Hns1)
    as (node' & fs' & d' & bm' & qs & Hrun & Hm' & _ & _ & Hf' & (_ & Hkept & Hzero) &
        _ & _ & Hframe & (taken & Hallocs & Hperm) & _).
  pose proof (m_inode_blocks _ _ _ Hm) as Hib.
  exists node', fs', d', bm', qs.
  split; [exact Hrun|]. split; [exact Hm'|]. split; [exact Hf'|]. cbv zeta.
  destruct (allocs_free _ _ _ _ _ (proj1 Hib) Hallocs) as [Hfree Hnodup].
  pose proof (allocs_bit _ _ _ _ _ (proj1 Hib) Hallocs) as Hbit.
  rewrite list.Forall_forall in Hfree.
  split; [rewrite <- Hperm; exact Hnodup|].
  split; [|split; [|split; [|split]; assumption]].
  - intros p Hp. rewrite <- Hperm in Hp. destruct (Hfree p Hp) as [Hrange Hfr].
    split; [exact Hrange|]. split; [exact Hfr|]. split.
    + unfold is_used. rewrite Hbit by lia. rewrite decide_True by exact Hp. reflexivity.
    + intros Hin. pose proof (f_used _ _ _ _ _ Hf) as Hused.
      rewrite list.Forall_forall in Hused. destruct (Hused p Hin) as [_ Hu].
      unfold is_free, is_used in *. congruence.
  - intros p Hp Hnin. rewrite Hbit by exact Hp.
    rewrite decide_False; [reflexivity|]. rewrite Hperm. exact Hnin.
Qed.

(** The theorem at the empty file of the five-block image, grown to four
    blocks. *)
Lemma fs_expand_file_takes_free_blocks_witness :
  exists node' fs',
    fs_expand_file tiny_created_fs
      (block_inode (default [] (image tiny_created_disk !! 1%nat)) 0) (4 * BLOCK_SIZE)
      = Ret (node', fs').
Proof.
  destruct (fs_expand_file_takes_free_blocks tiny_created_fs tiny_created_disk tiny_bitmap
              (block_inode (default [] (image tiny_created_disk !! 1%nat)) 0) []
              (4 * BLOCK_SIZE))
    as (node' & fs' & d' & bm' & qs & Hrun & _).
  - exact tiny_created_mounted.
  - exact tiny_created_file_ok.
  - vm_compute. reflexivity.
  - vm_compute. congruence.
  - vm_compute. congruence.
  - exists node', fs'. exact Hrun.
Defined.

(** * What a write leaves alone *)

Lemma blocks_of_full k : 0 <= k -> blocks_of (k * BLOCK_SIZE) = k.
Proof. intros Hk. unfold blocks_of. zlia. Qed.

Lemma blocks_of_mono a b : a <= b -> blocks_of a <= blocks_of b.
Proof. intros Hab. unfold blocks_of. zlia. Qed.

(** X13: [fs_write] to a valid inode of a mounted file system whose
    pointers describe a well-formed file keeps the file system well
    formed and touches this file only.  It returns a count [bw] with
    [0 <= bw <= len]; the count is short only when the growth stopped
    before the block of the last byte, and then it is the room between
    [offset] and the end of the file's last block.  Afterwards the inode
    on disk again describes a well-formed file with as many blocks as
    its size needs, so that writes can follow one another.  Every other
    inode of the table is as before, every data block that was in use
    and belongs neither to the file nor to its indirect block keeps its
    contents and stays in use, and no block is released. *)
Theorem fs_write_touches_own_file fs d bm n b node ps data len offset :
  mounted fs d bm ->
  0 <= n -> 1 + n / INODES_PER_BLOCK <= inode_blocks (meta_data fs) ->
  image d !! Z.to_nat (1 + n / INODES_PER_BLOCK) = Some b ->
  node = block_inode b (n mod INODES_PER_BLOCK) -> valid node <> 0 ->
  file_ok (inode_blocks (meta_data fs)) d bm node ps ->
  Z.of_nat (length ps) = blocks_of (size node) ->
  0 <= offset -> 0 <= len -> offset + len + BLOCK_SIZE <= 2 ^ 64 ->
  len <= Z.of_nat (length data) ->
  exists bw fs' d' bm' node' qs,
    fs_write fs n data len offset = Ret (bw, fs') /\
    mounted fs' d' bm' /\ meta_data fs' = meta_data fs /\
    0 <= bw <= len /\
    (bw < len ->
     Z.of_nat (length (ps ++ qs)) < blocks_of (offset + len) /\
     bw = Z.max 0 (Z.of_nat (length (ps ++ qs)) * BLOCK_SIZE - offset)) /\
    inode_at (image d') n = node' /\ valid node' = valid node /\
    file_ok (inode_blocks (meta_data fs)) d' bm' node' (ps ++ qs) /\
    Z.of_nat (length (ps ++ qs)) = blocks_of (size node') /\
    (forall m, 0 <= m < inode_blocks (meta_data fs) * INODES_PER_BLOCK -> m <> n ->
       inode_at (image d') m = inode_at (image d) m) /\
    (forall p, inode_blocks (meta_data fs) < p -> is_used bm p ->
       p ∉ ps -> p <> indirect node ->
       image d' !! Z.to_nat p = image d !! Z.to_nat p /\ is_used bm' p) /\
    (forall p, 0 <= p -> is_free bm' p -> is_free bm p).
Proof.
  intros Hm Hn Hnb Hb Hnode Hvalid Hf Hlenps Hoff Hlen Hsum Hdata.
  pose proof (m_disk_ok _ _ _ Hm) as Hok. pose proof (m_inode_blocks _ _ _ Hm) as Hib.
  pose proof Hok as (Hfd & Hbl & Himgl & Hall).
  set (lo := inode_blocks (meta_data fs)) in *.
  set (fs0 := set_disk fs (Some (count_read d))).
  assert (Hm0 : mounted fs0 (count_read d) bm).
  { apply (mounted_set_disk fs d bm); [assumption|assumption|reflexivity]. }
  assert (Hf0 : file_ok (inode_blocks (meta_data fs0)) (count_read d) bm node ps).
  { apply (file_ok_same_disk lo d); [reflexivity|reflexivity|assumption]. }
  destruct (fs_expand_file_allocs fs0 (count_read d) bm node ps (offset + len) Hm0 Hf0 Hlenps
              ltac:(lia) ltac:(lia))
    as (node' & fs1 & d1 & bm' & qs & Hexpand & Hm1 & Hmeta1 & Hbl1 & Hf1 &
        (Hv1 & Hkept & _) & Hcnt1 & Hsize1 & Hframe1 & (taken & Hallocs & Hperm) & _).
  change (meta_data fs0) with (meta_data fs) in *. fold lo in Hf1, Hallocs.
  change (blocks (count_read d)) with (blocks d) in Hbl1, Hallocs.
  change (image (count_read d)) with (image d) in Hframe1.
  destruct (write_blocks data len (drop (Z.to_nat (offset / BLOCK_SIZE)) (ps ++ qs))
              (offset / BLOCK_SIZE, offset mod BLOCK_SIZE, 0, image d1))
    as [[[i' off'] bw'] img'] eqn:Hw.
  assert (Hf1' : file_ok (inode_blocks (meta_data fs1)) d1 bm' node' (ps ++ qs))
    by (rewrite Hmeta1; exact Hf1).
  destruct (fs_write_spec fs d n b node data len offset node' fs1 d1 bm' (ps ++ qs)
              (m_disk _ _ _ Hm) Hok Hn ltac:(lia) Hb Hnode Hvalid Hoff Hlen ltac:(zlia) Hdata
              Hexpand Hm1 Hbl1 Hf1' i' off' bw' img' Hw)
    as (fs' & d2 & b' & Hrun & Hm2 & Hmeta2 & Hbl2 & Hb' & Hbb' & Himg2).
  pose proof Hf1 as [Hi1 Hc1 Hd1 Hind1 Hu1 Hn1].
  rewrite list.Forall_forall in Hu1.
  (* where the indirect block of the file is *)
  assert (Hiplace : indirect node' = 0 \/
                    (lo < indirect node' < blocks d1 /\ indirect node' ∉ ps ++ qs)).
  { destruct (decide (Z.of_nat (length (ps ++ qs)) <= POINTERS_PER_INODE));
      [left; exact Hind1|right; destruct Hind1 as (? & _ & ? & _); split; assumption]. }
  assert (Hinotin : indirect node' ∉ ps ++ qs).
  { destruct Hiplace as [Hz|[_ ?]]; [|assumption].
    intros Hin. apply Hu1 in Hin. clear - Hin Hz Hib. lia. }
  assert (Hi0 : 0 <= indirect node') by (clear - Hiplace Hib; lia).
  (* the writes stay inside the blocks of the file *)
  assert (Hwframe : forall q, 0 <= q -> q ∉ ps ++ qs ->
            img' !! Z.to_nat q = image d1 !! Z.to_nat q).
  { intros q Hq Hnin.
    apply (write_blocks_frame _ _ _ _ _ _ _ _ _ _ _ q Hw Hq).
    - apply Forall_drop, list.Forall_forall. intros p Hp. apply Hu1 in Hp.
      clear - Hp Hib. lia.
    - intros Hin. apply subseteq_drop in Hin. contradiction. }
  assert (Htable : forall k, 1 <= k <= lo ->
            img' !! Z.to_nat k = image d !! Z.to_nat k).
  { intros k Hk. rewrite Hwframe.
    - apply Hframe1; [lia|]. clear - Hiplace Hk. lia.
    - lia.
    - intros Hin. apply Hu1 in Hin. clear - Hin Hk. lia. }
  assert (Hsame : b' = b).
  { rewrite Htable in Hb' by (clear - Hn Hnb; zlia). congruence. }
  subst b'.
  assert (Hnat : (Z.to_nat (1 + n / INODES_PER_BLOCK) < length img')%nat).
  { apply lookup_lt_is_Some. eexists. exact Hb'. }
  assert (Hr : 0 <= n mod INODES_PER_BLOCK < INODES_PER_BLOCK) by zlia.
  (* the bitmap *)
  destruct (allocs_free _ _ _ _ _ (proj1 Hib) Hallocs) as [Hfree _].
  pose proof (allocs_bit _ _ _ _ _ (proj1 Hib) Hallocs) as Hbit.
  rewrite list.Forall_forall in Hfree.
  (* the count *)
  assert (Hoff0 : 0 <= offset mod BLOCK_SIZE < BLOCK_SIZE) by zlia.
  pose proof (write_blocks_count _ _ _ _ _ _ _ _ _ _ _ Hw Hoff0 Hlen)
    as (Hi' & Hbw' & Hnone & _ & Hexact & _).
  set (L := Z.of_nat (length (ps ++ qs))) in *.
  assert (HL : 0 <= L) by (unfold L; lia).
  assert (Hdrop : Z.of_nat (length (drop (Z.to_nat (offset / BLOCK_SIZE)) (ps ++ qs))) =
                  Z.max 0 (L - offset / BLOCK_SIZE)).
  { rewrite length_drop. unfold L. clear - Hoff. zlia. }
  exists bw', fs', d2, bm', node', qs.
  split; [exact Hrun|]. split; [exact Hm2|]. split; [congruence|].
  split; [clear - Hbw'; lia|]. split; [|split; [|split; [exact Hv1|split; [|split; [|split]]]]].
  - intros Hshort.
    pose proof (write_blocks_short _ _ _ _ _ _ _ _ _ _ _ Hw Hshort) as Hlast.
    specialize (Hexact Hshort). rewrite Hdrop in Hlast.
    assert (Hbwv : bw' = Z.max 0 (L * BLOCK_SIZE - offset)).
    { destruct (decide (i' = offset / BLOCK_SIZE)) as [He|Hne].
      - clear - Hexact Hlast He Hoff HL. zlia.
      - clear - Hexact Hlast Hne Hoff HL. zlia. }
    split; [|exact Hbwv].
    unfold blocks_of. clear - Hbwv Hshort Hoff Hlen HL. zlia.
  - unfold inode_at. rewrite Himg2, list_lookup_insert_eq by exact Hnat.
    cbn [default from_option id].
    apply block_inode_set_same; [exact Hr| |exact Hi1].
    rewrite Forall_lookup in Hall. eauto.
  - apply (file_ok_frame lo d1); [congruence| |exact Hf1].
    rewrite Himg2, list_lookup_insert_ne.
    + apply Hwframe; assumption.
    + clear - Hiplace Hnb Hn. zlia.
  - rewrite Hsize1.
    assert (HAL : Z.of_nat (length ps) <= L) by (unfold L; rewrite length_app; lia).
    pose proof (blocks_of_mono (size node) (Z.max (size node) (offset + len))
                  (Z.le_max_l _ _)) as Hmono1.
    pose proof (blocks_of_mono (offset + len) (Z.max (size node) (offset + len))
                  (Z.le_max_r _ _)) as Hmono2.
    destruct (decide (blocks_of (offset + len) <= Z.of_nat (length ps))) as [Hfit|Hgrow];
      [|destruct (decide (L = blocks_of (offset + len))) as [Hall'|Hpart]].
    + destruct (Z.max_spec (size node) (offset + len)) as [[_ Hmax]|[_ Hmax]];
        rewrite Hmax in *; clear - Hcnt1 HAL Hlenps Hmono1 Hmono2 Hfit; lia.
    + assumption.
    + symmetry. apply blocks_of_full. exact HL.
  - intros m Hmr Hne. unfold inode_at.
    assert (Hq : 0 <= m / INODES_PER_BLOCK < lo) by (clear - Hmr; zlia).
    rewrite Himg2.
    destruct (Z.eq_dec (m / INODES_PER_BLOCK) (n / INODES_PER_BLOCK)) as [He|Hne'].
    + rewrite He, list_lookup_insert_eq by exact Hnat. rewrite Hb.
      cbn [default from_option id].
      apply block_inode_set_other; [exact Hr|zlia|clear - He Hne; zlia|].
      rewrite Forall_lookup in Hall. eauto.
    + rewrite list_lookup_insert_ne by (clear - Hne' Hq Hn; zlia).
      rewrite Htable by lia. reflexivity.
  - split.
    + intros p Hp Hused Hnps Hnind.
      assert (H0p : 0 < p) by (clear - Hp Hib; lia).
      assert (Hntaken : p ∉ taken).
      { intros Hin. destruct (Hfree p Hin) as [_ Hfr].
        unfold is_free, is_used in *. congruence. }
      rewrite Hperm in Hntaken. apply not_elem_of_app in Hntaken as [Hnqs Hnextra].
      assert (Hni' : p <> indirect node').
      { destruct (Z.eq_dec (indirect node) 0) as [Hz|Hnz]; [|rewrite Hkept; assumption].
        intros ->. destruct (Z.eq_dec (indirect node') 0) as [Hz'|Hnz'];
          [clear - H0p Hz'; lia|].
        rewrite decide_True in Hnextra by (split; assumption).
        apply Hnextra. left. }
      split.
      * rewrite Himg2, list_lookup_insert_ne by (clear - Hp Hnb Hn; zlia).
        rewrite Hwframe; [apply Hframe1; [apply Z.lt_le_incl, H0p|exact Hni']
                         |apply Z.lt_le_incl, H0p|].
        intros [?|?]%elem_of_app; contradiction.
      * apply (allocs_used lo _ _ _ _ _ (proj1 Hib) Hallocs);
          [apply Z.lt_le_incl, H0p|assumption].
    + intros p Hp Hfr. unfold is_free in *. rewrite Hbit in Hfr by exact Hp.
      case_decide; [discriminate|assumption].
Qed.

(** The theorem at the empty file of the five-block image: one byte
    written behind the first block. *)
Lemma fs_write_touches_own_file_witness :
  exists bw fs', fs_write tiny_created_fs 0 [Byte.x41] 1 (BLOCK_SIZE + 5) = Ret (bw, fs') /\
    0 <= bw <= 1.
Proof.
  destruct (fs_write_touches_own_file tiny_created_fs tiny_created_disk tiny_bitmap 0
              (default [] (image tiny_created_disk !! 1%nat))
              (block_inode (default [] (image tiny_created_disk !! 1%nat)) 0)
              [] [Byte.x41] 1 (BLOCK_SIZE + 5))
    as (bw & fs' & d' & bm' & node' & qs & Hrun & _ & _ & Hbw & _).
  - exact tiny_created_mounted.
  - lia.
  - vm_compute. congruence.
  - vm_compute. reflexivity.
  - reflexivity.
  - vm_compute. congruence.
  - exact tiny_created_file_ok.
  - vm_compute. reflexivity.
  - zlia.
  - lia.
  - zlia.
  - cbn [length]. lia.
  - exists bw, fs'. split; [exact Hrun|exact Hbw].
Defined.

(** * Reading a file from its start *)

Lemma length_file_bytes img ps :
  Forall is_block img -> Forall (fun p => 0 <= p < Z.of_nat (length img)) ps ->
  length (file_bytes img ps) = (length ps * Z.to_nat BLOCK_SIZE)%nat.
Proof.
  intros Hall. induction 1 as [|p ps Hp Hps IH]; [reflexivity|].
  unfold file_bytes in *. cbn [fmap list_fmap concat length].
  rewrite length_app, IH.
  destruct (lookup_lt_is_Some_2 img (Z.to_nat p)) as [b Hb]; [lia|].
  rewrite Hb. cbn [default from_option id].
  rewrite Forall_lookup in Hall. rewrite (Hall _ _ Hb). lia.
Qed.

Lemma holds_data_file_bytes img ps len :
  Forall is_block img -> Forall (fun p => 0 <= p < Z.of_nat (length img)) ps ->
  holds_data img ps (file_bytes img ps) len.
Proof.
  intros Hall Hps k p Hk Hp Hlt.
  assert (Hprange : 0 <= p < Z.of_nat (length img)).
  { rewrite list.Forall_forall in Hps. apply Hps. eapply list_elem_of_lookup_2. exact Hp. }
  destruct (lookup_lt_is_Some_2 img (Z.to_nat p)) as [b Hb]; [lia|].
  assert (Hbb : is_block b) by (rewrite Forall_lookup in Hall; eauto).
  exists b. split; [exact Hb|].
  assert (Hsplit : file_bytes img ps =
            file_bytes img (take (Z.to_nat k) ps) ++ b ++ file_bytes img (drop (S (Z.to_nat k)) ps)).
  { rewrite <- (take_drop_middle ps (Z.to_nat k) p Hp) at 1.
    unfold file_bytes. rewrite fmap_app, concat_app. cbn [fmap list_fmap concat].
    rewrite Hb. reflexivity. }
  assert (Hfront : length (file_bytes img (take (Z.to_nat k) ps)) = Z.to_nat (k * BLOCK_SIZE)).
  { rewrite length_file_bytes; [|assumption|apply Forall_take; assumption].
    rewrite length_take. apply lookup_lt_Some in Hp. zlia. }
  rewrite Hsplit, <- Hfront, drop_app_length.
  rewrite take_app_le; [reflexivity|]. unfold is_block in Hbb. rewrite Hbb. zlia.
Qed.

(** X14: [fs_read] from offset 0 of a valid inode of a mounted file
    system whose pointers describe a well-formed file returns
    [min(length, size)], and the bytes it stores are the data blocks of
    the file in file order, cut at that count: first the blocks of the
    direct pointers, then those of the entries of the indirect block. *)
Theorem fs_read_from_start fs d bm n b node ps req :
  mounted fs d bm ->
  0 <= n -> 1 + n / INODES_PER_BLOCK < blocks d ->
  image d !! Z.to_nat (1 + n / INODES_PER_BLOCK) = Some b ->
  node = block_inode b (n mod INODES_PER_BLOCK) -> valid node <> 0 ->
  file_ok (inode_blocks (meta_data fs)) d bm node ps ->
  Z.of_nat (length ps) = blocks_of (size node) ->
  0 <= req ->
  exists fs',
    fs_read fs n req 0 =
      Ret (Z.min req (size node),
           take (Z.to_nat (Z.min req (size node))) (file_bytes (image d) ps), fs').
Proof.
  intros Hm Hn Hnb Hb Hnode Hvalid Hf Hlen Hreq.
  pose proof (m_disk_ok _ _ _ Hm) as (Hfd & Hbl & Himgl & Hall).
  pose proof (m_inode_blocks _ _ _ Hm) as Hib.
  pose proof (file_ok_size_bound _ _ _ _ _ Hf Hlen) as [Hs0 Hs1].
  apply (fs_read_front fs d bm n b node ps _ req); try assumption; try reflexivity.
  - apply holds_data_file_bytes; [assumption|].
    eapply list.Forall_impl; [exact (f_used _ _ _ _ _ Hf)|].
    cbv beta. intros p [Hp _]. lia.
  - rewrite Hlen. unfold blocks_of. clear - Hreq Hs0. zlia.
Qed.

(** The theorem at the file of 100 bytes on the five-block image, asked
    for a whole block. *)
Lemma fs_read_from_start_witness :
  exists out fs', fs_read small_file_fs 0 BLOCK_SIZE 0 = Ret (100, out, fs').
Proof.
  destruct (fs_read_from_start small_file_fs small_file_disk small_file_bitmap 0
              (default [] (image small_file_disk !! 1%nat))
              small_file_inode [2] BLOCK_SIZE)
    as (fs' & Hrun).
  - exact small_file_mounted.
  - lia.
  - vm_compute. reflexivity.
  - vm_compute. reflexivity.
  - vm_compute. reflexivity.
  - vm_compute. congruence.
  - exact small_file_file_ok.
  - vm_compute. reflexivity.
  - zlia.
  - eexists _, fs'. exact Hrun.
Defined.
